(** * Sandboxed path-access gateway: a shallow embedding and its properties

    The development follows the Python sources of the repository:

    - [extensions/fs-sandbox-python/server/helpers.py]: modules [FsSandbox]
      ([resolve], the read cap), [FsSandboxIO] ([read_capped]) and
      [FsSandboxConfig] ([parse_allowed]);
    - [extensions/ffprobe-lite-python/server/helpers.py]: modules
      [FfprobeLite] ([resolve]) and [FfprobeLiteConfig] ([parse_allowed]);
    - [examples/python-server.py]: module [PyServer].

    Python [str] values are modelled by their UTF-8 bytes ([string]), Python
    [int] by [Z], dictionaries by [gmap], exceptions by an explicit result
    type, and the mutable process state (server counters, file system,
    standard error) by a state-and-exception monad. The clock is an input of
    every call and counts whole seconds.

    The library functions that the sources call are modelled next to them:
    a POSIX file system with directories, files and symbolic links,
    [pathlib] paths, [json.loads], [hashlib.sha256], [base64] and the
    decoding of UTF-8 text. In the two extension helpers the
    canonicalisation [Path(x).expanduser().resolve()] is a parameter
    [canon] that returns a path or the error that the expression raises,
    so that their properties hold in every state of the file system;
    [canonical] instantiates it over the modelled file system. *)

From Stdlib Require Import ZArith NArith Ascii String List Lia Bool.
From stdpp Require Import base tactics option list gmap strings pretty.

Local Open Scope Z_scope.

(** ** Exceptions and results *)

(** A raised Python exception: the name of its class ([type(e).__name__])
    and its message ([str(e)]). *)
Record exn := Exn { exn_class : string; exn_msg : string }.

Inductive result (A : Type) : Type :=
| Ok (a : A)
| Raise (e : exn).
Arguments Ok {A} a.
Arguments Raise {A} e.

Definition is_ok {A} (r : result A) : bool :=
  match r with Ok _ => true | Raise _ => false end.

#[global] Instance exn_eq_dec : EqDecision exn.
Proof. solve_decision. Defined.

(** ** Strings as Python uses them *)

(** [os.sep] on POSIX. *)
Definition os_sep : string := "/".

(** [s.startswith(pre)] *)
Definition startswith (s pre : string) : bool := String.prefix pre s.

(** [s[n:]] *)
Fixpoint drop_chars (n : nat) (s : string) : string :=
  match n, s with
  | O, _ => s
  | S n', String _ s' => drop_chars n' s'
  | S _, EmptyString => EmptyString
  end.

(** [s[:n]] *)
Fixpoint take_chars (n : nat) (s : string) : string :=
  match n, s with
  | O, _ => EmptyString
  | S n', String a s' => String a (take_chars n' s')
  | S _, EmptyString => EmptyString
  end.

(** [s.split(c)] for a one-character separator: never the empty list. *)
Fixpoint split_on (c : ascii) (s : string) : list string :=
  match s with
  | EmptyString => [EmptyString]
  | String a s' =>
      if decide (a = c) then EmptyString :: split_on c s'
      else match split_on c s' with
           | w :: ws => String a w :: ws
           | [] => [String a EmptyString]
           end
  end.

(** [sep.join(l)] *)
Fixpoint join (sep : string) (l : list string) : string :=
  match l with
  | [] => EmptyString
  | [x] => x
  | x :: l' => x +:+ sep +:+ join sep l'
  end.

(** The white space that [str.strip()] removes, on the UTF-8 bytes of the
    text. One byte: tab, line feed, vertical tab, form feed, carriage
    return, the separators 0x1c-0x1f and space. *)
Definition is_py_space (a : ascii) : bool :=
  let n := N_of_ascii a in
  ((9 <=? n) && (n <=? 13) || (28 <=? n) && (n <=? 32))%N.

(** Two bytes: U+0085 and U+00A0. *)
Definition is_space2 (a b : ascii) : bool :=
  let x := N_of_ascii a in
  let y := N_of_ascii b in
  ((x =? 194) && ((y =? 133) || (y =? 160)))%N.

(** Three bytes: U+1680, U+2000 to U+200A, U+2028, U+2029, U+202F, U+205F
    and U+3000. *)
Definition is_space3 (a b c : ascii) : bool :=
  let x := N_of_ascii a in
  let y := N_of_ascii b in
  let z := N_of_ascii c in
  ((x =? 225) && (y =? 154) && (z =? 128)
   || (x =? 226) && (y =? 128) &&
      ((128 <=? z) && (z <=? 138) || (z =? 168) || (z =? 169) || (z =? 175))
   || (x =? 226) && (y =? 129) && (z =? 159)
   || (x =? 227) && (y =? 128) && (z =? 128))%N.

(** The text begins with a white-space character. *)
Definition starts_space (s : string) : bool :=
  match s with
  | String a s1 =>
      is_py_space a ||
      match s1 with
      | String b s2 =>
          is_space2 a b ||
          match s2 with
          | String c _ => is_space3 a b c
          | EmptyString => false
          end
      | EmptyString => false
      end
  | EmptyString => false
  end.

(** The text is one white-space character. *)
Definition is_space_char (s : string) : bool :=
  match s with
  | String a EmptyString => is_py_space a
  | String a (String b EmptyString) => is_space2 a b
  | String a (String b (String c EmptyString)) => is_space3 a b c
  | _ => false
  end.

Fixpoint lstrip (s : string) : string :=
  match s with
  | String a s1 =>
      if is_py_space a then lstrip s1
      else
        match s1 with
        | String b s2 =>
            if is_space2 a b then lstrip s2
            else
              match s2 with
              | String c s3 => if is_space3 a b c then lstrip s3 else s
              | EmptyString => s
              end
        | EmptyString => s
        end
  | EmptyString => EmptyString
  end.

(** From the right: what is left of the tail, with the byte before it, is
    dropped when it is one white-space character. *)
Fixpoint rstrip (s : string) : string :=
  match s with
  | EmptyString => EmptyString
  | String a s' =>
      let r := String a (rstrip s') in
      if is_space_char r then EmptyString else r
  end.

(** [s.strip()] *)
Definition strip (s : string) : string := rstrip (lstrip s).

(** [sub in s] *)
Fixpoint contains_str (sub s : string) : bool :=
  String.prefix sub s ||
  match s with
  | EmptyString => false
  | String _ s' => contains_str sub s'
  end.

(** The character occurs in the text. *)
Fixpoint has_char (c : ascii) (s : string) : bool :=
  match s with
  | EmptyString => false
  | String a s' => bool_decide (a = c) || has_char c s'
  end.

(** ** Path containment in the two extension helpers *)

Definition SandboxError (msg : string) : exn := Exn "SandboxError" msg.

(** What [Path(x).expanduser().resolve()] raises instead of returning a
    path: [RuntimeError] for a symbolic-link loop and for a home directory
    that cannot be determined, [ValueError] for a NUL byte in the path. *)
Inductive resolve_error :=
| SymlinkLoop (p : string)
| NoHomeDirectory (user : string)
| EmbeddedNull.

Definition resolve_exn (e : resolve_error) : exn :=
  match e with
  | SymlinkLoop p => Exn "RuntimeError" ("Symlink loop from '" +:+ p +:+ "'")
  | NoHomeDirectory _ => Exn "RuntimeError" "Could not determine home directory."
  | EmbeddedNull => Exn "ValueError" "embedded null byte"
  end.

Module FsSandbox.
Section Resolve.
(** [canon x] stands for [str(Path(x).expanduser().resolve())] in a fixed
    state of the file system: the canonical path, or the error that the
    expression raises. *)
Variable canon : string -> resolve_error + string.

(** The loop of [resolve] over the remaining bases: each base is
    canonicalised when the loop reaches it. *)
Fixpoint resolve_loop (abs_path : string) (allowed : list string) : result string :=
  match allowed with
  | [] => Raise (SandboxError "Path not within allowed directories")
  | base :: rest =>
      match canon base with
      | inl e => Raise (resolve_exn e)
      | inr base_abs =>
          if bool_decide (abs_path = base_abs) || startswith abs_path (base_abs +:+ os_sep)
          then Ok abs_path
          else resolve_loop abs_path rest
      end
  end.

Definition resolve (allowed : list string) (requested : string) : result string :=
  match canon requested with
  | inl e => Raise (resolve_exn e)
  | inr abs_path => resolve_loop abs_path allowed
  end.
End Resolve.

(** [cap = max(1, max_mb) * 1024 * 1024] *)
Definition cap (max_mb : Z) : Z := Z.max 1 max_mb * 1024 * 1024.
End FsSandbox.

Module FfprobeLite.
Section Resolve.
Variable canon : string -> resolve_error + string.

Fixpoint resolve_loop (p : string) (allowed : list string) : result string :=
  match allowed with
  | [] => Raise (SandboxError "Path not within allowed directories")
  | base :: rest =>
      match canon base with
      | inl e => Raise (resolve_exn e)
      | inr b =>
          if bool_decide (p = b) || startswith p (b +:+ os_sep)
          then Ok p
          else resolve_loop p rest
      end
  end.

Definition resolve (allowed : list string) (requested : string) : result string :=
  match canon requested with
  | inl e => Raise (resolve_exn e)
  | inr p => resolve_loop p allowed
  end.
End Resolve.
End FfprobeLite.

(** ** State and exceptions *)

(** A computation over a mutable state [S] that returns or raises; state
    changes made before an exception is raised persist, as in Python. *)
Definition M (S A : Type) : Type := S -> result A * S.

#[global] Instance M_ret {S} : MRet (M S) := fun A a s => (Ok a, s).
#[global] Instance M_bind {S} : MBind (M S) := fun A B f m s =>
  match m s with
  | (Ok a, s') => f a s'
  | (Raise e, s') => (Raise e, s')
  end.

Definition raise {S A} (e : exn) : M S A := fun s => (Raise e, s).
Definition get_state {S} : M S S := fun s => (Ok s, s).
Definition put_state {S} (s : S) : M S unit := fun _ => (Ok tt, s).
Definition modify {S} (f : S -> S) : M S unit := fun s => (Ok tt, f s).

(** [try: body except Exception as e: handler(e)] *)
Definition try_except {S A} (body : M S A) (handler : exn -> M S A) : M S A :=
  fun s =>
    match body s with
    | (Ok a, s') => (Ok a, s')
    | (Raise e, s') => handler e s'
    end.

(** ** A POSIX file system

    Directories, regular files and symbolic links. The process may search
    every directory and open every file: access rights are no part of the
    model, and neither are the limits of the kernel on the length of a name
    or of a path, so that a lookup fails only for a missing name, for a
    file where a directory is needed, or for too many links. *)

Inductive node :=
| File (content : string)
| Dir
| Symlink (target : string).

(** The directory tree, keyed by the components of the absolute, symlink-free
    path of each node; the root [[]] is always a directory. *)
Abbreviation fsmap := (gmap (list string) node).

Definition node_at (fs : fsmap) (p : list string) : option node :=
  match p with
  | [] => Some Dir
  | _ => fs !! p
  end.

(** The components of a path string, as the kernel and [os.path] read them:
    empty components and [.] are skipped. *)
Definition is_skipped (c : string) : bool :=
  bool_decide (c = "") || bool_decide (c = ".").

Definition components (s : string) : list string :=
  List.filter (fun c => negb (is_skipped c)) (split_on "/" s).

Definition is_abs (s : string) : bool := startswith s "/".

Inductive walk_error := ENOENT | ENOTDIR | ELOOP.

(** How a missing component is treated: [Lexical] is the non-strict
    [os.path.realpath] (a missing name is kept as it is written),
    [MustExist] is the kernel's lookup for [stat] and [open] for reading,
    [MayCreate] is the kernel's lookup for creating the last component. *)
Inductive walk_mode := Lexical | MustExist | MayCreate.

(** Number of symbolic links followed in one lookup before giving up. *)
Definition max_symlinks : nat := 40.

(** Resolution of the components [rest] below the resolved directory [path]:
    [..] steps to the parent, a symbolic link is replaced by its target. *)
Fixpoint walk (mode : walk_mode) (fs : fsmap) (fuel : nat)
    (path rest : list string) {struct fuel} : walk_error + list string :=
  (fix go (path rest : list string) {struct rest} : walk_error + list string :=
     match rest with
     | [] => inr path
     | name :: rest' =>
         if is_skipped name then go path rest'
         else if bool_decide (name = "..") then go (removelast path) rest'
         else
           let newpath := path ++ [name] in
           match fs !! newpath with
           | Some (Symlink target) =>
               match fuel with
               | O => inl ELOOP
               | S fuel' =>
                   walk mode fs fuel'
                     (if is_abs target then [] else path)
                     (components target ++ rest')
               end
           | Some Dir => go newpath rest'
           | Some (File _) =>
               match mode, rest' with
               | Lexical, _ | _, [] => go newpath rest'
               | _, _ :: _ => inl ENOTDIR
               end
           | None =>
               match mode, rest' with
               | Lexical, _ | MayCreate, [] => go newpath rest'
               | _, _ => inl ENOENT
               end
           end
     end) path rest.

(** The constant part of the process environment. *)
Record os_env := OsEnv {
  env_cwd : list string;   (* components of [os.getcwd()] *)
  env_home : string        (* [$HOME] *)
}.

(** Lookup of a path string from the root or the working directory. *)
Definition lookup_path (mode : walk_mode) (env : os_env) (fs : fsmap) (p : string)
  : walk_error + list string :=
  walk mode fs max_symlinks (if is_abs p then [] else env_cwd env) (components p).

(** [str] of an absolute component list. *)
Definition abs_str (p : list string) : string := "/" +:+ join "/" p.

Definition os_error (err : walk_error) (p : string) : exn :=
  match err with
  | ENOENT => Exn "FileNotFoundError" ("[Errno 2] No such file or directory: '" +:+ p +:+ "'")
  | ENOTDIR => Exn "NotADirectoryError" ("[Errno 20] Not a directory: '" +:+ p +:+ "'")
  | ELOOP => Exn "OSError" ("[Errno 40] Too many levels of symbolic links: '" +:+ p +:+ "'")
  end.

(** Every system call that touches the file system is recorded. *)
Inductive io_event :=
| EvStat (p : string)
| EvRead (p : string)
| EvMkdir (p : string)
| EvWrite (p : string)
| EvListdir (p : string).

#[global] Instance io_event_eq_dec : EqDecision io_event.
Proof. solve_decision. Defined.

Record OS := MkOS {
  os_fs : fsmap;
  os_trace : list io_event      (* oldest first *)
}.

Definition emit (ev : io_event) : M OS unit :=
  modify (fun w => MkOS (os_fs w) (os_trace w ++ [ev])).

Record stat_result := StatResult { st_is_dir : bool; st_size : Z }.

(** [st_size] of a directory entry; its value plays no role below. *)
Definition dir_st_size : Z := 4096.

Definition strlen (s : string) : Z := Z.of_nat (String.length s).

(** [os.stat(p)] *)
Definition os_stat (env : os_env) (p : string) : M OS stat_result :=
  _ ← emit (EvStat p);
  w ← get_state;
  match lookup_path MustExist env (os_fs w) p with
  | inl err => raise (os_error err p)
  | inr q =>
      match node_at (os_fs w) q with
      | Some (File c) => mret (StatResult false (strlen c))
      | Some Dir => mret (StatResult true dir_st_size)
      | _ => raise (os_error ENOENT p)
      end
  end.

(** [open(p, 'rb').read()] *)
Definition os_read (env : os_env) (p : string) : M OS string :=
  _ ← emit (EvRead p);
  w ← get_state;
  match lookup_path MustExist env (os_fs w) p with
  | inl err => raise (os_error err p)
  | inr q =>
      match node_at (os_fs w) q with
      | Some (File c) => mret c
      | Some Dir => raise (Exn "IsADirectoryError" ("[Errno 21] Is a directory: '" +:+ p +:+ "'"))
      | _ => raise (os_error ENOENT p)
      end
  end.

(** [open(p, 'wb').write(data)]: the file is created or truncated. *)
Definition os_write (env : os_env) (p : string) (data : string) : M OS unit :=
  _ ← emit (EvWrite p);
  w ← get_state;
  match lookup_path MayCreate env (os_fs w) p with
  | inl err => raise (os_error err p)
  | inr q =>
      match node_at (os_fs w) q with
      | Some Dir => raise (Exn "IsADirectoryError" ("[Errno 21] Is a directory: '" +:+ p +:+ "'"))
      | _ => put_state (MkOS (<[q := File data]> (os_fs w)) (os_trace w))
      end
  end.

(** [os.path.isdir(p)]: false on every error. *)
Definition is_dir_at (env : os_env) (fs : fsmap) (p : string) : bool :=
  match lookup_path MustExist env fs p with
  | inr q => match node_at fs q with Some Dir => true | _ => false end
  | inl _ => false
  end.

(** The lookup of [mkdir(2)]: the path above the last name is resolved to
    an existing directory, and the last name is taken as it is written, a
    symbolic link there is not followed. A path that ends in [..] or has no
    name names an existing directory. *)
Definition lookup_nofollow (env : os_env) (fs : fsmap) (p : string)
  : walk_error + list string :=
  let start := if is_abs p then [] else env_cwd env in
  match last (components p) with
  | Some name =>
      if bool_decide (name = "..")
      then
        match walk MustExist fs max_symlinks start (components p) with
        | inl err => inl err
        | inr q => match node_at fs q with Some _ => inr q | None => inl ENOENT end
        end
      else
        match walk MustExist fs max_symlinks start (removelast (components p)) with
        | inl err => inl err
        | inr parent =>
            match node_at fs parent with
            | Some Dir => inr (parent ++ [name])
            | Some _ => inl ENOTDIR
            | None => inl ENOENT
            end
        end
  | None =>
      match node_at fs start with
      | Some _ => inr start
      | None => inl ENOENT
      end
  end.

(** [os.mkdir(p)]: the parent must be an existing directory and the name
    must be free, also of a symbolic link that leads nowhere. *)
Definition os_mkdir (env : os_env) (p : string) : M OS unit :=
  _ ← emit (EvMkdir p);
  w ← get_state;
  match lookup_nofollow env (os_fs w) p with
  | inl err => raise (os_error err p)
  | inr q =>
      match node_at (os_fs w) q with
      | Some _ => raise (Exn "FileExistsError" ("[Errno 17] File exists: '" +:+ p +:+ "'"))
      | None => put_state (MkOS (<[q := Dir]> (os_fs w)) (os_trace w))
      end
  end.

(** [os.listdir(p)]: the names directly below the directory, in the order
    the file system reports them; [None] when [q] holds no directory. *)
Definition children (fs : fsmap) (q : list string) : list string :=
  omap (fun kv : list string * node =>
          match last (fst kv) with
          | Some name => if bool_decide (fst kv = q ++ [name]) then Some name else None
          | None => None
          end)
       (map_to_list fs).

Definition os_listdir (env : os_env) (p : string) : M OS (list string) :=
  _ ← emit (EvListdir p);
  w ← get_state;
  match lookup_path MustExist env (os_fs w) p with
  | inl err => raise (os_error err p)
  | inr q =>
      match node_at (os_fs w) q with
      | Some Dir => mret (children (os_fs w) q)
      | Some _ => raise (os_error ENOTDIR p)
      | None => raise (os_error ENOENT p)
      end
  end.

(** ** [pathlib] paths *)

(** A [PurePosixPath]: its root (empty, one slash, or exactly two slashes)
    and its remaining parts. [.] and empty components are dropped when the
    path is built; [..] is kept. *)
Record Path := MkPath { root : string; parts : list string }.

#[global] Instance Path_eq_dec : EqDecision Path.
Proof. solve_decision. Defined.

Definition parse_root (s : string) : string :=
  if startswith s "//" && negb (startswith s "///") then "//"
  else if startswith s "/" then "/"
  else "".

(** [Path(s)] *)
Definition mkpath (s : string) : Path := MkPath (parse_root s) (components s).

(** [str(p)] *)
Definition path_str (p : Path) : string :=
  match root p, parts p with
  | EmptyString, [] => "."
  | r, ps => r +:+ join "/" ps
  end.

(** [p / s]: an absolute right operand replaces the left one. *)
Definition path_join (p : Path) (s : string) : Path :=
  let q := mkpath s in
  if bool_decide (root q = "") then MkPath (root p) (parts p ++ parts q) else q.

(** [p.parent]: the root and the empty path are their own parents. *)
Definition path_parent (p : Path) : Path := MkPath (root p) (removelast (parts p)).

(** The list that [relative_to] compares: the root, when there is one, is
    its first element. *)
Definition abs_parts (p : Path) : list string :=
  if bool_decide (root p = "") then parts p else root p :: parts p.

Fixpoint is_prefix_of (l1 l2 : list string) : bool :=
  match l1, l2 with
  | [], _ => true
  | x :: l1', y :: l2' => bool_decide (x = y) && is_prefix_of l1' l2'
  | _ :: _, [] => false
  end.

(** [p.relative_to(other)] succeeds exactly when this holds; otherwise it
    raises [ValueError]. *)
Definition is_relative_to (p other : Path) : bool :=
  match abs_parts other with
  | [] => bool_decide (root p = "")
  | to_abs_parts => is_prefix_of to_abs_parts (abs_parts p)
  end.

(** [Path.home()] *)
Definition path_home (env : os_env) : Path := mkpath (env_home env).

(** [p.resolve()]: the path is made absolute, symbolic links are followed
    and [..] is collapsed; names that do not exist are kept. A NUL byte in
    the path raises [ValueError]. A lookup that is not over after
    [max_symlinks] links is a loop and raises [RuntimeError]; this is what
    [resolve] does when the loop is still on the path that it hands to its
    final [stat], and the statements below leave aside the requests on
    which this error is raised. *)
Definition path_resolve (env : os_env) (fs : fsmap) (p : Path) : result Path :=
  if has_char "000" (path_str p) then Raise (Exn "ValueError" "embedded null byte")
  else
    match lookup_path Lexical env fs (path_str p) with
    | inr q => Ok (MkPath "/" q)
    | inl _ => Raise (Exn "RuntimeError" ("Symlink loop from '" +:+ path_str p +:+ "'"))
    end.

(** [p.expanduser()]: a first part [~] becomes the home directory. The
    password database is not modelled: the home directory of a named user
    ([~name]) is never found, and [expanduser] raises. *)
Definition path_expanduser (env : os_env) (p : Path) : resolve_error + Path :=
  match root p, parts p with
  | EmptyString, first :: rest =>
      if bool_decide (first = "~")
      then inr (MkPath (root (path_home env)) (parts (path_home env) ++ rest))
      else if startswith first "~" then inl (NoHomeDirectory (drop_chars 1 first))
      else inr p
  | _, _ => inr p
  end.

(** [str(Path(x).expanduser().resolve())] over a concrete file system, or
    the error it raises. *)
Definition canonical (env : os_env) (fs : fsmap) (x : string) : resolve_error + string :=
  match path_expanduser env (mkpath x) with
  | inl e => inl e
  | inr p =>
      if has_char "000" (path_str p) then inl EmbeddedNull
      else
        match lookup_path Lexical env fs (path_str p) with
        | inr q => inr (path_str (MkPath "/" q))
        | inl _ => inl (SymlinkLoop (path_str p))
        end
  end.

(** [p.is_dir()] *)
Definition path_is_dir (env : os_env) (p : Path) : M OS bool :=
  _ ← emit (EvStat (path_str p));
  w ← get_state;
  mret (is_dir_at env (os_fs w) (path_str p)).

(** The [except OSError] arm of [Path.mkdir(exist_ok=True)]: an existing
    directory is accepted, any other failure is raised again. *)
Definition mkdir_exist_ok (env : os_env) (p : Path) (e : exn) : M OS unit :=
  d ← path_is_dir env p;
  if d : bool then mret tt else raise e.

(** [p.mkdir(parents=False, exist_ok=True)] *)
Definition path_mkdir (env : os_env) (p : Path) : M OS unit :=
  try_except (os_mkdir env (path_str p)) (fun e =>
    if bool_decide (exn_class e = "FileNotFoundError") then raise e
    else mkdir_exist_ok env p e).

(** [p.mkdir(parents=True, exist_ok=True)]; [n] bounds the number of
    ancestors and is the number of parts of [p]: with no part left the path
    is its own parent and [pathlib] raises as well. *)
Fixpoint path_mkdir_parents_aux (env : os_env) (n : nat) (p : Path) : M OS unit :=
  try_except (os_mkdir env (path_str p)) (fun e =>
    if bool_decide (exn_class e = "FileNotFoundError") then
      match n with
      | O => raise e
      | S n' =>
          if bool_decide (path_parent p = p) then raise e
          else
            _ ← path_mkdir_parents_aux env n' (path_parent p);
            path_mkdir env p
      end
    else mkdir_exist_ok env p e).

Definition path_mkdir_parents (env : os_env) (p : Path) : M OS unit :=
  path_mkdir_parents_aux env (length (parts p)) p.

(** ** [read_capped] of the fs-sandbox extension *)

Module FsSandboxIO.
(** [read_capped(p, max_mb)] *)
Definition read_capped (env : os_env) (p : string) (max_mb : Z) : M OS string :=
  st ← os_stat env (path_str (mkpath p));
  let size := st_size st in
  let cap := FsSandbox.cap max_mb in
  if bool_decide (size > cap)
  then raise (SandboxError ("File exceeds limit: " +:+ pretty size +:+ " > " +:+ pretty cap))
  else os_read env (path_str (mkpath p)).
End FsSandboxIO.

(** ** JSON values and [json.loads] *)

#[warnings="-register-all"]
Inductive jvalue :=
| JNull
| JBool (b : bool)
| JInt (z : Z)
| JFloat (lit : string)          (* a float, by the text it was read from *)
| JStr (s : string)
| JArr (l : list jvalue)
| JObj (l : list (string * jvalue)).

Definition is_json_ws (a : ascii) : bool :=
  let n := N_of_ascii a in
  ((n =? 32) || (n =? 9) || (n =? 10) || (n =? 13))%N.

Fixpoint skip_ws (s : string) : string :=
  match s with
  | String a s' => if is_json_ws a then skip_ws s' else s
  | EmptyString => s
  end.

Definition is_digit (a : ascii) : bool :=
  let n := N_of_ascii a in ((48 <=? n) && (n <=? 57))%N.

(** The longest prefix of decimal digits, and what follows it. *)
Fixpoint span_digits (s : string) : string * string :=
  match s with
  | String a s' =>
      if is_digit a then let '(d, r) := span_digits s' in (String a d, r)
      else (EmptyString, s)
  | EmptyString => (EmptyString, EmptyString)
  end.

Fixpoint digits_value (acc : Z) (s : string) : Z :=
  match s with
  | String a s' => digits_value (10 * acc + (Z.of_N (N_of_ascii a) - 48)) s'
  | EmptyString => acc
  end.

(** A fraction (a dot and at least one digit) or nothing. *)
Definition span_frac (s : string) : string * string :=
  match s with
  | String "." r =>
      match span_digits r with
      | (EmptyString, _) => (EmptyString, s)
      | (d, r') => ("." +:+ d, r')
      end
  | _ => (EmptyString, s)
  end.

(** An exponent (e or E, an optional sign, at least one digit) or nothing. *)
Definition span_exp (s : string) : string * string :=
  match s with
  | String e r =>
      if bool_decide (e = "e"%char) || bool_decide (e = "E"%char) then
        let '(sign, r1) :=
          match r with
          | String c r1 =>
              if bool_decide (c = "+"%char) || bool_decide (c = "-"%char)
              then (String c EmptyString, r1) else (EmptyString, r)
          | EmptyString => (EmptyString, r)
          end in
        match span_digits r1 with
        | (EmptyString, _) => (EmptyString, s)
        | (d, r') => (String e sign +:+ d, r')
        end
      else (EmptyString, s)
  | EmptyString => (EmptyString, s)
  end.

(** A number: an optional minus sign, then either a single zero or a
    nonzero digit and more digits, then an optional fraction and an optional
    exponent; it is an integer when it has neither fraction nor exponent. *)
Definition parse_number (s : string) : option (jvalue * string) :=
  let '(neg, s1) :=
    match s with
    | String "-" s' => (true, s')
    | _ => (false, s)
    end in
  let '(ds, s2) := span_digits s1 in
  match ds with
  | EmptyString => None
  | String d0 ds' =>
      let '(int_part, rest) :=
        if bool_decide (d0 = "0"%char) then ("0", ds' +:+ s2) else (ds, s2) in
      let '(frac, rest1) := span_frac rest in
      let '(exp, rest2) := span_exp rest1 in
      if bool_decide (frac = "") && bool_decide (exp = "")
      then Some (JInt (if neg then - digits_value 0 int_part else digits_value 0 int_part), rest)
      else Some (JFloat ((if neg then "-" else "") +:+ int_part +:+ frac +:+ exp), rest2)
  end.

Definition hex_val (a : ascii) : option N :=
  let n := N_of_ascii a in
  if ((48 <=? n) && (n <=? 57))%N then Some (n - 48)%N
  else if ((97 <=? n) && (n <=? 102))%N then Some (n - 87)%N
  else if ((65 <=? n) && (n <=? 70))%N then Some (n - 55)%N
  else None.

Definition read_hex4 (s : string) : option (N * string) :=
  match s with
  | String a (String b (String c (String d r))) =>
      ha ← hex_val a; hb ← hex_val b; hc ← hex_val c; hd ← hex_val d;
      Some ((((ha * 16 + hb) * 16 + hc) * 16 + hd)%N, r)
  | _ => None
  end.

Definition chr (n : N) : ascii := ascii_of_N n.

(** The UTF-8 bytes of a code point. *)
Definition utf8_encode (cp : N) : string :=
  (if cp <? 128 then String (chr cp) EmptyString
   else if cp <? 2048 then
     String (chr (192 + cp / 64)) (String (chr (128 + cp mod 64)) EmptyString)
   else if cp <? 65536 then
     String (chr (224 + cp / 4096))
       (String (chr (128 + (cp / 64) mod 64)) (String (chr (128 + cp mod 64)) EmptyString))
   else
     String (chr (240 + cp / 262144))
       (String (chr (128 + (cp / 4096) mod 64))
          (String (chr (128 + (cp / 64) mod 64)) (String (chr (128 + cp mod 64)) EmptyString))))%N.

(** The code point of a [\uXXXX] escape whose four digits gave [hi]; a high
    surrogate followed by an escaped low surrogate is one code point. *)
Definition read_surrogate (hi : N) (r : string) : N * string :=
  if ((55296 <=? hi) && (hi <=? 56319))%N then
    match r with
    | String "\" (String "u" r1) =>
        match read_hex4 r1 with
        | Some (lo, r2) =>
            if ((56320 <=? lo) && (lo <=? 57343))%N
            then ((65536 + (hi - 55296) * 1024 + (lo - 56320))%N, r2)
            else (hi, r)
        | None => (hi, r)
        end
    | _ => (hi, r)
    end
  else (hi, r).

(** The body of a string literal, after its opening quote. *)
Fixpoint parse_string (fuel : nat) (s : string) : option (string * string) :=
  match fuel with
  | O => None
  | S fuel' =>
      match s with
      | EmptyString => None
      | String a s' =>
          if bool_decide (a = "034"%char) then Some (EmptyString, s')
          else if (N_of_ascii a <? 32)%N then None
          else if bool_decide (a = "\"%char) then
            match s' with
            | EmptyString => None
            | String e s'' =>
                if bool_decide (e = "u"%char) then
                  '(hi, r) ← read_hex4 s'';
                  let '(cp, r') := read_surrogate hi r in
                  '(str, rest) ← parse_string fuel' r';
                  Some (utf8_encode cp +:+ str, rest)
                else
                  c ← (if bool_decide (e = "034"%char) then Some 34
                       else if bool_decide (e = "\"%char) then Some 92
                       else if bool_decide (e = "/"%char) then Some 47
                       else if bool_decide (e = "b"%char) then Some 8
                       else if bool_decide (e = "f"%char) then Some 12
                       else if bool_decide (e = "n"%char) then Some 10
                       else if bool_decide (e = "r"%char) then Some 13
                       else if bool_decide (e = "t"%char) then Some 9
                       else None)%N;
                  '(str, rest) ← parse_string fuel' s'';
                  Some (String (chr c) str, rest)
            end
          else
            '(str, rest) ← parse_string fuel' s';
            Some (String a str, rest)
      end
  end.

(** [s] begins with the keyword [kw]: what follows it. *)
Definition eat (kw s : string) : option string :=
  if startswith s kw then Some (drop_chars (String.length kw) s) else None.

(** One JSON value at the head of [s], and the arrays and objects inside it. *)
Fixpoint parse_value (fuel : nat) (s : string) : option (jvalue * string) :=
  match fuel with
  | O => None
  | S fuel' =>
      match s with
      | EmptyString => None
      | String a s' =>
          if bool_decide (a = "034"%char) then
            '(str, rest) ← parse_string (S (String.length s')) s';
            Some (JStr str, rest)
          else if bool_decide (a = "["%char) then
            match skip_ws s' with
            | String "]" rest => Some (JArr [], rest)
            | s1 => '(l, rest) ← parse_elems fuel' s1; Some (JArr l, rest)
            end
          else if bool_decide (a = "{"%char) then
            match skip_ws s' with
            | String "}" rest => Some (JObj [], rest)
            | s1 => '(l, rest) ← parse_members fuel' s1; Some (JObj l, rest)
            end
          else
            match eat "null" s, eat "true" s, eat "false" s with
            | Some r, _, _ => Some (JNull, r)
            | _, Some r, _ => Some (JBool true, r)
            | _, _, Some r => Some (JBool false, r)
            | _, _, _ =>
                match eat "NaN" s, eat "Infinity" s, eat "-Infinity" s with
                | Some r, _, _ => Some (JFloat "nan", r)
                | _, Some r, _ => Some (JFloat "inf", r)
                | _, _, Some r => Some (JFloat "-inf", r)
                | _, _, _ => parse_number s
                end
            end
      end
  end
with parse_elems (fuel : nat) (s : string) : option (list jvalue * string) :=
  match fuel with
  | O => None
  | S fuel' =>
      '(v, r) ← parse_value fuel' s;
      match skip_ws r with
      | String "]" rest => Some ([v], rest)
      | String "," r1 =>
          '(l, rest) ← parse_elems fuel' (skip_ws r1);
          Some (v :: l, rest)
      | _ => None
      end
  end
with parse_members (fuel : nat) (s : string) : option (list (string * jvalue) * string) :=
  match fuel with
  | O => None
  | S fuel' =>
      match s with
      | String "034" s' =>
          '(k, r) ← parse_string (S (String.length s')) s';
          match skip_ws r with
          | String ":" r1 =>
              '(v, r2) ← parse_value fuel' (skip_ws r1);
              match skip_ws r2 with
              | String "}" rest => Some ([(k, v)], rest)
              | String "," r3 =>
                  '(l, rest) ← parse_members fuel' (skip_ws r3);
                  Some ((k, v) :: l, rest)
              | _ => None
              end
          | _ => None
          end
      | _ => None
      end
  end.

(** [json.loads(raw)]: [None] when it raises. *)
Definition json_loads (raw : string) : option jvalue :=
  '(v, rest) ← parse_value (2 * String.length raw + 2) (skip_ws raw);
  match skip_ws rest with
  | EmptyString => Some v
  | _ => None
  end.

(** [repr(x)] and [str(x)] of a decoded JSON value. Strings, integers,
    booleans and [None] are exact; a float is shown by the text it was read
    from and a nested string is quoted without escapes, which approximates
    Python's formatting of such values. *)
Fixpoint py_repr (v : jvalue) : string :=
  match v with
  | JNull => "None"
  | JBool true => "True"
  | JBool false => "False"
  | JInt z => pretty z
  | JFloat lit => lit
  | JStr s => "'" +:+ s +:+ "'"
  | JArr l => "[" +:+ join ", " (map py_repr l) +:+ "]"
  | JObj l =>
      "{" +:+ join ", " (map (fun kv => "'" +:+ fst kv +:+ "': " +:+ py_repr (snd kv)) l) +:+ "}"
  end.

Definition py_str (v : jvalue) : string :=
  match v with
  | JStr s => s
  | _ => py_repr v
  end.

(** [[s.strip() for s in raw.split(",") if s.strip()]] *)
Definition comma_split (raw : string) : list string :=
  omap (fun s => if bool_decide (strip s = "") then None else Some (strip s))
       (split_on "," raw).

Module FsSandboxConfig.
(** [parse_allowed(raw)] of the fs-sandbox extension. *)
Definition parse_allowed (raw : option string) : list string :=
  match raw with
  | None | Some EmptyString => []
  | Some raw =>
      match json_loads raw with
      | Some (JArr arr) => map py_str arr
      | _ => comma_split raw
      end
  end.
End FsSandboxConfig.

Module FfprobeLiteConfig.
(** [parse_allowed(raw)] of the ffprobe-lite extension: the decoded array
    is returned as it is, its elements are not converted. *)
Definition parse_allowed (raw : option string) : list jvalue :=
  match raw with
  | None | Some EmptyString => []
  | Some raw =>
      match json_loads raw with
      | Some (JArr arr) => arr
      | Some _ => []
      | None => map JStr (comma_split raw)
      end
  end.
End FfprobeLiteConfig.

(** ** [hashlib.sha256] *)

Module SHA256.
Local Open Scope N_scope.

Definition w32 : N := 2 ^ 32.
Definition add32 (a b : N) : N := (a + b) mod w32.
Definition rotr (n x : N) : N :=
  N.lor (N.shiftr x n) (N.shiftl x (32 - n)) mod w32.
Definition not32 (x : N) : N := N.lxor x (w32 - 1).

Definition Ch (x y z : N) : N := N.lxor (N.land x y) (N.land (not32 x) z).
Definition Maj (x y z : N) : N :=
  N.lxor (N.lxor (N.land x y) (N.land x z)) (N.land y z).
Definition Sigma0 (x : N) : N := N.lxor (N.lxor (rotr 2 x) (rotr 13 x)) (rotr 22 x).
Definition Sigma1 (x : N) : N := N.lxor (N.lxor (rotr 6 x) (rotr 11 x)) (rotr 25 x).
Definition sigma0 (x : N) : N := N.lxor (N.lxor (rotr 7 x) (rotr 18 x)) (N.shiftr x 3).
Definition sigma1 (x : N) : N := N.lxor (N.lxor (rotr 17 x) (rotr 19 x)) (N.shiftr x 10).

(** The first sixty-four primes. *)
Definition primes : list N :=
  [2; 3; 5; 7; 11; 13; 17; 19; 23; 29; 31; 37; 41; 43; 47; 53;
   59; 61; 67; 71; 73; 79; 83; 89; 97; 101; 103; 107; 109; 113; 127; 131;
   137; 139; 149; 151; 157; 163; 167; 173; 179; 181; 191; 193; 197; 199; 211; 223;
   227; 229; 233; 239; 241; 251; 257; 263; 269; 271; 277; 281; 283; 293; 307; 311].

(** The integer cube root, one binary digit at a time from [2^bits] down. *)
Fixpoint icbrt (bits : nat) (n r : N) : N :=
  match bits with
  | O => if (r + 1) ^ 3 <=? n then r + 1 else r
  | S b =>
      let r' := r + 2 ^ N.of_nat bits in
      icbrt b n (if r' ^ 3 <=? n then r' else r)
  end.

(** The round constants: the first thirty-two bits of the fractional parts
    of the cube roots of the primes. *)
Definition K : list N :=
  Eval vm_compute in map (fun p => icbrt 36 (p * 2 ^ 96) 0 mod w32) primes.

(** The initial hash value: the same for the square roots of the first
    eight primes. *)
Definition H0 : list N :=
  Eval vm_compute in map (fun p => N.sqrt (p * 2 ^ 64) mod w32) (take 8 primes).

Definition bytes_of (s : string) : list N := map N_of_ascii (list_ascii_of_string s).

(** The big-endian bytes of [x], [n] of them. *)
Fixpoint be_bytes (n : nat) (x : N) : list N :=
  match n with
  | O => []
  | S n' => (N.shiftr x (8 * N.of_nat n')) mod 256 :: be_bytes n' x
  end.

(** The message, the byte 0x80, zero bytes up to 56 modulo 64, and the
    length of the message in bits. *)
Definition pad (msg : list N) : list N :=
  let len := N.of_nat (length msg) in
  let zeros := N.to_nat ((119 - len mod 64) mod 64) in
  msg ++ [128] ++ replicate zeros 0 ++ be_bytes 8 (8 * len).

Fixpoint be_words (fuel : nat) (bs : list N) : list N :=
  match fuel, bs with
  | S f, a :: b :: c :: d :: rest =>
      (((a * 256 + b) * 256 + c) * 256 + d) :: be_words f rest
  | _, _ => []
  end.

(** The message schedule, most recent word first: [rev] holds
    [W[t-1]; W[t-2]; ...] and [n] words are appended. *)
Fixpoint schedule (n : nat) (rev : list N) : list N :=
  match n with
  | O => rev
  | S n' =>
      let w := add32 (add32 (sigma1 (nth 1 rev 0)) (nth 6 rev 0))
                     (add32 (sigma0 (nth 14 rev 0)) (nth 15 rev 0)) in
      schedule n' (w :: rev)
  end.

Record hstate := HState { ha : N; hb : N; hc : N; hd : N; he : N; hf : N; hg : N; hh : N }.

Definition round (s : hstate) (kw : N * N) : hstate :=
  let t1 := add32 (add32 (add32 (hh s) (Sigma1 (he s))) (Ch (he s) (hf s) (hg s)))
                  (add32 (fst kw) (snd kw)) in
  let t2 := add32 (Sigma0 (ha s)) (Maj (ha s) (hb s) (hc s)) in
  HState (add32 t1 t2) (ha s) (hb s) (hc s) (add32 (hd s) t1) (he s) (hf s) (hg s).

Definition compress (h : hstate) (block : list N) : hstate :=
  let w := List.rev (schedule 48 (List.rev (be_words 16 block))) in
  let s := fold_left round (combine K w) h in
  HState (add32 (ha h) (ha s)) (add32 (hb h) (hb s)) (add32 (hc h) (hc s))
         (add32 (hd h) (hd s)) (add32 (he h) (he s)) (add32 (hf h) (hf s))
         (add32 (hg h) (hg s)) (add32 (hh h) (hh s)).

Fixpoint blocks (fuel : nat) (h : hstate) (bs : list N) : hstate :=
  match fuel, bs with
  | S f, _ :: _ => blocks f (compress h (take 64 bs)) (drop 64 bs)
  | _, _ => h
  end.

Definition init : hstate :=
  HState (nth 0 H0 0) (nth 1 H0 0) (nth 2 H0 0) (nth 3 H0 0)
         (nth 4 H0 0) (nth 5 H0 0) (nth 6 H0 0) (nth 7 H0 0).

Definition hex_digit (n : N) : ascii :=
  ascii_of_N (if n <? 10 then 48 + n else 87 + n).

(** The eight lower-case hexadecimal digits of a 32-bit word. *)
Definition hex8 (x : N) : string :=
  String (hex_digit (N.shiftr x 28 mod 16))
 (String (hex_digit (N.shiftr x 24 mod 16))
 (String (hex_digit (N.shiftr x 20 mod 16))
 (String (hex_digit (N.shiftr x 16 mod 16))
 (String (hex_digit (N.shiftr x 12 mod 16))
 (String (hex_digit (N.shiftr x 8 mod 16))
 (String (hex_digit (N.shiftr x 4 mod 16))
 (String (hex_digit (x mod 16)) EmptyString))))))).

Definition hex_of (s : hstate) : string :=
  hex8 (ha s) +:+ hex8 (hb s) +:+ hex8 (hc s) +:+ hex8 (hd s) +:+
  hex8 (he s) +:+ hex8 (hf s) +:+ hex8 (hg s) +:+ hex8 (hh s).

(** [hashlib.sha256(s).hexdigest()] *)
Definition hexdigest (s : string) : string :=
  let bs := pad (bytes_of s) in
  hex_of (blocks (length bs) init bs).
End SHA256.

(** ** [base64] and text decoding *)

Module Base64.
Local Open Scope N_scope.

(** The value of a character of the standard alphabet. *)
Definition sextet (a : ascii) : option N :=
  let n := N_of_ascii a in
  if (65 <=? n) && (n <=? 90) then Some (n - 65)
  else if (97 <=? n) && (n <=? 122) then Some (n - 71)
  else if (48 <=? n) && (n <=? 57) then Some (n + 4)
  else if n =? 43 then Some 62
  else if n =? 47 then Some 63
  else None.

Definition digit (n : N) : ascii :=
  ascii_of_N (if n <? 26 then 65 + n else if n <? 52 then 71 + n
              else if n <? 62 then n - 4 else if n =? 62 then 43 else 47).

Record dstate := DState { quad_pos : N; leftchar : N; pads : N; out : list N }.

(** Why [binascii.a2b_base64] refuses its input: one character of data is
    left over, or a group of two or three characters is not padded. *)
Inductive a2b_error := BadLength (data_characters : N) | IncorrectPadding.

(** [binascii.a2b_base64] without strict mode: characters outside the
    alphabet are skipped, a complete run of padding ends the data, and an
    unfinished group of characters is an error. *)
Fixpoint a2b (s : string) (st : dstate) : a2b_error + list N :=
  match s with
  | EmptyString =>
      if quad_pos st =? 0 then inr (out st)
      else if quad_pos st =? 1
      then inl (BadLength (N.of_nat (length (out st)) / 3 * 4 + 1))
      else inl IncorrectPadding
  | String a s' =>
      if bool_decide (a = "="%char) then
        if (2 <=? quad_pos st) && (4 <=? quad_pos st + (pads st + 1))
        then inr (out st)
        else a2b s' (if 2 <=? quad_pos st
                     then DState (quad_pos st) (leftchar st) (pads st + 1) (out st)
                     else st)
      else
        match sextet a with
        | None => a2b s' st
        | Some c =>
            a2b s'
              (if quad_pos st =? 0 then DState 1 c 0 (out st)
               else if quad_pos st =? 1
               then DState 2 (c mod 16) 0 (out st ++ [leftchar st * 4 + c / 16])
               else if quad_pos st =? 2
               then DState 3 (c mod 4) 0 (out st ++ [leftchar st * 16 + c / 4])
               else DState 0 0 0 (out st ++ [leftchar st * 64 + c]))
        end
  end.

(** [binascii.Error], whose class name is [Error]. *)
Definition a2b_exn (e : a2b_error) : exn :=
  match e with
  | BadLength n =>
      Exn "Error" ("Invalid base64-encoded string: number of data characters (" +:+
                   pretty n +:+ ") cannot be 1 more than a multiple of 4")
  | IncorrectPadding => Exn "Error" "Incorrect padding"
  end.

Definition is_ascii_str (s : string) : bool :=
  forallb (fun a => N_of_ascii a <? 128) (list_ascii_of_string s).

Definition string_of_bytes (l : list N) : string :=
  string_of_list_ascii (map ascii_of_N l).

(** [base64.b64decode(s)] for a [str] argument. *)
Definition b64decode (s : string) : result string :=
  if is_ascii_str s then
    match a2b s (DState 0 0 0 []) with
    | inr bs => Ok (string_of_bytes bs)
    | inl e => Raise (a2b_exn e)
    end
  else Raise (Exn "ValueError" "string argument should contain only ASCII characters").

Fixpoint encode_bytes (l : list N) : string :=
  match l with
  | [] => EmptyString
  | [a] =>
      String (digit (a / 4)) (String (digit (a mod 4 * 16)) "==")
  | [a; b] =>
      String (digit (a / 4)) (String (digit (a mod 4 * 16 + b / 16))
        (String (digit (b mod 16 * 4)) "="))
  | a :: b :: c :: rest =>
      String (digit (a / 4)) (String (digit (a mod 4 * 16 + b / 16))
        (String (digit (b mod 16 * 4 + c / 64)) (String (digit (c mod 64))
           (encode_bytes rest))))
  end.

(** [base64.b64encode(data).decode("ascii")] *)
Definition b64encode (data : string) : string :=
  encode_bytes (map N_of_ascii (list_ascii_of_string data)).
End Base64.

Module Text.
Local Open Scope N_scope.

Definition between (lo hi x : N) : bool := (lo <=? x) && (x <=? hi).
Definition cont (x : N) : bool := between 128 191 x.

(** Well-formed UTF-8: the shortest encoding of every code point up to
    U+10FFFF other than the surrogates. *)
Fixpoint utf8_valid (fuel : nat) (bs : list N) : bool :=
  match fuel with
  | O => false
  | S f =>
      match bs with
      | [] => true
      | b0 :: r0 =>
          if b0 <? 128 then utf8_valid f r0
          else
            match r0 with
            | b1 :: r1 =>
                if between 194 223 b0 then cont b1 && utf8_valid f r1
                else
                  match r1 with
                  | b2 :: r2 =>
                      if between 224 239 b0 then
                        (if b0 =? 224 then between 160 191 b1
                         else if b0 =? 237 then between 128 159 b1
                         else cont b1)
                        && cont b2 && utf8_valid f r2
                      else
                        match r2 with
                        | b3 :: r3 =>
                            between 240 244 b0
                            && (if b0 =? 240 then between 144 191 b1
                                else if b0 =? 244 then between 128 143 b1
                                else cont b1)
                            && cont b2 && cont b3 && utf8_valid f r3
                        | [] => false
                        end
                  | [] => false
                  end
            | [] => false
            end
      end
  end.

(** Universal newlines of a file opened for reading in text mode: a
    carriage return, with the line feed that may follow it, becomes one
    line feed. *)
Fixpoint universal_newlines (s : string) : string :=
  match s with
  | EmptyString => EmptyString
  | String a s' =>
      if N_of_ascii a =? 13 then
        match s' with
        | String b s'' =>
            if N_of_ascii b =? 10 then String b (universal_newlines s'')
            else String (ascii_of_N 10) (universal_newlines s')
        | EmptyString => String (ascii_of_N 10) EmptyString
        end
      else String a (universal_newlines s')
  end.

(** The text of a file read with [read_text(encoding="utf-8")]. *)
Definition decode_text (data : string) : result string :=
  let bs := map N_of_ascii (list_ascii_of_string data) in
  if utf8_valid (S (length bs)) bs then Ok (universal_newlines data)
  else Raise (Exn "UnicodeDecodeError" "'utf-8' codec can't decode bytes").
End Text.

(** ** The example server, [examples/python-server.py] *)

#[global] Instance result_ret : MRet result := fun A a => Ok a.
#[global] Instance result_bind : MBind result := fun A B f r =>
  match r with
  | Ok a => f a
  | Raise e => Raise e
  end.

(** A list comprehension whose element expression may raise. *)
Fixpoint result_map {A B} (f : A -> result B) (l : list A) : result (list B) :=
  match l with
  | [] => Ok []
  | x :: l' => y ← f x; ys ← result_map f l'; Ok (y :: ys)
  end.

Module PyServer.

(** [CONFIG] *)
Record Config := MkConfig {
  allowed_directories : list string;
  max_file_size : Z;
  rate_limit : Z
}.

(** [ServerState]; times are in seconds. *)
Record ServerState := MkState {
  start_time : Z;
  request_count : Z;
  rate_limit_window : gmap string (list Z)
}.

Inductive outcome := success | error.

(** One line written by [audit_log]. *)
Record AuditEntry := MkEntry {
  timestamp : Z;
  tool : string;
  entry_outcome : outcome;
  duration_ms : Z;
  request_number : Z;
  details : option (gmap string string)
}.

(** The process: the server state, the lines written to standard error
    and the operating system. *)
Record Proc := MkProc {
  srv : ServerState;
  stderr : list AuditEntry;       (* oldest first *)
  os : OS
}.

Definition lift_os {A} (m : M OS A) : M Proc A := fun p =>
  let '(r, w) := m (os p) in (r, MkProc (srv p) (stderr p) w).

Definition lift_srv {A} (m : M ServerState A) : M Proc A := fun p =>
  let '(r, s) := m (srv p) in (r, MkProc s (stderr p) (os p)).

Definition lift_result {S A} (r : result A) : M S A := fun s => (r, s).

(** *** Security helpers *)

(** [expand_path(filepath)] *)
Definition expand_path (env : os_env) (fs : fsmap) (filepath : string) : result Path :=
  if startswith filepath "~/"
  then Ok (path_join (path_home env) (drop_chars 2 filepath))
  else path_resolve env fs (mkpath filepath).

(** The loop of [validate_path] over the allowed paths. *)
Fixpoint first_containing (resolved : Path) (allowed_paths : list Path) : option Path :=
  match allowed_paths with
  | [] => None
  | allowed_path :: rest =>
      if is_relative_to resolved allowed_path then Some resolved
      else first_containing resolved rest
  end.

(** [validate_path(requested_path)] *)
Definition validate_path (cfg : Config) (env : os_env) (fs : fsmap)
    (requested_path : string) : result Path :=
  resolved ← expand_path env fs requested_path;
  allowed_paths ← result_map (expand_path env fs) (allowed_directories cfg);
  match first_containing resolved allowed_paths with
  | Some p => Ok p
  | None => Raise (Exn "PermissionError" ("Path outside sandbox: " +:+ requested_path))
  end.

(** The timestamps of a client; reading a [defaultdict] creates the entry
    of a client that has none. *)
Definition window_of (st : ServerState) (client_id : string) : list Z :=
  default [] (rate_limit_window st !! client_id).

Definition touch_window (st : ServerState) (client_id : string) : ServerState :=
  match rate_limit_window st !! client_id with
  | Some _ => st
  | None =>
      MkState (start_time st) (request_count st)
              (<[client_id := []]> (rate_limit_window st))
  end.

(** [[t for t in requests if t > window_start]] *)
Definition prune (window_start : Z) (requests : list Z) : list Z :=
  List.filter (fun t => bool_decide (t > window_start)) requests.

(** [check_rate_limit(client_id)] at time [now]. *)
Definition check_rate_limit (cfg : Config) (now : Z) (client_id : string)
  : M ServerState unit :=
  let window_start := now - 60 in
  st ← get_state;
  let requests := window_of st client_id in
  _ ← put_state (touch_window st client_id);
  let requests := prune window_start requests in
  if bool_decide (Z.of_nat (length requests) >= rate_limit cfg)
  then raise (Exn "Exception" "Rate limit exceeded. Try again later.")
  else
    let requests := requests ++ [now] in
    modify (fun st => MkState (start_time st) (request_count st)
                              (<[client_id := requests]> (rate_limit_window st))).

(** The redaction step of [audit_log]. *)
Definition safe_details_of (d : gmap string string) : gmap string string :=
  let safe_details : gmap string string := ∅ in
  let safe_details :=
    match d !! "error_code" with
    | Some c => <["error_code" := c]> safe_details
    | None => safe_details
    end in
  match d !! "path" with
  | Some p => <["path_hash" := take_chars 8 (SHA256.hexdigest p)]> safe_details
  | None => safe_details
  end.

(** The [details] of a log entry: nothing for an absent or empty argument
    ([if details:]), the redacted fields otherwise. *)
Definition logged_details (details : option (gmap string string))
  : option (gmap string string) :=
  match details with
  | Some d => if bool_decide (d = ∅) then None else Some (safe_details_of d)
  | None => None
  end.

(** [audit_log(tool, outcome, details)] at time [now]. *)
Definition audit_log (now : Z) (tool : string) (oc : outcome)
    (details : option (gmap string string)) : M Proc unit :=
  _ ← lift_srv (modify (fun st =>
         MkState (start_time st) (request_count st + 1) (rate_limit_window st)));
  p ← get_state;
  let log_entry :=
    MkEntry now tool oc ((now - start_time (srv p)) * 1000) (request_count (srv p))
      (logged_details details) in
  put_state (MkProc (srv p) (stderr p ++ [log_entry]) (os p)).

(** *** Tool arguments *)

Inductive encoding := utf8 | base64.

Record ReadFileParams := MkRead { r_path : string; r_encoding : encoding }.
Record WriteFileParams := MkWrite { w_path : string; w_content : string; w_encoding : encoding }.
Record ListDirectoryParams := MkList { l_path : string }.

Definition ValidationError (model : string) : exn :=
  Exn "ValidationError" ("validation error for " +:+ model).

(** [**arguments]: the keyword arguments of a decoded JSON object; a
    repeated key keeps its last value. *)
Definition kwargs (arguments : jvalue) : result (gmap string jvalue) :=
  match arguments with
  | JObj l => Ok (list_to_map (reverse l))
  | _ => Raise (Exn "TypeError" "argument after ** must be a mapping")
  end.

(** [len(s)] of a [str]: the number of its characters, which are the bytes
    of its UTF-8 form that are not continuation bytes. *)
Fixpoint char_count (s : string) : nat :=
  match s with
  | EmptyString => O
  | String a s' =>
      if ((128 <=? N_of_ascii a) && (N_of_ascii a <=? 191))%N then char_count s'
      else S (char_count s')
  end.

Definition py_len (s : string) : Z := Z.of_nat (char_count s).

(** A required [str] field with [max_length], which bounds the number of
    characters. *)
Definition str_field (model name : string) (max_length : Z)
    (kw : gmap string jvalue) : result string :=
  match kw !! name with
  | Some (JStr s) =>
      if bool_decide (py_len s > max_length) then Raise (ValidationError model) else Ok s
  | _ => Raise (ValidationError model)
  end.

(** [encoding: Literal["utf8", "base64"] = "utf8"] *)
Definition encoding_field (model : string) (kw : gmap string jvalue) : result encoding :=
  match kw !! "encoding" with
  | None => Ok utf8
  | Some (JStr s) =>
      if bool_decide (s = "utf8") then Ok utf8
      else if bool_decide (s = "base64") then Ok base64
      else Raise (ValidationError model)
  | Some _ => Raise (ValidationError model)
  end.

Definition read_file_params (arguments : jvalue) : result ReadFileParams :=
  kw ← kwargs arguments;
  match str_field "ReadFileParams" "path" 4096 kw, encoding_field "ReadFileParams" kw with
  | Ok p, Ok e => Ok (MkRead p e)
  | _, _ => Raise (ValidationError "ReadFileParams")
  end.

Definition write_file_params (arguments : jvalue) : result WriteFileParams :=
  kw ← kwargs arguments;
  match str_field "WriteFileParams" "path" 4096 kw,
        str_field "WriteFileParams" "content" (10 * 1024 * 1024) kw,
        encoding_field "WriteFileParams" kw with
  | Ok p, Ok c, Ok e => Ok (MkWrite p c e)
  | _, _, _ => Raise (ValidationError "WriteFileParams")
  end.

Definition list_directory_params (arguments : jvalue) : result ListDirectoryParams :=
  kw ← kwargs arguments;
  p ← str_field "ListDirectoryParams" "path" 4096 kw;
  Ok (MkList p).

(** *** The dispatcher *)

(** What a tool call answers: the value that is serialised into the text
    of the reply. *)
Inductive tool_result :=
| HealthResult (status version : string)
    (uptime_seconds memory_mb active_operations request_count : Z)
| CapabilitiesResult (max_file_size rate_limit_per_minute : Z)
    (allowed_directories : list string)
| ItemsResult (items : list (string * string))
| TextResult (text : string).

Definition ValueError (msg : string) : exn := Exn "ValueError" msg.

(** A loop whose body may raise and change the state. *)
Fixpoint m_map {S A B} (f : A -> M S B) (l : list A) : M S (list B) :=
  match l with
  | [] => mret []
  | x :: l' => y ← f x; ys ← m_map f l'; mret (y :: ys)
  end.

Definition validate_path_now (cfg : Config) (env : os_env) (requested_path : string)
  : M Proc Path :=
  p ← get_state;
  lift_result (validate_path cfg env (os_fs (os p)) requested_path).

(** The branch [read_file_sandboxed]. *)
Definition read_file_sandboxed (cfg : Config) (env : os_env) (now : Z)
    (arguments : jvalue) : M Proc tool_result :=
  params ← lift_result (read_file_params arguments);
  safe_path ← validate_path_now cfg env (r_path params);
  st ← lift_os (os_stat env (path_str safe_path));
  let file_size := st_size st in
  if bool_decide (file_size > max_file_size cfg)
  then raise (ValueError ("File too large: " +:+ pretty file_size +:+
                          " bytes (max: " +:+ pretty (max_file_size cfg) +:+ ")"))
  else
    content ←
      match r_encoding params with
      | utf8 =>
          data ← lift_os (os_read env (path_str safe_path));
          lift_result (Text.decode_text data)
      | base64 =>
          data ← lift_os (os_read env (path_str safe_path));
          mret (Base64.b64encode data)
      end;
    _ ← audit_log now "read_file_sandboxed" success (Some {[ "path" := r_path params ]});
    mret (TextResult content).

(** The branch [write_file_sandboxed]. *)
Definition write_file_sandboxed (cfg : Config) (env : os_env) (now : Z)
    (arguments : jvalue) : M Proc tool_result :=
  params ← lift_result (write_file_params arguments);
  safe_path ← validate_path_now cfg env (w_path params);
  _ ← lift_os (path_mkdir_parents env (path_parent safe_path));
  _ ←
    match w_encoding params with
    | utf8 => lift_os (os_write env (path_str safe_path) (w_content params))
    | base64 =>
        data ← lift_result (Base64.b64decode (w_content params));
        lift_os (os_write env (path_str safe_path) data)
    end;
  _ ← audit_log now "write_file_sandboxed" success (Some {[ "path" := w_path params ]});
  mret (TextResult ("File written successfully: " +:+ w_path params)).

(** The branch [list_directory]. *)
Definition list_directory (cfg : Config) (env : os_env) (now : Z)
    (arguments : jvalue) : M Proc tool_result :=
  params ← lift_result (list_directory_params arguments);
  safe_path ← validate_path_now cfg env (l_path params);
  d ← lift_os (path_is_dir env safe_path);
  if negb d then raise (ValueError ("Not a directory: " +:+ l_path params))
  else
    names ← lift_os (os_listdir env (path_str safe_path));
    items ← m_map (fun name =>
               isd ← lift_os (path_is_dir env (MkPath (root safe_path) (parts safe_path ++ [name])));
               mret (name, if isd : bool then "directory" else "file")) names;
    _ ← audit_log now "list_directory" success (Some {[ "path" := l_path params ]});
    mret (ItemsResult items).

(** The [try] block of [handle_call_tool]. *)
Definition tool_body (cfg : Config) (env : os_env) (now : Z)
    (name : string) (arguments : jvalue) : M Proc tool_result :=
  _ ← lift_srv (check_rate_limit cfg now "default");
  if bool_decide (name = "health_check") then
    p ← get_state;
    let result :=
      HealthResult "ok" "1.0.0" (now - start_time (srv p)) 0 0 (request_count (srv p)) in
    _ ← audit_log now "health_check" success None;
    mret result
  else if bool_decide (name = "capabilities") then
    let result :=
      CapabilitiesResult (max_file_size cfg) (rate_limit cfg) (allowed_directories cfg) in
    _ ← audit_log now "capabilities" success None;
    mret result
  else if bool_decide (name = "read_file_sandboxed") then
    read_file_sandboxed cfg env now arguments
  else if bool_decide (name = "write_file_sandboxed") then
    write_file_sandboxed cfg env now arguments
  else if bool_decide (name = "list_directory") then
    list_directory cfg env now arguments
  else raise (ValueError ("Unknown tool: " +:+ name)).

(** The [except Exception] arm of [handle_call_tool]. *)
Definition on_error (now : Z) (name : string) (e : exn) : M Proc tool_result :=
  _ ← audit_log now name error (Some {[ "error_code" := exn_class e ]});
  let error_message :=
    if bool_decide (exn_msg e = "") then "An unexpected error occurred" else exn_msg e in
  mret (TextResult ("Error: " +:+ error_message)).

(** [handle_call_tool(name, arguments)] at time [now]. *)
Definition handle_call_tool (cfg : Config) (env : os_env) (now : Z)
    (name : string) (arguments : jvalue) : M Proc tool_result :=
  try_except (tool_body cfg env now name arguments) (on_error now name).

End PyServer.

(** ** The tool of the fs-sandbox extension, [server/main.py] *)

(** What [read_file] returns: [{"path", "size", "content"}] or [{"error"}]. *)
Inductive read_reply :=
| FileReply (path : string) (size : Z) (content : string)
| ErrorReply (error : string).

Module FsSandboxMain.
Section ReadFile.
(** [canon x] stands for [str(Path(x).expanduser().resolve())] and
    [decode_replace data] for [data.decode("utf-8", errors="replace")]. *)
Variable canon : string -> resolve_error + string.
Variable decode_replace : string -> string.

(** The [try] block of [read_file]. *)
Definition read_file_body (env : os_env) (allowed : list string) (max_mb : Z)
    (path : string) : M OS read_reply :=
  abs_path ← (fun w => (FsSandbox.resolve canon allowed path, w));
  data ← FsSandboxIO.read_capped env abs_path max_mb;
  mret (FileReply abs_path (strlen data) (decode_replace data)).

(** [read_file(path)] with the globals [ALLOWED] and [MAX_MB]: only
    [SandboxError] is caught, every other exception leaves the tool. *)
Definition read_file (env : os_env) (allowed : list string) (max_mb : Z)
    (path : string) : M OS read_reply :=
  try_except (read_file_body env allowed max_mb path) (fun e =>
    if bool_decide (exn_class e = "SandboxError") then mret (ErrorReply (exn_msg e))
    else raise e).
End ReadFile.
End FsSandboxMain.

(** ** Vocabulary of the statements *)

(** The test of one base, as a proposition. *)
Definition contained_in (base_abs abs_path : string) : Prop :=
  abs_path = base_abs \/ exists rest, abs_path = base_abs +:+ os_sep +:+ rest.

(** A file system with an allowed directory and a sibling whose name
    extends it. *)
Definition sample_env : os_env := OsEnv [] "/home/user".

Definition sample_fs : fsmap :=
  list_to_map
    [ (["allowed"], Dir); (["allowed"; "x"], File "inside");
      (["allowed-evil"], Dir); (["allowed-evil"; "x"], File "outside") ].

Ltac run_m :=
  unfold mbind, M_bind, mret, M_ret, raise, get_state, put_state, modify, emit,
    try_except; simpl.

(** The process after one call of [audit_log]. *)
Definition after_audit (now : Z) (tool : string) (oc : PyServer.outcome)
    (details : option (gmap string string)) (p : PyServer.Proc) : PyServer.Proc :=
  let st := PyServer.srv p in
  PyServer.MkProc
    (PyServer.MkState (PyServer.start_time st) (PyServer.request_count st + 1)
       (PyServer.rate_limit_window st))
    (PyServer.stderr p ++
       [PyServer.MkEntry now tool oc ((now - PyServer.start_time st) * 1000)
          (PyServer.request_count st + 1) (PyServer.logged_details details)])
    (PyServer.os p).

(** The process after the system calls [evs]. *)
Definition with_events (evs : list io_event) (p : PyServer.Proc) : PyServer.Proc :=
  PyServer.MkProc (PyServer.srv p) (PyServer.stderr p)
    (MkOS (os_fs (PyServer.os p)) (os_trace (PyServer.os p) ++ evs)).

(** What [os.stat] and reading a file answer in a given file system. *)
Definition stat_outcome (env : os_env) (fs : fsmap) (p : string) : result stat_result :=
  match lookup_path MustExist env fs p with
  | inl err => Raise (os_error err p)
  | inr q =>
      match node_at fs q with
      | Some (File c) => Ok (StatResult false (strlen c))
      | Some Dir => Ok (StatResult true dir_st_size)
      | _ => Raise (os_error ENOENT p)
      end
  end.

Definition read_outcome (env : os_env) (fs : fsmap) (p : string) : result string :=
  match lookup_path MustExist env fs p with
  | inl err => Raise (os_error err p)
  | inr q =>
      match node_at fs q with
      | Some (File c) => Ok c
      | Some Dir => Raise (Exn "IsADirectoryError" ("[Errno 21] Is a directory: '" +:+ p +:+ "'"))
      | _ => Raise (os_error ENOENT p)
      end
  end.

(** A regular file of content [c] is what the path [p] leads to. *)
Definition file_at (env : os_env) (fs : fsmap) (p : string) (c : string) : Prop :=
  exists q, lookup_path MustExist env fs p = inr q /\ node_at fs q = Some (File c).

(** A text of [2^n] times the length of [s]. *)
Fixpoint doubled (n : nat) (s : string) : string :=
  match n with
  | O => s
  | S n' => doubled n' (s +:+ s)
  end.

(** One MiB of text, and a file system holding it next to a file that is
    one byte longer. *)
Definition one_mib_text : string := doubled 20 "a".

Definition large_fs : fsmap :=
  list_to_map [ (["exact"], File one_mib_text); (["over"], File (String "a" one_mib_text)) ].

(** A server that allows [/allowed] and reads at most [limit] bytes, before
    its first request. *)
Definition sample_cfg (limit : Z) : PyServer.Config := PyServer.MkConfig ["/allowed"] limit 60.

Definition sample_proc : PyServer.Proc :=
  PyServer.MkProc (PyServer.MkState 0 0 ∅) [] (MkOS sample_fs []).

(** The arguments [{"path": path}] of a tool call. *)
Definition path_args (path : string) : jvalue := JObj [("path", JStr path)].

(** The admission checks of one client at the successive times [times]:
    which of them were admitted, and the state they leave. *)
Fixpoint run_calls (cfg : PyServer.Config) (client_id : string) (times : list Z)
    (st : PyServer.ServerState) : list bool * PyServer.ServerState :=
  match times with
  | [] => ([], st)
  | now :: rest =>
      let '(r, st1) := PyServer.check_rate_limit cfg now client_id st in
      let '(rs, st2) := run_calls cfg client_id rest st1 in
      (is_ok r :: rs, st2)
  end.

(** Which of a burst of checks are admitted when [n] timestamps are already
    in the window of the client and none of them expires. *)
Fixpoint burst_flags (limit : Z) (n : nat) (times : list Z) : list bool :=
  match times with
  | [] => []
  | _ :: rest =>
      if bool_decide (Z.of_nat n < limit) then true :: burst_flags limit (S n) rest
      else false :: burst_flags limit n rest
  end.

(** [fs'] is [fs] with some missing names turned into directories. *)
Definition dirs_added (fs fs' : fsmap) : Prop :=
  forall q, fs' !! q = fs !! q \/ (fs !! q = None /\ fs' !! q = Some Dir).

(** The limits of the kernel on what it looks up: a name has at most 255
    bytes and a path at most 4095. *)
Definition name_max : nat := 255.
Definition path_max : nat := 4095.

Definition fits (s : string) : bool :=
  Nat.leb (String.length s) path_max &&
  forallb (fun n => Nat.leb (String.length n) name_max) (components s).

(** The path [sp] and the target of every symbolic link of [fs] are within
    these limits: no lookup of [sp] in [fs] fails for the length of a name
    or of a path, which the lookups of the model never do. *)
Definition within_limits (fs : fsmap) (sp : string) : bool :=
  fits sp &&
  forallb (fun kv : list string * node =>
             match snd kv with Symlink target => fits target | _ => true end)
          (map_to_list fs).

(** Some name that was missing in [fs] is a directory in [fs']. *)
Definition dir_created (fs fs' : fsmap) : Prop :=
  exists q, fs !! q = None /\ fs' !! q = Some Dir.

Definition is_content_event (ev : io_event) : bool :=
  match ev with
  | EvRead _ | EvWrite _ => true
  | _ => false
  end.

(** From [w] to [w'] directories may have been created, and no file content
    was read or written. *)
Definition only_mkdir (w w' : OS) : Prop :=
  dirs_added (os_fs w) (os_fs w') /\
  exists evs, os_trace w' = os_trace w ++ evs /\
              forallb (fun ev => negb (is_content_event ev)) evs = true.

(** The process with another operating-system state. *)
Definition with_os (w : OS) (p : PyServer.Proc) : PyServer.Proc :=
  PyServer.MkProc (PyServer.srv p) (PyServer.stderr p) w.

(** The arguments of a write. *)
Definition write_args (path content enc : string) : jvalue :=
  JObj [("path", JStr path); ("content", JStr content); ("encoding", JStr enc)].

(** A computation that neither writes to the audit log nor moves the
    request counter. *)
Definition quiet {A} (m : M PyServer.Proc A) : Prop :=
  forall p,
    PyServer.stderr (snd (m p)) = PyServer.stderr p /\
    PyServer.request_count (PyServer.srv (snd (m p)))
    = PyServer.request_count (PyServer.srv p).

(** A computation that audits exactly once, with the next sequence number
    and the outcome [success], when it returns, and not at all when it
    raises. *)
Definition audits_on_return {A} (m : M PyServer.Proc A) : Prop :=
  forall p,
    match m p with
    | (Ok _, p') =>
        exists entry,
          PyServer.stderr p' = PyServer.stderr p ++ [entry] /\
          PyServer.entry_outcome entry = PyServer.success /\
          PyServer.request_number entry = PyServer.request_count (PyServer.srv p) + 1 /\
          PyServer.request_count (PyServer.srv p')
          = PyServer.request_count (PyServer.srv p) + 1
    | (Raise _, p') =>
        PyServer.stderr p' = PyServer.stderr p /\
        PyServer.request_count (PyServer.srv p')
        = PyServer.request_count (PyServer.srv p)
    end.

(** The text of an error reply. *)
Definition error_text (e : exn) : string :=
  "Error: " +:+ (if bool_decide (exn_msg e = "") then "An unexpected error occurred"
                 else exn_msg e).

(** A request: the time it arrives, the tool and its arguments. *)
Record request := Request { req_time : Z; req_name : string; req_arguments : jvalue }.

(** The process after a sequence of tool calls. *)
Fixpoint serve (cfg : PyServer.Config) (env : os_env) (reqs : list request)
    (p : PyServer.Proc) : PyServer.Proc :=
  match reqs with
  | [] => p
  | r :: rest =>
      serve cfg env rest
        (snd (PyServer.handle_call_tool cfg env (req_time r) (req_name r)
                (req_arguments r) p))
  end.

(** A home directory with an allowed [Desktop], a symbolic link inside it
    that leads out of it, and a file outside it. *)
Definition home_fs : fsmap :=
  list_to_map
    [ (["home"], Dir); (["home"; "user"], Dir); (["home"; "user"; "Desktop"], Dir);
      (["home"; "user"; "Desktop"; "link"], Symlink "/etc");
      (["etc"], Dir); (["etc"; "passwd"], File "root:x:0:0") ].

Definition home_cfg : PyServer.Config := PyServer.MkConfig ["~/Desktop"] 104857600 60.

Definition home_proc : PyServer.Proc :=
  PyServer.MkProc (PyServer.MkState 0 0 ∅) [] (MkOS home_fs []).

(** A decoded JSON value that is a list. *)
Definition is_array (v : jvalue) : bool :=
  match v with
  | JArr _ => true
  | _ => false
  end.

(** Some text field of the log entry contains [sub]: the name of the tool,
    or a key or a value of its details. The other fields are numbers. *)
Definition entry_mentions (sub : string) (e : PyServer.AuditEntry) : bool :=
  contains_str sub (PyServer.tool e) ||
  match PyServer.details e with
  | Some sd =>
      existsb (fun kv : string * string => contains_str sub (fst kv) || contains_str sub (snd kv))
              (map_to_list sd)
  | None => false
  end.

(** The classes of the exceptions that the read branch can raise. *)
Definition read_error_classes : list string :=
  [ "Exception"; "TypeError"; "ValidationError"; "PermissionError"; "RuntimeError";
    "FileNotFoundError"; "NotADirectoryError"; "OSError"; "IsADirectoryError";
    "ValueError"; "UnicodeDecodeError" ].

Definition read_error (e : exn) : Prop := exn_class e ∈ read_error_classes.

(** Every exception that the computation raises satisfies [P]. *)
Definition raises_only {S A} (P : exn -> Prop) (m : M S A) : Prop :=
  forall s e s', m s = (Raise e, s') -> P e.

(** The path hash of the audit log. *)
Definition path_hash_of (path : string) : string := take_chars 8 (SHA256.hexdigest path).

(** A name as it occurs in a canonical path: not empty and free of the
    separator. *)
Fixpoint no_slash (c : string) : bool :=
  match c with
  | EmptyString => true
  | String a c' => negb (bool_decide (a = "/"%char)) && no_slash c'
  end.

Definition plain_name (c : string) : Prop := c <> "" /\ no_slash c = true.

(** The text that follows the first name in the string of a path. *)
Definition tail_str (l : list string) : string :=
  match l with
  | [] => ""
  | _ => "/" +:+ join "/" l
  end.

Ltac each_member H :=
  repeat (apply elem_of_cons in H as [->|H]); [..|by apply elem_of_nil in H].

Ltac known_class := unfold read_error, read_error_classes; simpl; set_solver.

(** An entry as the comma split leaves it: not empty, without surrounding
    white space, without a comma. *)
Definition clean_entry (x : string) : Prop :=
  x <> "" /\ strip x = x /\ has_char "," x = false.

(** A computation that leaves one part of the process as it was, whether
    it returns or raises. *)
Definition preserves {X A} (part : PyServer.Proc -> X) (m : M PyServer.Proc A) : Prop :=
  forall p, part (snd (m p)) = part p.

(** The files, directories and links of the process. *)
Definition proc_fs (p : PyServer.Proc) : fsmap := os_fs (PyServer.os p).

(** The rate-limit windows of the process. *)
Definition proc_windows (p : PyServer.Proc) : gmap string (list Z) :=
  PyServer.rate_limit_window (PyServer.srv p).

(** The timestamps of the one client whose calls the dispatcher counts
    that are still inside the window at time [now]. *)
Definition recent_calls (now : Z) (p : PyServer.Proc) : list Z :=
  PyServer.prune (now - 60) (PyServer.window_of (PyServer.srv p) "default").

Definition rate_limit_reply : PyServer.tool_result :=
  PyServer.TextResult "Error: Rate limit exceeded. Try again later.".

(** The tools that take a path. *)
Definition path_tools : list string :=
  ["read_file_sandboxed"; "write_file_sandboxed"; "list_directory"].

(** The path that a tool call asks for, once its arguments were accepted. *)
Definition requested_path (name : string) (arguments : jvalue) : result string :=
  if bool_decide (name = "read_file_sandboxed")
  then params ← PyServer.read_file_params arguments; Ok (PyServer.r_path params)
  else if bool_decide (name = "write_file_sandboxed")
  then params ← PyServer.write_file_params arguments; Ok (PyServer.w_path params)
  else if bool_decide (name = "list_directory")
  then params ← PyServer.list_directory_params arguments; Ok (PyServer.l_path params)
  else Raise (PyServer.ValueError ("Unknown tool: " +:+ name)).

(** The path that a tool call is allowed to use: its arguments were
    accepted and the path they name was validated. *)
Definition accepted_path (cfg : PyServer.Config) (env : os_env) (fs : fsmap)
    (name : string) (arguments : jvalue) : result Path :=
  path ← requested_path name arguments;
  PyServer.validate_path cfg env fs path.

(** The process once the rate limiter has let the call at [now] through. *)
Definition after_admission (now : Z) (p : PyServer.Proc) : PyServer.Proc :=
  PyServer.MkProc
    (PyServer.MkState (PyServer.start_time (PyServer.srv p))
       (PyServer.request_count (PyServer.srv p))
       (<["default" := recent_calls now p ++ [now]]>
          (PyServer.rate_limit_window (PyServer.touch_window (PyServer.srv p) "default"))))
    (PyServer.stderr p) (PyServer.os p).

(** The branch that the dispatcher takes for a known name. *)
Ltac pick_tool :=
  repeat match goal with
         | |- context [bool_decide (?a = ?b)] =>
             first [ rewrite (bool_decide_eq_true_2 (a = b)) by reflexivity
                   | rewrite (bool_decide_eq_false_2 (a = b)) by discriminate ]
         end.

(** The replies to a sequence of tool calls, in order. *)
Fixpoint serve_replies (cfg : PyServer.Config) (env : os_env) (reqs : list request)
    (p : PyServer.Proc) : list (result PyServer.tool_result) :=
  match reqs with
  | [] => []
  | r :: rest =>
      let '(reply, p') :=
        PyServer.handle_call_tool cfg env (req_time r) (req_name r) (req_arguments r) p in
      reply :: serve_replies cfg env rest p'
  end.

(** The path [dir / name] of an entry of a directory. *)
Definition child_path (dir : Path) (name : string) : Path :=
  MkPath (root dir) (parts dir ++ [name]).

(** The kind that [list_directory] reports for an entry: [is_dir()] follows
    symbolic links and is false on every error. *)
Definition entry_kind (env : os_env) (fs : fsmap) (dir : Path) (name : string) : string :=
  if is_dir_at env fs (path_str (child_path dir name)) then "directory" else "file".

(** Two file systems with the same symbolic links. *)
Definition same_links (fs fs' : fsmap) : Prop :=
  forall k t, fs !! k = Some (Symlink t) <-> fs' !! k = Some (Symlink t).

(** No symbolic link sits at [path] or above it. *)
Definition no_link_above (fs : fsmap) (path : list string) : Prop :=
  forall pre t, pre `prefix_of` path -> node_at fs pre <> Some (Symlink t).

(** The bytes that the write branch stores for the content it was given. *)
Definition written_bytes (enc : PyServer.encoding) (content : string) : result string :=
  match enc with
  | PyServer.utf8 => Ok content
  | PyServer.base64 => Base64.b64decode content
  end.

(** The text that the read branch returns for the bytes of a file. *)
Definition returned_text (enc : PyServer.encoding) (data : string) : result string :=
  match enc with
  | PyServer.utf8 => Text.decode_text data
  | PyServer.base64 => Ok (Base64.b64encode data)
  end.

(** [CONFIG["allowed_directories"]] of the example server, from the value
    of the environment variable [ALLOWED_DIRS]:
    [os.getenv("ALLOWED_DIRS", "~/Desktop").split(",")]. *)
Definition config_allowed_directories (allowed_dirs : option string) : list string :=
  split_on "," (default "~/Desktop" allowed_dirs).

(** A component as a resolved path holds it: not empty, not [.] and not
    [..]. *)
Definition plain_part (c : string) : Prop := is_skipped c = false /\ c <> "..".

(** The canonicalisation of [x] returns a path. *)
Definition canonicalises (canon : string -> resolve_error + string) (x : string) : Prop :=
  exists y, canon x = inr y.

(** An allowed directory that holds a symbolic link to itself. *)
Definition loop_fs : fsmap :=
  list_to_map
    [ (["allowed"], Dir); (["allowed"; "x"], File "inside");
      (["allowed"; "loop"], Symlink "loop") ].

(** * Properties *)

(** ** Strings *)

Lemma prefix_spec (a b : string) :
  String.prefix a b = true <-> exists r, b = a +:+ r.
Proof.
  revert b. induction a as [|x a IH]; intros b; simpl.
  - split; [intros _; exists b; reflexivity | by destruct b].
  - destruct b as [|y b]; simpl.
    + split; [discriminate | intros [r Hr]; discriminate].
    + destruct (ascii_dec x y) as [->|Hne].
      * rewrite IH. split; intros [r Hr]; exists r.
        -- by rewrite Hr.
        -- by injection Hr.
      * split; [discriminate | intros [r Hr]; injection Hr; congruence].
Qed.

Lemma startswith_spec (s pre : string) :
  startswith s pre = true <-> exists r, s = pre +:+ r.
Proof. apply prefix_spec. Qed.

Lemma app_cons_str (x : ascii) (a b : string) : String x a +:+ b = String x (a +:+ b).
Proof. reflexivity. Qed.

Lemma app_nil_str (b : string) : "" +:+ b = b.
Proof. reflexivity. Qed.

Lemma app_empty_r_str (a : string) : a +:+ "" = a.
Proof.
  induction a as [|x a IH]; [reflexivity|]. by rewrite app_cons_str, IH.
Qed.

Lemma app_assoc_str (a b c : string) : (a +:+ b) +:+ c = a +:+ (b +:+ c).
Proof.
  induction a as [|x a IH]; [reflexivity|].
  by rewrite !app_cons_str, IH.
Qed.

Lemma length_app_str (a b : string) :
  String.length (a +:+ b) = (String.length a + String.length b)%nat.
Proof.
  induction a as [|x a IH]; [reflexivity|].
  rewrite app_cons_str. simpl. by rewrite IH.
Qed.

(** ** Containment in the extension helpers *)

Lemma contained_in_test (base_abs abs_path : string) :
  bool_decide (abs_path = base_abs) || startswith abs_path (base_abs +:+ os_sep) = true
  <-> contained_in base_abs abs_path.
Proof.
  unfold contained_in. rewrite orb_true_iff, bool_decide_eq_true, startswith_spec.
  split; (intros [H|[r Hr]]; [by left | right; exists r]).
  - by rewrite Hr, app_assoc_str.
  - by rewrite Hr, app_assoc_str.
Qed.

(** The loop accepts exactly when it reaches a base that contains the
    path, every base before it having been canonicalised without error. *)
Lemma fs_resolve_loop_ok canon abs_path allowed p :
  FsSandbox.resolve_loop canon abs_path allowed = Ok p <->
  p = abs_path /\
  exists pre base post b,
    allowed = pre ++ base :: post /\ Forall (canonicalises canon) pre /\
    canon base = inr b /\ contained_in b abs_path.
Proof.
  induction allowed as [|x rest IH]; simpl.
  - split; [discriminate|]. intros [_ (pre & base & post & b & Hall & _)].
    by destruct pre.
  - destruct (canon x) as [e|y] eqn:Hx.
    + split; [discriminate|]. intros [_ (pre & base & post & b & Hall & Hpre & Hb & _)].
      destruct pre as [|x' pre]; injection Hall as -> ->; [congruence|].
      apply Forall_cons in Hpre as [[y Hy] _]. congruence.
    + destruct (bool_decide (abs_path = y) || startswith abs_path (y +:+ os_sep)) eqn:Htest.
      * apply contained_in_test in Htest. split; [|by intros [-> _]].
        intros [= <-]. split; [done|]. by exists [], x, rest, y.
      * rewrite IH. split.
        -- intros [-> (pre & base & post & b & -> & Hpre & Hb & Hc)]. split; [done|].
           exists (x :: pre), base, post, b.
           split; [done|]. split; [|done]. constructor; [by exists y | done].
        -- intros [-> (pre & base & post & b & Hall & Hpre & Hb & Hc)]. split; [done|].
           destruct pre as [|x' pre]; injection Hall as -> ->.
           ++ assert (b = y) as -> by congruence.
              apply contained_in_test in Hc. congruence.
           ++ apply Forall_cons in Hpre as [_ Hpre]. by exists pre, base, post, b.
Qed.

Lemma fs_resolve_ok canon allowed requested p :
  FsSandbox.resolve canon allowed requested = Ok p <->
  canon requested = inr p /\
  exists pre base post b,
    allowed = pre ++ base :: post /\ Forall (canonicalises canon) pre /\
    canon base = inr b /\ contained_in b p.
Proof.
  unfold FsSandbox.resolve. destruct (canon requested) as [e|abs_path].
  - split; [discriminate | by intros [[=] _]].
  - rewrite fs_resolve_loop_ok. split.
    + by intros [-> H].
    + intros [[= ->] H]. by split.
Qed.

Lemma ff_resolve_loop_eq canon p allowed :
  FfprobeLite.resolve_loop canon p allowed = FsSandbox.resolve_loop canon p allowed.
Proof.
  induction allowed as [|b rest IH]; simpl; [done|].
  destruct (canon b); [done | by rewrite IH].
Qed.

Lemma ff_resolve_eq canon allowed requested :
  FfprobeLite.resolve canon allowed requested = FsSandbox.resolve canon allowed requested.
Proof.
  unfold FfprobeLite.resolve, FsSandbox.resolve.
  destruct (canon requested); [done | apply ff_resolve_loop_eq].
Qed.

(** What [resolve] answers: the canonical path, the sandbox error, or the
    error of a canonicalisation. *)
Lemma fs_resolve_cases canon allowed requested :
  (exists p, canon requested = inr p /\ FsSandbox.resolve canon allowed requested = Ok p) \/
  FsSandbox.resolve canon allowed requested
  = Raise (SandboxError "Path not within allowed directories") \/
  exists e, FsSandbox.resolve canon allowed requested = Raise (resolve_exn e).
Proof.
  unfold FsSandbox.resolve. destruct (canon requested) as [e|p]; [right; right; by exists e|].
  induction allowed as [|b rest IH]; simpl; [by right; left|].
  destruct (canon b) as [e|y]; [right; right; by exists e|].
  destruct (_ || _); [left; by exists p | exact IH].
Qed.

(** *** Component-wise containment, as [validate_path] tests it *)

Lemma join_cons x l : join "/" (x :: l) = x +:+ tail_str l.
Proof. destruct l; [by rewrite app_empty_r_str | reflexivity]. Qed.

Lemma tail_str_shape l : tail_str l = "" \/ exists r, tail_str l = String "/" r.
Proof. destruct l; [by left | right; by eexists]. Qed.

(** Two names followed by nothing or by a separator are equal when the
    texts are. *)
Lemma plain_name_cancel x y s t :
  no_slash x = true -> no_slash y = true ->
  (s = "" \/ exists r, s = String "/" r) ->
  (t = "" \/ exists r, t = String "/" r) ->
  x +:+ s = y +:+ t -> x = y /\ s = t.
Proof.
  revert y. induction x as [|a x IH]; intros y Hx Hy Hs Ht Heq.
  - destruct y as [|b y]; [by split|].
    simpl in Hy. apply andb_true_iff in Hy as [Hb _].
    apply negb_true_iff, bool_decide_eq_false in Hb.
    rewrite app_nil_str, app_cons_str in Heq.
    destruct Hs as [->|[r ->]]; [discriminate|]. injection Heq as <- _. done.
  - simpl in Hx. apply andb_true_iff in Hx as [Ha Hx].
    apply negb_true_iff, bool_decide_eq_false in Ha.
    destruct y as [|b y].
    + rewrite app_nil_str, app_cons_str in Heq.
      destruct Ht as [->|[r ->]]; [discriminate|]. injection Heq as -> _. done.
    + simpl in Hy. apply andb_true_iff in Hy as [_ Hy].
      rewrite !app_cons_str in Heq. injection Heq as -> Heq.
      destruct (IH y Hx Hy Hs Ht Heq) as [-> ->]. done.
Qed.

Lemma is_prefix_of_spec l1 l2 :
  is_prefix_of l1 l2 = true <-> exists tl, l2 = l1 ++ tl.
Proof.
  revert l2. induction l1 as [|x l1 IH]; intros l2; simpl.
  - split; [intros _; by exists l2 | done].
  - destruct l2 as [|y l2]; [split; [done | intros [tl Htl]; discriminate]|].
    rewrite andb_true_iff, bool_decide_eq_true, IH. split.
    + intros [-> [tl ->]]. by exists tl.
    + intros [tl [= -> ->]]. split; [done | by exists tl].
Qed.

Lemma tail_str_cons y l : tail_str (y :: l) = "/" +:+ join "/" (y :: l).
Proof. reflexivity. Qed.

Lemma join_app l1 l2 :
  l1 <> [] -> join "/" (l1 ++ l2) = join "/" l1 +:+ tail_str l2.
Proof.
  induction l1 as [|x l1 IH]; [done|]. intros _.
  rewrite <- app_comm_cons, !join_cons. destruct l1 as [|y l1].
  - simpl app. unfold tail_str at 2. by rewrite app_empty_r_str.
  - rewrite <- app_comm_cons, !tail_str_cons, app_comm_cons, IH by done.
    by rewrite !app_assoc_str.
Qed.

Lemma join_prefix_plain bs ps r :
  bs <> [] -> Forall plain_name bs -> Forall plain_name ps ->
  (r = "" \/ exists r', r = String "/" r') ->
  join "/" ps = join "/" bs +:+ r -> is_prefix_of bs ps = true.
Proof.
  revert ps. induction bs as [|b bs IH]; [done|]. intros ps _ Hbs Hps Hr Heq.
  apply Forall_cons in Hbs as [[Hb1 Hb2] Hbs].
  destruct ps as [|p ps].
  - rewrite join_cons in Heq. change (join "/" []) with "" in Heq.
    destruct b; [done|]. rewrite !app_cons_str in Heq. discriminate.
  - apply Forall_cons in Hps as [[Hp1 Hp2] Hps].
    rewrite !join_cons, app_assoc_str in Heq.
    assert (Hshape : tail_str bs +:+ r = "" \/ exists r', tail_str bs +:+ r = String "/" r').
    { destruct (tail_str_shape bs) as [->|[r' ->]]; [exact Hr | right; by eexists]. }
    destruct (plain_name_cancel p b _ _ Hp2 Hb2 (tail_str_shape ps) Hshape Heq) as [-> Htl].
    simpl. rewrite bool_decide_eq_true_2 by done. simpl.
    destruct bs as [|b2 bs]; [reflexivity|].
    apply IH; [done | done | done | exact Hr |].
    destruct ps as [|p2 ps]; [discriminate|].
    unfold tail_str in Htl. rewrite !app_cons_str, !app_nil_str in Htl.
    by injection Htl.
Qed.

(** For canonical absolute paths and a base other than the root, the test
    of [relative_to] is the separator-exact comparison of the two strings;
    under the root every absolute path is contained. *)
Lemma is_relative_to_separator_exact ps bs :
  Forall plain_name ps -> Forall plain_name bs -> bs <> [] ->
  is_relative_to (MkPath "/" ps) (MkPath "/" bs) = true <->
  contained_in (path_str (MkPath "/" bs)) (path_str (MkPath "/" ps)).
Proof.
  intros Hps Hbs Hne.
  change (is_relative_to (MkPath "/" ps) (MkPath "/" bs)) with (is_prefix_of bs ps).
  unfold contained_in, path_str, os_sep. simpl root. simpl parts. split.
  - intros H. apply is_prefix_of_spec in H as [tl ->].
    rewrite join_app by done. destruct tl as [|t tl].
    + left. simpl. by rewrite app_empty_r_str.
    + right. exists (join "/" (t :: tl)). unfold tail_str.
      by rewrite app_assoc_str.
  - intros [Heq|[rest Heq]].
    + apply (join_prefix_plain bs ps ""); [done..| by left |].
      rewrite !app_cons_str, !app_nil_str in Heq. injection Heq as ->.
      by rewrite app_empty_r_str.
    + apply (join_prefix_plain bs ps (String "/" rest)); [done..| right; by eexists |].
      rewrite !app_cons_str, !app_nil_str in Heq.
      by injection Heq.
Qed.

Lemma first_containing_spec resolved allowed_paths r :
  PyServer.first_containing resolved allowed_paths = Some r <->
  r = resolved /\ exists a, a ∈ allowed_paths /\ is_relative_to resolved a = true.
Proof.
  induction allowed_paths as [|a rest IH]; simpl.
  - split; [discriminate | intros [_ (a & Hin & _)]; by apply elem_of_nil in Hin].
  - destruct (is_relative_to resolved a) eqn:Hrel.
    + split; [intros [= <-]; split; [done|]; exists a; split; [left | done]
             | by intros [-> _]].
    + rewrite IH. split; intros [-> (a' & Hin & Ha')]; (split; [done|]); exists a'.
      * split; [by right | done].
      * split; [|done]. apply elem_of_cons in Hin as [->|Hin]; [congruence | done].
Qed.

(** *** Resolved paths *)

Lemma walk_nil mode fs fuel path : walk mode fs fuel path [] = inr path.
Proof. by destruct fuel. Qed.

Lemma walk_cons mode fs fuel path name rest :
  walk mode fs fuel path (name :: rest) =
  if is_skipped name then walk mode fs fuel path rest
  else if bool_decide (name = "..") then walk mode fs fuel (removelast path) rest
  else
    match fs !! (path ++ [name]) with
    | Some (Symlink target) =>
        match fuel with
        | O => inl ELOOP
        | S fuel' =>
            walk mode fs fuel' (if is_abs target then [] else path)
              (components target ++ rest)
        end
    | Some Dir => walk mode fs fuel (path ++ [name]) rest
    | Some (File _) =>
        match mode, rest with
        | Lexical, _ | _, [] => walk mode fs fuel (path ++ [name]) rest
        | _, _ :: _ => inl ENOTDIR
        end
    | None =>
        match mode, rest with
        | Lexical, _ | MayCreate, [] => walk mode fs fuel (path ++ [name]) rest
        | _, _ => inl ENOENT
        end
    end.
Proof. destruct fuel; reflexivity. Qed.

Lemma split_on_nonempty c s : split_on c s <> [].
Proof. destruct s as [|a s]; simpl; [done|]. case_decide; [done|]. by destruct (split_on c s). Qed.

Lemma split_on_no_sep c s x : x ∈ split_on c s -> has_char c x = false.
Proof.
  revert x. induction s as [|a s IH]; intros x; simpl.
  - intros Hx. apply list_elem_of_singleton in Hx as ->. reflexivity.
  - case_decide as Hac.
    + intros Hx. apply elem_of_cons in Hx as [->|Hx]; [reflexivity | by apply IH].
    + destruct (split_on c s) as [|w ws] eqn:Hs.
      * intros Hx. apply list_elem_of_singleton in Hx as ->. simpl.
        by rewrite bool_decide_eq_false_2.
      * intros Hx. apply elem_of_cons in Hx as [->|Hx].
        -- simpl. rewrite bool_decide_eq_false_2 by done. apply IH. by left.
        -- apply IH. by right.
Qed.

Lemma Forall_removelast {A} (P : A -> Prop) (l : list A) :
  Forall P l -> Forall P (removelast l).
Proof.
  induction 1 as [|x l Hx Hl IH]; [constructor|].
  destruct l as [|y l]; [constructor|].
  change (removelast (x :: y :: l)) with (x :: removelast (y :: l)).
  by constructor.
Qed.

Lemma validate_path_expand cfg env fs s q :
  PyServer.validate_path cfg env fs s = Ok q -> PyServer.expand_path env fs s = Ok q.
Proof.
  unfold PyServer.validate_path, mbind, result_bind.
  destruct (PyServer.expand_path env fs s) as [resolved|e]; [|discriminate].
  destruct (result_map _ _) as [aps|e]; [|discriminate].
  destruct (PyServer.first_containing resolved aps) as [r|] eqn:Hf; [|discriminate].
  apply first_containing_spec in Hf as [-> _]. done.
Qed.

Lemma result_map_elem {A B} (f : A -> result B) l ys x :
  result_map f l = Ok ys -> x ∈ l -> exists y, f x = Ok y /\ y ∈ ys.
Proof.
  revert ys. induction l as [|a l IH]; intros ys Hmap Hx; [by apply elem_of_nil in Hx|].
  cbn [result_map] in Hmap. unfold mbind, result_bind in Hmap.
  destruct (f a) as [b|e] eqn:Hfa; [|discriminate].
  destruct (result_map f l) as [bs|e]; [|discriminate]. injection Hmap as <-.
  apply elem_of_cons in Hx as [->|Hx].
  - exists b. split; [done | by left].
  - destruct (IH bs eq_refl Hx) as (y & Hy & Hin). exists y. split; [done | by right].
Qed.

Lemma result_map_elem_inv {A B} (f : A -> result B) l ys y :
  result_map f l = Ok ys -> y ∈ ys -> exists x, x ∈ l /\ f x = Ok y.
Proof.
  revert ys. induction l as [|a l IH]; intros ys Hmap Hy.
  - injection Hmap as <-. by apply elem_of_nil in Hy.
  - cbn [result_map] in Hmap. unfold mbind, result_bind in Hmap.
    destruct (f a) as [b|e] eqn:Hfa; [|discriminate].
    destruct (result_map f l) as [bs|e]; [|discriminate]. injection Hmap as <-.
    apply elem_of_cons in Hy as [->|Hy].
    + exists a. split; [by left | done].
    + destruct (IH bs eq_refl Hy) as (x & Hx & Hfx). exists x. split; [by right | done].
Qed.

Lemma no_slash_has_char x : no_slash x = true <-> has_char "/" x = false.
Proof.
  induction x as [|a x IH]; simpl; [done|].
  rewrite andb_true_iff, orb_false_iff, IH, negb_true_iff. done.
Qed.

Lemma components_no_slash s : Forall (fun n => no_slash n = true) (components s).
Proof.
  apply Forall_forall. intros x Hx. unfold components in Hx.
  apply list_elem_of_In, filter_In in Hx as [Hx _]. apply list_elem_of_In in Hx.
  apply no_slash_has_char. by eapply split_on_no_sep.
Qed.

(** The non-strict resolution answers with plain names: none is empty and
    none holds a separator. *)
Lemma walk_lexical_plain_name fs fuel path rest q :
  Forall plain_name path -> Forall (fun n => no_slash n = true) rest ->
  walk Lexical fs fuel path rest = inr q -> Forall plain_name q.
Proof.
  revert path rest.
  induction fuel as [|fuel IHf]; intros path rest; revert path;
    (induction rest as [|name rest IHr]; intros path Hpath Hrest;
     [rewrite walk_nil; by intros [= <-]|]);
    apply Forall_cons in Hrest as [Hname Hrest];
    rewrite walk_cons; destruct (is_skipped name) eqn:Hskip; try (by apply IHr);
    case_bool_decide as Hup; try (apply IHr; [by apply Forall_removelast | done]);
    (assert (Hnew : Forall plain_name (path ++ [name]))
       by (apply Forall_app; split; [done|]; apply Forall_singleton; split; [|done];
           intros ->; discriminate));
    destruct (fs !! (path ++ [name])) as [[c| |t]|]; try discriminate;
    try (by apply IHr).
  apply IHf; [by destruct (is_abs t)|].
  apply Forall_app. split; [apply components_no_slash | done].
Qed.

(** A path that [expand_path] resolved is the root followed by plain
    names. *)
Lemma expand_path_resolved env fs s p :
  Forall plain_name (env_cwd env) -> startswith s "~/" = false ->
  PyServer.expand_path env fs s = Ok p ->
  exists q, p = MkPath "/" q /\ Forall plain_name q.
Proof.
  intros Hcwd Htilde. unfold PyServer.expand_path. rewrite Htilde.
  unfold path_resolve, lookup_path. destruct (has_char _ _); [discriminate|].
  destruct (walk Lexical fs max_symlinks _ _) as [err|q] eqn:Hwalk; [discriminate|].
  intros [= <-]. exists q. split; [reflexivity|].
  eapply walk_lexical_plain_name; [| |exact Hwalk].
  - destruct (is_abs _); [constructor | exact Hcwd].
  - apply components_no_slash.
Qed.

(** [validate_path] accepts exactly when [relative_to] succeeds between
    the expansion of the request and the expansion of an entry. *)
Lemma validate_path_ok cfg env fs requested p :
  PyServer.validate_path cfg env fs requested = Ok p <->
  PyServer.expand_path env fs requested = Ok p /\
  exists aps,
    result_map (PyServer.expand_path env fs) (PyServer.allowed_directories cfg) = Ok aps /\
    exists a, a ∈ aps /\ is_relative_to p a = true.
Proof.
  unfold PyServer.validate_path, mbind, result_bind.
  destruct (PyServer.expand_path env fs requested) as [resolved|e].
  2:{ split; [discriminate | by intros [[=] _]]. }
  destruct (result_map _ _) as [aps|e].
  2:{ split; [discriminate | by intros [_ (aps & [=] & _)]]. }
  destruct (PyServer.first_containing resolved aps) as [r|] eqn:Hf.
  - apply first_containing_spec in Hf as [-> Ha]. split.
    + intros [= <-]. split; [done|]. by exists aps.
    + by intros [[= ->] _].
  - split; [discriminate|]. intros [[= ->] (aps' & [= <-] & a & Hin & Hrel)].
    assert (Hsome : PyServer.first_containing p aps = Some p)
      by (apply first_containing_spec; split; [done | by exists a]).
    congruence.
Qed.

(** C1. In the helpers of the two extensions [resolve] accepts a request
    exactly when its canonicalisation returns a path that is equal to the
    canonical form of a base of the AllowList, or begins with that form
    followed immediately by the separator, the bases before that one having
    been canonicalised without error (each base is canonicalised when the
    loop reaches it); the accepted value is the canonical path. With the
    single base [/allowed], a path that canonicalises to [/allowed/x] is
    accepted and one that canonicalises to [/allowed-evil/x] is refused, by
    [resolve] and by [validate_path] of the example server. [validate_path]
    accepts exactly when [relative_to] succeeds between the expansion of
    the request and the expansion of an entry, a comparison of whole
    components: for resolved paths and an entry other than the root this is
    the same separator-exact test of the two strings, and an entry that
    resolves to the root contains every resolved path. *)
Theorem C1_containment_is_separator_exact (canon : string -> resolve_error + string) :
  (forall allowed requested p,
      FsSandbox.resolve canon allowed requested = Ok p <->
      canon requested = inr p /\
      exists pre base post b,
        allowed = pre ++ base :: post /\
        Forall (canonicalises canon) pre /\
        canon base = inr b /\
        (p = b \/ exists rest, p = b +:+ "/" +:+ rest)) /\
  (forall allowed requested,
      FfprobeLite.resolve canon allowed requested
      = FsSandbox.resolve canon allowed requested) /\
  (forall b inside outside,
      canon b = inr "/allowed" ->
      canon inside = inr "/allowed/x" ->
      canon outside = inr "/allowed-evil/x" ->
      FsSandbox.resolve canon [b] inside = Ok "/allowed/x" /\
      FsSandbox.resolve canon [b] outside
      = Raise (SandboxError "Path not within allowed directories")) /\
  (forall cfg env fs requested p,
      PyServer.validate_path cfg env fs requested = Ok p <->
      PyServer.expand_path env fs requested = Ok p /\
      exists aps,
        result_map (PyServer.expand_path env fs) (PyServer.allowed_directories cfg) = Ok aps /\
        exists a, a ∈ aps /\ is_relative_to p a = true) /\
  (forall env fs requested entry p a,
      Forall plain_name (env_cwd env) ->
      startswith requested "~/" = false -> startswith entry "~/" = false ->
      PyServer.expand_path env fs requested = Ok p ->
      PyServer.expand_path env fs entry = Ok a ->
      (a <> MkPath "/" [] ->
       (is_relative_to p a = true <->
        path_str p = path_str a \/ exists rest, path_str p = path_str a +:+ "/" +:+ rest)) /\
      (a = MkPath "/" [] -> is_relative_to p a = true)) /\
  (forall limit,
      PyServer.validate_path (sample_cfg limit) sample_env sample_fs "/allowed/x"
      = Ok (MkPath "/" ["allowed"; "x"]) /\
      PyServer.validate_path (sample_cfg limit) sample_env sample_fs "/allowed-evil/x"
      = Raise (Exn "PermissionError" "Path outside sandbox: /allowed-evil/x")).
Proof.
  split; [|split; [|split; [|split; [|split]]]].
  - intros allowed requested p. apply fs_resolve_ok.
  - intros allowed requested. apply ff_resolve_eq.
  - intros b inside outside Hb Hi Ho. unfold FsSandbox.resolve. simpl.
    rewrite Hb, Hi, Ho. split; reflexivity.
  - intros cfg env fs requested p. apply validate_path_ok.
  - intros env fs requested entry p a Hcwd Hreq Hentry Hp Ha.
    destruct (expand_path_resolved _ _ _ _ Hcwd Hreq Hp) as (ps & -> & Hps).
    destruct (expand_path_resolved _ _ _ _ Hcwd Hentry Ha) as (bs & -> & Hbs).
    split.
    + intros Hroot. apply is_relative_to_separator_exact; [done | done |].
      intros ->. by apply Hroot.
    + intros [= ->]. reflexivity.
  - intros limit. split; vm_compute; reflexivity.
Qed.

Lemma C1_containment_witness :
  canonical sample_env sample_fs "/allowed/" = inr "/allowed" /\
  canonical sample_env sample_fs "/allowed/./x" = inr "/allowed/x" /\
  canonical sample_env sample_fs "/allowed/../allowed-evil/x" = inr "/allowed-evil/x" /\
  FsSandbox.resolve (canonical sample_env sample_fs) ["/allowed/"] "/allowed/./x"
  = Ok "/allowed/x" /\
  FsSandbox.resolve (canonical sample_env sample_fs) ["/allowed/"] "/allowed/../allowed-evil/x"
  = Raise (SandboxError "Path not within allowed directories") /\
  (is_relative_to (MkPath "/" ["allowed-evil"; "x"]) (MkPath "/" ["allowed"]) = true <->
   path_str (MkPath "/" ["allowed-evil"; "x"]) = path_str (MkPath "/" ["allowed"]) \/
   exists rest,
     path_str (MkPath "/" ["allowed-evil"; "x"])
     = path_str (MkPath "/" ["allowed"]) +:+ "/" +:+ rest).
Proof.
  assert (Hb : canonical sample_env sample_fs "/allowed/" = inr "/allowed")
    by (vm_compute; reflexivity).
  assert (Hi : canonical sample_env sample_fs "/allowed/./x" = inr "/allowed/x")
    by (vm_compute; reflexivity).
  assert (Ho : canonical sample_env sample_fs "/allowed/../allowed-evil/x"
               = inr "/allowed-evil/x")
    by (vm_compute; reflexivity).
  split; [exact Hb|]. split; [exact Hi|]. split; [exact Ho|].
  destruct (C1_containment_is_separator_exact (canonical sample_env sample_fs))
    as (_ & _ & Hsample & _ & Hparts & _).
  split; [exact (proj1 (Hsample _ _ _ Hb Hi Ho))|].
  split; [exact (proj2 (Hsample _ _ _ Hb Hi Ho))|].
  apply (proj1 (Hparts sample_env sample_fs "/allowed-evil/x" "/allowed"
                  (MkPath "/" ["allowed-evil"; "x"]) (MkPath "/" ["allowed"])
                  ltac:(constructor) eq_refl eq_refl
                  ltac:(vm_compute; reflexivity) ltac:(vm_compute; reflexivity))).
  discriminate.
Defined.

(** The claim that a path is accepted only when its string is equal to the
    string of an entry or begins with it followed by the separator fails
    for [validate_path]: with the root as the one
    entry, [/allowed-evil/x] is accepted although its string neither is
    [/] nor begins with two slashes. The helper of the extensions refuses
    the same request under the same AllowList. *)
Lemma C1_root_entry_contains_every_path :
  ~ (forall cfg env fs requested p,
        PyServer.validate_path cfg env fs requested = Ok p ->
        exists entry a,
          entry ∈ PyServer.allowed_directories cfg /\
          PyServer.expand_path env fs entry = Ok a /\
          (path_str p = path_str a \/
           exists rest, path_str p = path_str a +:+ "/" +:+ rest)).
Proof.
  intros Hclaim.
  destruct (Hclaim (PyServer.MkConfig ["/"] 6 60) sample_env sample_fs "/allowed-evil/x"
              (MkPath "/" ["allowed-evil"; "x"]) ltac:(vm_compute; reflexivity))
    as (entry & a & Hin & Ha & Hstr).
  apply list_elem_of_singleton in Hin as ->.
  assert (a = MkPath "/" []) as -> by (vm_compute in Ha; congruence).
  destruct Hstr as [Heq|[rest Heq]]; vm_compute in Heq; discriminate.
Qed.

(** C3. With an empty AllowList no request is ever accepted. In the two
    extension helpers [resolve] canonicalises the request first: when that
    returns, the sandbox error is raised whatever the path; when it raises
    (a symbolic-link loop, an unknown home directory, a NUL byte), that
    error leaves [resolve] instead. The absent configuration gives the
    empty AllowList, and [validate_path] of the example server never
    returns a path either. *)
Theorem C3_empty_allowlist_fails_closed :
  (forall canon requested,
      FsSandbox.resolve canon [] requested
      = match canon requested with
        | inr _ => Raise (SandboxError "Path not within allowed directories")
        | inl e => Raise (resolve_exn e)
        end) /\
  (forall canon requested,
      FfprobeLite.resolve canon [] requested
      = match canon requested with
        | inr _ => Raise (SandboxError "Path not within allowed directories")
        | inl e => Raise (resolve_exn e)
        end) /\
  (forall canon requested,
      is_ok (FsSandbox.resolve canon [] requested) = false /\
      is_ok (FfprobeLite.resolve canon [] requested) = false /\
      is_ok (FsSandbox.resolve canon (FsSandboxConfig.parse_allowed None) requested)
      = false) /\
  (forall env fs max_size limit requested,
      is_ok (PyServer.validate_path (PyServer.MkConfig [] max_size limit) env fs requested)
      = false).
Proof.
  split; [|split; [|split]].
  - intros canon requested. unfold FsSandbox.resolve. by destruct (canon requested).
  - intros canon requested. unfold FfprobeLite.resolve. by destruct (canon requested).
  - intros canon requested.
    unfold FsSandbox.resolve, FfprobeLite.resolve, FsSandboxConfig.parse_allowed.
    by destruct (canon requested).
  - intros env fs max_size limit requested. unfold PyServer.validate_path, mbind, result_bind.
    cbn [PyServer.allowed_directories result_map].
    destruct (PyServer.expand_path env fs requested); reflexivity.
Qed.

(** The claim that the error is the sandbox error for every requested path
    fails: the request [/allowed/loop], a symbolic link that leads to
    itself, leaves [resolve] as the [RuntimeError] of the canonicalisation. *)
Lemma C3_loop_is_not_a_sandbox_error :
  ~ (forall env fs requested,
        FsSandbox.resolve (canonical env fs) [] requested
        = Raise (SandboxError "Path not within allowed directories")).
Proof.
  intros Hclaim.
  specialize (Hclaim sample_env loop_fs "/allowed/loop").
  vm_compute in Hclaim. discriminate.
Qed.

(** ** The read cap of the fs-sandbox extension *)

(** Every outcome of [read_capped], with the system calls it makes. *)
Lemma read_capped_run env p max_mb fs tr :
  let sp := path_str (mkpath p) in
  FsSandboxIO.read_capped env p max_mb (MkOS fs tr) =
  match lookup_path MustExist env fs sp with
  | inl err => (Raise (os_error err sp), MkOS fs (tr ++ [EvStat sp]))
  | inr q =>
      match node_at fs q with
      | Some (File c) =>
          if bool_decide (strlen c > FsSandbox.cap max_mb)
          then (Raise (SandboxError ("File exceeds limit: " +:+ pretty (strlen c) +:+
                                     " > " +:+ pretty (FsSandbox.cap max_mb))),
                MkOS fs (tr ++ [EvStat sp]))
          else (Ok c, MkOS fs (tr ++ [EvStat sp; EvRead sp]))
      | Some Dir =>
          if bool_decide (dir_st_size > FsSandbox.cap max_mb)
          then (Raise (SandboxError ("File exceeds limit: " +:+ pretty dir_st_size +:+
                                     " > " +:+ pretty (FsSandbox.cap max_mb))),
                MkOS fs (tr ++ [EvStat sp]))
          else (Raise (Exn "IsADirectoryError" ("[Errno 21] Is a directory: '" +:+ sp +:+ "'")),
                MkOS fs (tr ++ [EvStat sp; EvRead sp]))
      | _ => (Raise (os_error ENOENT sp), MkOS fs (tr ++ [EvStat sp]))
      end
  end.
Proof.
  intros sp. unfold FsSandboxIO.read_capped, os_stat, os_read. fold sp. run_m.
  destruct (lookup_path MustExist env fs sp) as [err|q] eqn:Hl; [reflexivity|].
  destruct (node_at fs q) as [[c| |t]|] eqn:Hn; simpl; try reflexivity.
  - case_bool_decide; [reflexivity|]. simpl. rewrite Hl, Hn, <- app_assoc. reflexivity.
  - case_bool_decide; [reflexivity|]. simpl. rewrite Hl, Hn, <- app_assoc. reflexivity.
Qed.




(** ** Running the system calls *)

Lemma os_stat_run env sp fs tr :
  os_stat env sp (MkOS fs tr) = (stat_outcome env fs sp, MkOS fs (tr ++ [EvStat sp])).
Proof.
  unfold os_stat, stat_outcome. run_m.
  destruct (lookup_path MustExist env fs sp) as [err|q]; [reflexivity|].
  destruct (node_at fs q) as [[c| |t]|]; reflexivity.
Qed.

Lemma os_read_run env sp fs tr :
  os_read env sp (MkOS fs tr) = (read_outcome env fs sp, MkOS fs (tr ++ [EvRead sp])).
Proof.
  unfold os_read, read_outcome. run_m.
  destruct (lookup_path MustExist env fs sp) as [err|q]; [reflexivity|].
  destruct (node_at fs q) as [[c| |t]|]; reflexivity.
Qed.

Lemma file_at_stat env fs sp c :
  file_at env fs sp c -> stat_outcome env fs sp = Ok (StatResult false (strlen c)).
Proof. intros (q & Hl & Hn). unfold stat_outcome. by rewrite Hl, Hn. Qed.

Lemma file_at_read env fs sp c :
  file_at env fs sp c -> read_outcome env fs sp = Ok c.
Proof. intros (q & Hl & Hn). unfold read_outcome. by rewrite Hl, Hn. Qed.

Lemma audit_log_run now tool oc details p :
  PyServer.audit_log now tool oc details p = (Ok tt, after_audit now tool oc details p).
Proof. destruct p as [[st rc rw] log w]. reflexivity. Qed.

Lemma lift_os_stat_run env sp p :
  PyServer.lift_os (os_stat env sp) p
  = (stat_outcome env (os_fs (PyServer.os p)) sp, with_events [EvStat sp] p).
Proof.
  destruct p as [st log [fs tr]]. unfold PyServer.lift_os. simpl.
  by rewrite os_stat_run.
Qed.

Lemma lift_os_read_run env sp p :
  PyServer.lift_os (os_read env sp) p
  = (read_outcome env (os_fs (PyServer.os p)) sp, with_events [EvRead sp] p).
Proof.
  destruct p as [st log [fs tr]]. unfold PyServer.lift_os. simpl.
  by rewrite os_read_run.
Qed.

Lemma with_events_app evs1 evs2 p :
  with_events evs2 (with_events evs1 p) = with_events (evs1 ++ evs2) p.
Proof. unfold with_events. simpl. by rewrite app_assoc. Qed.

(** Every outcome of the read branch once its arguments and its path were
    accepted. *)
Lemma read_file_sandboxed_run cfg env now arguments p params safe_path :
  PyServer.read_file_params arguments = Ok params ->
  PyServer.validate_path cfg env (os_fs (PyServer.os p)) (PyServer.r_path params)
  = Ok safe_path ->
  let sp := path_str safe_path in
  let fs := os_fs (PyServer.os p) in
  PyServer.read_file_sandboxed cfg env now arguments p =
  match stat_outcome env fs sp with
  | Raise e => (Raise e, with_events [EvStat sp] p)
  | Ok st =>
      if bool_decide (st_size st > PyServer.max_file_size cfg)
      then (Raise (PyServer.ValueError
                     ("File too large: " +:+ pretty (st_size st) +:+ " bytes (max: " +:+
                      pretty (PyServer.max_file_size cfg) +:+ ")")),
            with_events [EvStat sp] p)
      else
        match read_outcome env fs sp with
        | Raise e => (Raise e, with_events [EvStat sp; EvRead sp] p)
        | Ok data =>
            match
              (match PyServer.r_encoding params with
               | PyServer.utf8 => Text.decode_text data
               | PyServer.base64 => Ok (Base64.b64encode data)
               end)
            with
            | Ok content =>
                (Ok (PyServer.TextResult content),
                 after_audit now "read_file_sandboxed" PyServer.success
                   (Some {[ "path" := PyServer.r_path params ]})
                   (with_events [EvStat sp; EvRead sp] p))
            | Raise e => (Raise e, with_events [EvStat sp; EvRead sp] p)
            end
        end
  end.
Proof.
  intros Hparams Hvalid sp fs.
  unfold PyServer.read_file_sandboxed, PyServer.validate_path_now, PyServer.lift_result.
  unfold mbind at 1, M_bind at 1. rewrite Hparams.
  unfold mbind at 1, M_bind at 1. unfold mbind at 1, M_bind at 1, get_state.
  rewrite Hvalid.
  unfold mbind at 1, M_bind at 1. rewrite lift_os_stat_run. fold sp fs.
  destruct (stat_outcome env fs sp) as [st|e]; [|reflexivity].
  case_bool_decide; [reflexivity|].
  destruct (PyServer.r_encoding params).
  - unfold mbind at 1, M_bind at 1. unfold mbind at 1, M_bind at 1.
    rewrite lift_os_read_run, with_events_app. simpl.
    fold fs. destruct (read_outcome env fs sp) as [data|e]; [|reflexivity].
    destruct (Text.decode_text data) as [content|e]; [|reflexivity].
    unfold mbind, M_bind. rewrite audit_log_run. reflexivity.
  - unfold mbind at 1, M_bind at 1. unfold mbind at 1, M_bind at 1.
    rewrite lift_os_read_run, with_events_app. simpl.
    fold fs. destruct (read_outcome env fs sp) as [data|e]; [|reflexivity].
    unfold mbind, M_bind, mret, M_ret. rewrite audit_log_run. reflexivity.
Qed.

(** ** The size ceiling of reads *)

Lemma read_capped_file env p max_mb fs tr c :
  file_at env fs (path_str (mkpath p)) c ->
  FsSandboxIO.read_capped env p max_mb (MkOS fs tr) =
  if bool_decide (strlen c > FsSandbox.cap max_mb)
  then (Raise (SandboxError ("File exceeds limit: " +:+ pretty (strlen c) +:+
                             " > " +:+ pretty (FsSandbox.cap max_mb))),
        MkOS fs (tr ++ [EvStat (path_str (mkpath p))]))
  else (Ok c, MkOS fs (tr ++ [EvStat (path_str (mkpath p)); EvRead (path_str (mkpath p))])).
Proof.
  intros (q & Hl & Hn). pose proof (read_capped_run env p max_mb fs tr) as Hrun.
  simpl in Hrun. by rewrite Hrun, Hl, Hn.
Qed.

(** C5. Every read stats the resolved file before it loads any content. In
    [read_capped] and in the read branch of the dispatcher alike, a file
    whose size is exactly the ceiling is read and returned (the system calls
    are the stat, then the read), and a file one byte larger fails with the
    too-large error after the stat alone: no content is read. In the
    dispatcher the bytes read are then decoded as the caller asked. *)
Theorem C5_size_checked_before_read :
  (forall env p max_mb fs tr c,
      file_at env fs (path_str (mkpath p)) c ->
      let sp := path_str (mkpath p) in
      (strlen c = FsSandbox.cap max_mb ->
       FsSandboxIO.read_capped env p max_mb (MkOS fs tr)
       = (Ok c, MkOS fs (tr ++ [EvStat sp; EvRead sp]))) /\
      (strlen c = FsSandbox.cap max_mb + 1 ->
       FsSandboxIO.read_capped env p max_mb (MkOS fs tr)
       = (Raise (SandboxError ("File exceeds limit: " +:+ pretty (strlen c) +:+
                               " > " +:+ pretty (FsSandbox.cap max_mb))),
          MkOS fs (tr ++ [EvStat sp])))) /\
  (forall env p max_mb fs tr,
      let sp := path_str (mkpath p) in
      let w := snd (FsSandboxIO.read_capped env p max_mb (MkOS fs tr)) in
      os_fs w = fs /\
      (os_trace w = tr ++ [EvStat sp] \/ os_trace w = tr ++ [EvStat sp; EvRead sp])) /\
  (forall cfg env now arguments p params safe_path c,
      PyServer.read_file_params arguments = Ok params ->
      PyServer.validate_path cfg env (os_fs (PyServer.os p)) (PyServer.r_path params)
      = Ok safe_path ->
      file_at env (os_fs (PyServer.os p)) (path_str safe_path) c ->
      let sp := path_str safe_path in
      (strlen c = PyServer.max_file_size cfg ->
       exists r p',
         PyServer.read_file_sandboxed cfg env now arguments p = (r, p') /\
         PyServer.os p' = PyServer.os (with_events [EvStat sp; EvRead sp] p) /\
         (PyServer.r_encoding params = PyServer.base64 ->
          r = Ok (PyServer.TextResult (Base64.b64encode c))) /\
         (forall text, PyServer.r_encoding params = PyServer.utf8 ->
                       Text.decode_text c = Ok text ->
                       r = Ok (PyServer.TextResult text))) /\
      (strlen c = PyServer.max_file_size cfg + 1 ->
       PyServer.read_file_sandboxed cfg env now arguments p
       = (Raise (PyServer.ValueError
                   ("File too large: " +:+ pretty (strlen c) +:+ " bytes (max: " +:+
                    pretty (PyServer.max_file_size cfg) +:+ ")")),
          with_events [EvStat sp] p))).
Proof.
  split; [|split].
  - intros env p max_mb fs tr c Hfile sp. subst sp.
    rewrite (read_capped_file _ _ _ _ _ _ Hfile). split; intros Hsize.
    + by rewrite bool_decide_eq_false_2 by lia.
    + by rewrite bool_decide_eq_true_2 by lia.
  - intros env p max_mb fs tr sp w. subst w.
    pose proof (read_capped_run env p max_mb fs tr) as Hrun. simpl in Hrun.
    fold sp in Hrun. rewrite Hrun.
    destruct (lookup_path MustExist env fs sp) as [err|q]; [simpl; by auto|].
    destruct (node_at fs q) as [[c| |t]|]; try case_bool_decide; simpl; by auto.
  - intros cfg env now arguments p params safe_path c Hparams Hvalid Hfile sp.
    pose proof (read_file_sandboxed_run cfg env now arguments p params safe_path
                  Hparams Hvalid) as Hrun.
    simpl in Hrun. fold sp in Hrun. fold sp in Hfile.
    rewrite (file_at_stat _ _ _ _ Hfile), (file_at_read _ _ _ _ Hfile) in Hrun.
    simpl in Hrun. split; intros Hsize.
    + rewrite bool_decide_eq_false_2 in Hrun by lia.
      destruct (PyServer.r_encoding params) eqn:Henc.
      * destruct (Text.decode_text c) as [content|e] eqn:Hdec;
          eexists _, _; (split; [exact Hrun|]); (split; [reflexivity|]);
          (split; [discriminate|]); intros text _ [= <-]; reflexivity.
      * eexists _, _. split; [exact Hrun|]. split; [reflexivity|].
        split; [reflexivity|]. discriminate.
    + rewrite bool_decide_eq_true_2 in Hrun by lia. exact Hrun.
Qed.

Lemma C5_size_checked_before_read_witness :
  FsSandboxIO.read_capped sample_env "/exact" 1 (MkOS large_fs [])
  = (Ok one_mib_text, MkOS large_fs [EvStat "/exact"; EvRead "/exact"]) /\
  snd (FsSandboxIO.read_capped sample_env "/over" 1 (MkOS large_fs []))
  = MkOS large_fs [EvStat "/over"] /\
  fst (PyServer.read_file_sandboxed (sample_cfg 6) sample_env 0
         (path_args "/allowed/x") sample_proc)
  = Ok (PyServer.TextResult "inside") /\
  PyServer.read_file_sandboxed (sample_cfg 5) sample_env 0
    (path_args "/allowed/x") sample_proc
  = (Raise (PyServer.ValueError "File too large: 6 bytes (max: 5)"),
     with_events [EvStat "/allowed/x"] sample_proc).
Proof.
  assert (Hexact : file_at sample_env large_fs (path_str (mkpath "/exact")) one_mib_text).
  { exists ["exact"]. split; [vm_compute; reflexivity | reflexivity]. }
  assert (Hover : file_at sample_env large_fs (path_str (mkpath "/over"))
                    (String "a" one_mib_text)).
  { exists ["over"]. split; [vm_compute; reflexivity | reflexivity]. }
  assert (Hparams : PyServer.read_file_params (path_args "/allowed/x")
                    = Ok (PyServer.MkRead "/allowed/x" PyServer.utf8)).
  { vm_compute. reflexivity. }
  assert (Hvalid : forall limit,
             PyServer.validate_path (sample_cfg limit) sample_env
               (os_fs (PyServer.os sample_proc))
               (PyServer.r_path (PyServer.MkRead "/allowed/x" PyServer.utf8))
             = Ok (MkPath "/" ["allowed"; "x"])).
  { intros limit. vm_compute. reflexivity. }
  assert (Hfile : file_at sample_env (os_fs (PyServer.os sample_proc))
                    (path_str (MkPath "/" ["allowed"; "x"])) "inside").
  { exists ["allowed"; "x"]. split; vm_compute; reflexivity. }
  pose proof (proj1 C5_size_checked_before_read) as Hcap.
  pose proof (proj2 (proj2 C5_size_checked_before_read)) as Hsrv.
  split; [|split; [|split]].
  - apply (proj1 (Hcap sample_env "/exact" 1 large_fs [] one_mib_text Hexact)).
    vm_compute. reflexivity.
  - rewrite (proj2 (Hcap sample_env "/over" 1 large_fs [] _ Hover));
      [reflexivity | vm_compute; reflexivity].
  - destruct (proj1 (Hsrv (sample_cfg 6) sample_env 0 (path_args "/allowed/x") sample_proc
                       _ _ "inside" Hparams (Hvalid 6) Hfile))
      as (r & p' & Hrun & _ & _ & Hutf8); [vm_compute; reflexivity|].
    rewrite Hrun. simpl. apply Hutf8; [reflexivity | vm_compute; reflexivity].
  - apply (proj2 (Hsrv (sample_cfg 5) sample_env 0 (path_args "/allowed/x") sample_proc
                    _ _ "inside" Hparams (Hvalid 5) Hfile)).
    vm_compute. reflexivity.
Defined.

(** ** The rate limiter *)

Lemma window_of_touch st c c' :
  PyServer.window_of (PyServer.touch_window st c) c' = PyServer.window_of st c'.
Proof.
  unfold PyServer.window_of, PyServer.touch_window.
  destruct (PyServer.rate_limit_window st !! c) eqn:Hc; [reflexivity|]. simpl.
  destruct (decide (c = c')) as [<-|Hne].
  - by rewrite lookup_insert_eq, Hc.
  - by rewrite lookup_insert_ne.
Qed.

Lemma check_rate_limit_run cfg now c st :
  let pruned := PyServer.prune (now - 60) (PyServer.window_of st c) in
  PyServer.check_rate_limit cfg now c st =
  if bool_decide (Z.of_nat (length pruned) >= PyServer.rate_limit cfg)
  then (Raise (Exn "Exception" "Rate limit exceeded. Try again later."),
        PyServer.touch_window st c)
  else (Ok tt,
        PyServer.MkState (PyServer.start_time st) (PyServer.request_count st)
          (<[c := pruned ++ [now]]>
             (PyServer.rate_limit_window (PyServer.touch_window st c)))).
Proof.
  intros pruned. unfold PyServer.check_rate_limit. run_m. fold pruned.
  case_bool_decide; [reflexivity|].
  unfold PyServer.touch_window.
  destruct (PyServer.rate_limit_window st !! c); reflexivity.
Qed.

Lemma prune_spec ws l t :
  t ∈ PyServer.prune ws l <-> t ∈ l /\ t > ws.
Proof.
  unfold PyServer.prune. rewrite !list_elem_of_In, filter_In, bool_decide_eq_true.
  reflexivity.
Qed.

Lemma prune_all ws l :
  (forall t, t ∈ l -> t > ws) -> PyServer.prune ws l = l.
Proof.
  unfold PyServer.prune. induction l as [|x l IH]; intros H; simpl; [reflexivity|].
  rewrite bool_decide_eq_true_2 by (apply H; left).
  rewrite IH; [reflexivity|]. intros t Ht. apply H. by right.
Qed.

Lemma prune_none ws l :
  (forall t, t ∈ l -> t <= ws) -> PyServer.prune ws l = [].
Proof.
  unfold PyServer.prune. induction l as [|x l IH]; intros H; simpl; [reflexivity|].
  rewrite bool_decide_eq_false_2 by (specialize (H x ltac:(left)); lia).
  apply IH. intros t Ht. apply H. by right.
Qed.

(** The timestamps of the client after a check. *)
Lemma check_rate_limit_window cfg now c st :
  let pruned := PyServer.prune (now - 60) (PyServer.window_of st c) in
  let '(r, st') := PyServer.check_rate_limit cfg now c st in
  (r = Ok tt <-> Z.of_nat (length pruned) < PyServer.rate_limit cfg) /\
  (r = Ok tt -> PyServer.window_of st' c = pruned ++ [now]) /\
  (r <> Ok tt -> forall c', PyServer.window_of st' c' = PyServer.window_of st c') /\
  (forall c', c' <> c -> PyServer.window_of st' c' = PyServer.window_of st c').
Proof.
  intros pruned. rewrite check_rate_limit_run. fold pruned.
  case_bool_decide as Hfull.
  - split; [split; [discriminate | lia]|].
    split; [discriminate|].
    split; intros; apply window_of_touch.
  - split; [split; [lia | reflexivity]|].
    split; [intros _; unfold PyServer.window_of; simpl; by rewrite lookup_insert_eq|].
    split; [congruence|].
    intros c' Hne. unfold PyServer.window_of at 1. simpl.
    rewrite lookup_insert_ne by congruence. apply window_of_touch.
Qed.

Lemma run_calls_burst cfg c times st :
  (forall t t', t ∈ PyServer.window_of st c ++ times -> t' ∈ times -> t > t' - 60) ->
  fst (run_calls cfg c times st)
  = burst_flags (PyServer.rate_limit cfg) (length (PyServer.window_of st c)) times.
Proof.
  revert st. induction times as [|now rest IH]; intros st Hclose; [reflexivity|].
  simpl. pose proof (check_rate_limit_window cfg now c st) as Hw. simpl in Hw.
  destruct (PyServer.check_rate_limit cfg now c st) as [r st1].
  destruct Hw as (Hadm & Hok & Hrej & _).
  assert (Hkeep : PyServer.prune (now - 60) (PyServer.window_of st c)
                  = PyServer.window_of st c).
  { apply prune_all. intros t Ht. apply Hclose; [|left].
    apply elem_of_app. by left. }
  rewrite Hkeep in Hadm, Hok.
  specialize (IH st1). destruct (run_calls cfg c rest st1) as [rs st2]. simpl in *.
  case_bool_decide as Hn.
  - apply Hadm in Hn. subst r. simpl. f_equal.
    specialize (Hok eq_refl). rewrite Hok in IH. rewrite IH.
    + rewrite length_app. simpl. f_equal. lia.
    + intros t t' Ht Ht'. apply Hclose; [|by right].
      rewrite <- app_assoc in Ht. exact Ht.
  - assert (Hr : r <> Ok tt) by (intros Hr; apply Hadm in Hr; lia).
    destruct r as [[]|e]; [congruence|]. simpl. f_equal.
    specialize (Hrej Hr c). rewrite Hrej in IH. apply IH.
    intros t t' Ht Ht'. apply Hclose; [|by right].
    apply elem_of_app in Ht as [Ht|Ht]; apply elem_of_app; [by left|].
    right. by right.
Qed.

Lemma burst_flags_full limit n times :
  limit <= Z.of_nat n -> burst_flags limit n times = replicate (length times) false.
Proof.
  intros Hfull. induction times as [|t rest IH]; simpl; [reflexivity|].
  rewrite bool_decide_eq_false_2 by lia. by rewrite IH.
Qed.

Lemma burst_flags_fresh limit n k times :
  Z.of_nat n + Z.of_nat k = limit -> length times = S k ->
  burst_flags limit n times = replicate k true ++ [false].
Proof.
  revert n times. induction k as [|k IH]; intros n times Hsum Hlen.
  - destruct times as [|t [|? ?]]; try discriminate. simpl.
    by rewrite bool_decide_eq_false_2 by lia.
  - destruct times as [|t rest]; [discriminate|]. simpl.
    rewrite bool_decide_eq_true_2 by lia. simpl. f_equal.
    apply IH; [lia | by injection Hlen].
Qed.

(** C4. With [rate_limit = N] and one client: every admission check first
    drops the timestamps that are not newer than [now - 60]; the call is
    admitted, and [now] appended to the pruned window, exactly when the
    pruned count is strictly below [N]; a rejected call raises and leaves
    the window of every client as it was (the attempt is not recorded).
    Hence of [N + 1] calls of a fresh client within sixty seconds the first
    [N] are admitted and the last is rejected, and once every recorded
    timestamp is at least sixty seconds old the client is admitted again. *)
Theorem C4_sliding_window_admission (cfg : PyServer.Config) (c : string) :
  let N := PyServer.rate_limit cfg in
  (forall st now,
      let pruned := PyServer.prune (now - 60) (PyServer.window_of st c) in
      let r := fst (PyServer.check_rate_limit cfg now c st) in
      let st' := snd (PyServer.check_rate_limit cfg now c st) in
      (forall t, t ∈ pruned <-> t ∈ PyServer.window_of st c /\ t > now - 60) /\
      (r = Ok tt <-> Z.of_nat (length pruned) < N) /\
      (r = Ok tt -> PyServer.window_of st' c = pruned ++ [now]) /\
      (r <> Ok tt ->
       r = Raise (Exn "Exception" "Rate limit exceeded. Try again later.") /\
       st' = PyServer.touch_window st c /\
       forall c', PyServer.window_of st' c' = PyServer.window_of st c')) /\
  (forall st times,
      0 <= N ->
      PyServer.window_of st c = [] ->
      length times = S (Z.to_nat N) ->
      (forall t t', t ∈ times -> t' ∈ times -> t' - t < 60) ->
      fst (run_calls cfg c times st) = replicate (Z.to_nat N) true ++ [false]) /\
  (forall st now,
      1 <= N ->
      (forall t, t ∈ PyServer.window_of st c -> t + 60 <= now) ->
      fst (PyServer.check_rate_limit cfg now c st) = Ok tt /\
      PyServer.window_of (snd (PyServer.check_rate_limit cfg now c st)) c = [now]).
Proof.
  intros N. split; [|split].
  - intros st now pruned r st'. subst r st'.
    split; [intros t; apply prune_spec|].
    pose proof (check_rate_limit_window cfg now c st) as Hw. simpl in Hw.
    pose proof (check_rate_limit_run cfg now c st) as Hrun. simpl in Hrun.
    fold pruned in Hw, Hrun.
    destruct (PyServer.check_rate_limit cfg now c st) as [r st'].
    destruct Hw as (Hadm & Hok & Hrej & _). simpl.
    split; [exact Hadm|]. split; [exact Hok|].
    intros Hr. case_bool_decide.
    + injection Hrun as -> ->. split; [reflexivity|]. split; [reflexivity|].
      intros c'. apply window_of_touch.
    + injection Hrun as -> _. congruence.
  - intros st times HN Hfresh Hlen Hclose.
    rewrite run_calls_burst.
    + rewrite Hfresh. simpl. apply burst_flags_fresh; [lia | exact Hlen].
    + rewrite Hfresh. simpl. intros t t' Ht Ht'.
      specialize (Hclose t t' Ht Ht'). lia.
  - intros st now HN Hold.
    pose proof (check_rate_limit_window cfg now c st) as Hw. simpl in Hw.
    destruct (PyServer.check_rate_limit cfg now c st) as [r st'].
    destruct Hw as (Hadm & Hok & _). simpl.
    rewrite prune_none in Hadm, Hok by (intros t Ht; specialize (Hold t Ht); lia).
    simpl in Hadm. assert (Hr : r = Ok tt) by (apply Hadm; fold N; lia).
    split; [exact Hr | by apply Hok].
Qed.

Lemma C4_sliding_window_admission_witness :
  let cfg := PyServer.MkConfig ["/allowed"] 6 2 in
  let st0 := PyServer.MkState 0 0 ∅ in
  fst (run_calls cfg "default" [0; 10; 59] st0) = [true; true; false] /\
  fst (PyServer.check_rate_limit cfg 70 "default"
         (snd (run_calls cfg "default" [0; 10; 59] st0))) = Ok tt.
Proof.
  intros cfg st0.
  pose proof (C4_sliding_window_admission cfg "default") as (_ & Hburst & Hagain).
  split.
  - apply (Hburst st0 [0; 10; 59]); [simpl; lia | reflexivity | reflexivity |].
    intros t t' Ht Ht'. each_member Ht; each_member Ht'; lia.
  - apply Hagain; [simpl; lia|].
    intros t Ht.
    assert (Hw : PyServer.window_of (snd (run_calls cfg "default" [0; 10; 59] st0)) "default"
                 = [0; 10]) by (vm_compute; reflexivity).
    rewrite Hw in Ht. each_member Ht; lia.
Defined.

(** ** The reply of the dispatcher *)

(** The admission check as the dispatcher runs it. *)
Lemma lift_check_run cfg now p :
  PyServer.lift_srv (PyServer.check_rate_limit cfg now "default") p =
  if bool_decide (Z.of_nat (length (recent_calls now p)) >= PyServer.rate_limit cfg)
  then (Raise (Exn "Exception" "Rate limit exceeded. Try again later."),
        PyServer.MkProc (PyServer.touch_window (PyServer.srv p) "default")
          (PyServer.stderr p) (PyServer.os p))
  else (Ok tt,
        PyServer.MkProc
          (PyServer.MkState (PyServer.start_time (PyServer.srv p))
             (PyServer.request_count (PyServer.srv p))
             (<["default" := recent_calls now p ++ [now]]>
                (PyServer.rate_limit_window (PyServer.touch_window (PyServer.srv p) "default"))))
          (PyServer.stderr p) (PyServer.os p)).
Proof.
  unfold PyServer.lift_srv. rewrite check_rate_limit_run. unfold recent_calls.
  by case_bool_decide.
Qed.

(** The call that the rate limiter rejects. *)
Lemma handle_call_tool_limited cfg env now name arguments p :
  Z.of_nat (length (recent_calls now p)) >= PyServer.rate_limit cfg ->
  PyServer.handle_call_tool cfg env now name arguments p
  = (Ok rate_limit_reply,
     after_audit now name PyServer.error (Some {[ "error_code" := "Exception" ]})
       (PyServer.MkProc (PyServer.touch_window (PyServer.srv p) "default")
          (PyServer.stderr p) (PyServer.os p))).
Proof.
  intros Hfull.
  unfold PyServer.handle_call_tool, try_except, PyServer.tool_body.
  unfold mbind at 1, M_bind at 1. rewrite lift_check_run.
  rewrite bool_decide_eq_true_2 by exact Hfull.
  unfold PyServer.on_error, mbind, M_bind. rewrite audit_log_run. reflexivity.
Qed.

(** An admitted call of a path tool runs the branch of that tool. *)
Lemma tool_body_after_admission cfg env now name arguments p :
  ~ Z.of_nat (length (recent_calls now p)) >= PyServer.rate_limit cfg ->
  name ∈ path_tools ->
  PyServer.tool_body cfg env now name arguments p =
  (if bool_decide (name = "read_file_sandboxed")
   then PyServer.read_file_sandboxed cfg env now arguments
   else if bool_decide (name = "write_file_sandboxed")
   then PyServer.write_file_sandboxed cfg env now arguments
   else PyServer.list_directory cfg env now arguments) (after_admission now p).
Proof.
  intros Hfree Hname. unfold PyServer.tool_body.
  unfold mbind at 1, M_bind at 1. rewrite lift_check_run.
  rewrite bool_decide_eq_false_2 by exact Hfree. fold (after_admission now p).
  unfold path_tools in Hname. each_member Hname; pick_tool; reflexivity.
Qed.

(** The reply to a call whose body raised. *)
Lemma handle_call_tool_raised cfg env now name arguments p e p1 :
  PyServer.tool_body cfg env now name arguments p = (Raise e, p1) ->
  PyServer.handle_call_tool cfg env now name arguments p
  = (Ok (PyServer.TextResult (error_text e)),
     after_audit now name PyServer.error (Some {[ "error_code" := exn_class e ]}) p1).
Proof.
  intros Hbody. unfold PyServer.handle_call_tool, try_except. rewrite Hbody.
  unfold PyServer.on_error, mbind, M_bind. rewrite audit_log_run. reflexivity.
Qed.

Lemma handle_call_tool_returned cfg env now name arguments p r p1 :
  PyServer.tool_body cfg env now name arguments p = (Ok r, p1) ->
  PyServer.handle_call_tool cfg env now name arguments p = (Ok r, p1).
Proof.
  intros Hbody. unfold PyServer.handle_call_tool, try_except. by rewrite Hbody.
Qed.

(** ** Creating the parents of a written file *)

Lemma only_mkdir_refl w : only_mkdir w w.
Proof.
  split; [intros q; by left|]. exists []. by rewrite app_nil_r.
Qed.

Lemma only_mkdir_trans w1 w2 w3 :
  only_mkdir w1 w2 -> only_mkdir w2 w3 -> only_mkdir w1 w3.
Proof.
  intros [Hd1 (e1 & Ht1 & Hc1)] [Hd2 (e2 & Ht2 & Hc2)]. split.
  - intros q. destruct (Hd1 q) as [H1|[H1 H1']], (Hd2 q) as [H2|[H2 H2']].
    + left. congruence.
    + right. split; congruence.
    + right. split; congruence.
    + congruence.
  - exists (e1 ++ e2). rewrite Ht2, Ht1, app_assoc. split; [reflexivity|].
    rewrite forallb_app. by rewrite Hc1, Hc2.
Qed.

Lemma node_at_none fs q : node_at fs q = None -> fs !! q = None.
Proof. destruct q; [discriminate | done]. Qed.

Lemma os_mkdir_only env ps w :
  only_mkdir w (snd (os_mkdir env ps w)).
Proof.
  destruct w as [fs tr]. unfold os_mkdir. run_m.
  assert (Hev : only_mkdir (MkOS fs tr) (MkOS fs (tr ++ [EvMkdir ps]))).
  { split; [intros q; by left|]. by exists [EvMkdir ps]. }
  destruct (lookup_nofollow env fs ps) as [err|q]; [exact Hev|].
  destruct (node_at fs q) as [nd|] eqn:Hn; simpl; [exact Hev|].
  apply node_at_none in Hn. split; simpl.
  - intros q'. destruct (decide (q = q')) as [<-|Hne].
    + right. by rewrite lookup_insert_eq.
    + left. by rewrite lookup_insert_ne.
  - by exists [EvMkdir ps].
Qed.

Lemma path_is_dir_only env p w :
  only_mkdir w (snd (path_is_dir env p w)).
Proof.
  destruct w as [fs tr]. unfold path_is_dir. run_m.
  split; [intros q; by left|]. by exists [EvStat (path_str p)].
Qed.

Lemma mkdir_exist_ok_only env p e w :
  only_mkdir w (snd (mkdir_exist_ok env p e w)).
Proof.
  pose proof (path_is_dir_only env p w) as H.
  unfold mkdir_exist_ok, mbind, M_bind.
  destruct (path_is_dir env p w) as [[[]|e'] w']; exact H.
Qed.

Lemma path_mkdir_only env p w :
  only_mkdir w (snd (path_mkdir env p w)).
Proof.
  pose proof (os_mkdir_only env (path_str p) w) as H.
  unfold path_mkdir, try_except.
  destruct (os_mkdir env (path_str p) w) as [[u|e] w']; [exact H|].
  simpl in H. case_bool_decide; [exact H|].
  eapply only_mkdir_trans; [exact H | apply mkdir_exist_ok_only].
Qed.

Lemma path_mkdir_parents_aux_only env n p w :
  only_mkdir w (snd (path_mkdir_parents_aux env n p w)).
Proof.
  revert p w. induction n as [|n IH]; intros p w;
    pose proof (os_mkdir_only env (path_str p) w) as H; simpl; unfold try_except;
    destruct (os_mkdir env (path_str p) w) as [[u|e] w1]; simpl in H; try exact H.
  - case_bool_decide; [exact H|].
    eapply only_mkdir_trans; [exact H | apply mkdir_exist_ok_only].
  - case_bool_decide.
    + case_bool_decide; [exact H|].
      unfold mbind, M_bind. pose proof (IH (path_parent p) w1) as Hup.
      destruct (path_mkdir_parents_aux env n (path_parent p) w1) as [[u|e'] w2];
        simpl in Hup.
      * eapply only_mkdir_trans; [exact H|].
        eapply only_mkdir_trans; [exact Hup | apply path_mkdir_only].
      * eapply only_mkdir_trans; [exact H | exact Hup].
    + eapply only_mkdir_trans; [exact H | apply mkdir_exist_ok_only].
Qed.

Lemma path_mkdir_parents_only env p w :
  only_mkdir w (snd (path_mkdir_parents env p w)).
Proof. apply path_mkdir_parents_aux_only. Qed.

Lemma node_at_snoc fs path name : node_at fs (path ++ [name]) = fs !! (path ++ [name]).
Proof. by destruct path. Qed.

(** A lookup that succeeds meets existing names only: a name that is
    created where none was leaves it as it is. *)
Lemma walk_must_exist_insert fs k nd fuel path rest r :
  fs !! k = None ->
  walk MustExist fs fuel path rest = inr r ->
  walk MustExist (<[k := nd]> fs) fuel path rest = inr r.
Proof.
  intros Hk. revert path rest.
  induction fuel as [|fuel IHf]; intros path rest; revert path;
    (induction rest as [|name rest IH]; intros path; [by rewrite !walk_nil|]);
    rewrite !walk_cons;
    (destruct (is_skipped name); [apply IH|]);
    (case_bool_decide; [apply IH|]);
    (destruct (decide (k = path ++ [name])) as [->|Hne];
      [rewrite Hk; by destruct rest | rewrite lookup_insert_ne by done]);
    (destruct (fs !! (path ++ [name])) as [[c| |t]|];
      [destruct rest; [by rewrite !walk_nil | done] | apply IH | | by destruct rest]).
  - done.
  - apply IHf.
Qed.

(** A lookup that ends in a directory goes on from there. *)
Lemma walk_must_exist_app fs fuel path xs ys r :
  walk MustExist fs fuel path xs = inr r ->
  node_at fs r = Some Dir ->
  exists fuel', walk MustExist fs fuel path (xs ++ ys) = walk MustExist fs fuel' r ys.
Proof.
  intros Hw Hdir. revert path xs Hw.
  induction fuel as [|fuel IHf]; intros path xs; revert path;
    (induction xs as [|name xs IH]; intros path;
     [rewrite walk_nil; intros [= <-]; by eexists|]);
    rewrite <- app_comm_cons, !walk_cons;
    (destruct (is_skipped name); [apply IH|]);
    (case_bool_decide; [apply IH|]);
    (destruct (fs !! (path ++ [name])) as [[c| |t]|] eqn:Hn;
      [destruct xs as [|x xs]; [|done];
       rewrite walk_nil; intros [= <-]; rewrite node_at_snoc in Hdir; congruence
      | apply IH | | by destruct xs]).
  - done.
  - intros Hw. destruct (IHf _ _ Hw) as [fuel' Hf]. exists fuel'. by rewrite app_assoc.
Qed.

Lemma components_not_skipped s name : name ∈ components s -> is_skipped name = false.
Proof.
  unfold components. rewrite list_elem_of_In. intros Hin.
  apply filter_In in Hin as [_ Hin]. by apply negb_true_iff.
Qed.

(** What [os.mkdir] answers. *)
Lemma os_mkdir_run env ps fs tr :
  os_mkdir env ps (MkOS fs tr) =
  match lookup_nofollow env fs ps with
  | inl err => (Raise (os_error err ps), MkOS fs (tr ++ [EvMkdir ps]))
  | inr q =>
      match node_at fs q with
      | Some _ => (Raise (Exn "FileExistsError" ("[Errno 17] File exists: '" +:+ ps +:+ "'")),
                   MkOS fs (tr ++ [EvMkdir ps]))
      | None => (Ok tt, MkOS (<[q := Dir]> fs) (tr ++ [EvMkdir ps]))
      end
  end.
Proof.
  unfold os_mkdir. run_m. destruct (lookup_nofollow env fs ps) as [err|q]; [reflexivity|].
  by destruct (node_at fs q).
Qed.

(** The free name at which [mkdir(2)] creates a directory is where a
    lookup of the same path arrives afterwards. *)
Lemma lookup_nofollow_created env fs ps q :
  lookup_nofollow env fs ps = inr q ->
  node_at fs q = None ->
  lookup_path MustExist env (<[q := Dir]> fs) ps = inr q.
Proof.
  unfold lookup_nofollow, lookup_path. intros Hl Hfree.
  destruct (last (components ps)) as [name|] eqn:Hlast.
  2:{ destruct (node_at fs _) eqn:Hn; [|discriminate]. injection Hl as <-. congruence. }
  case_bool_decide as Hup.
  { destruct (walk MustExist fs max_symlinks _ (components ps)) as [err|q']; [discriminate|].
    destruct (node_at fs q') eqn:Hn; [|discriminate]. injection Hl as <-. congruence. }
  destruct (walk MustExist fs max_symlinks _ (removelast (components ps)))
    as [err|parent] eqn:Hw; [discriminate|].
  destruct (node_at fs parent) as [[c| |t]|] eqn:Hp; try discriminate.
  injection Hl as <-. apply node_at_none in Hfree.
  pose proof (last_Some_elem_of _ _ Hlast) as Hin. apply components_not_skipped in Hin.
  apply last_Some in Hlast as [l' Hcs]. rewrite Hcs in *. rewrite removelast_last in Hw.
  apply (walk_must_exist_insert _ (parent ++ [name]) Dir) in Hw; [|exact Hfree].
  assert (Hp' : node_at (<[parent ++ [name] := Dir]> fs) parent = Some Dir).
  { destruct parent as [|x parent]; [reflexivity|].
    cbn [node_at] in *. rewrite lookup_insert_ne; [exact Hp|].
    intros Heq. apply (f_equal length) in Heq. rewrite length_app in Heq. simpl in Heq. lia. }
  destruct (walk_must_exist_app _ _ _ _ [name] _ Hw Hp') as [fuel' ->].
  rewrite walk_cons, Hin, bool_decide_eq_false_2 by exact Hup.
  rewrite lookup_insert_eq. apply walk_nil.
Qed.

Lemma os_mkdir_ok env ps w w' :
  os_mkdir env ps w = (Ok tt, w') ->
  is_dir_at env (os_fs w') ps = true /\ dir_created (os_fs w) (os_fs w').
Proof.
  destruct w as [fs tr]. rewrite os_mkdir_run.
  destruct (lookup_nofollow env fs ps) as [err|q] eqn:Hl; [discriminate|].
  destruct (node_at fs q) as [nd|] eqn:Hn; [discriminate|]. intros [= <-].
  cbn [os_fs]. split.
  - unfold is_dir_at. rewrite (lookup_nofollow_created _ _ _ _ Hl Hn).
    destruct q as [|x q]; [reflexivity|]. cbn [node_at]. by rewrite lookup_insert_eq.
  - exists q. split; [by apply node_at_none | by rewrite lookup_insert_eq].
Qed.

Lemma os_mkdir_raised env ps w e w' :
  os_mkdir env ps w = (Raise e, w') -> os_fs w' = os_fs w.
Proof.
  destruct w as [fs tr]. rewrite os_mkdir_run.
  destruct (lookup_nofollow env fs ps) as [err|q]; [by intros [= _ <-]|].
  destruct (node_at fs q); [by intros [= _ <-] | discriminate].
Qed.

(** A directory that was created remains while directories are added. *)
Lemma dir_created_then_added fs1 fs2 fs3 :
  dir_created fs1 fs2 -> dirs_added fs2 fs3 -> dir_created fs1 fs3.
Proof.
  intros (q & Hnone & Hdir) Hadd. exists q. split; [exact Hnone|].
  destruct (Hadd q) as [Heq|[Hn _]]; congruence.
Qed.

Lemma mkdir_exist_ok_ok env p e w w' :
  mkdir_exist_ok env p e w = (Ok tt, w') ->
  is_dir_at env (os_fs w') (path_str p) = true /\ os_fs w' = os_fs w.
Proof.
  destruct w as [fs tr]. unfold mkdir_exist_ok, path_is_dir. run_m.
  destruct (is_dir_at env fs (path_str p)) eqn:Hd; [|discriminate].
  intros [= <-]. by split.
Qed.

(** When [Path.mkdir(exist_ok=True)] returns, the path is a directory, and
    it was one before unless a directory was created. *)
Lemma path_mkdir_ok env p w w' :
  path_mkdir env p w = (Ok tt, w') ->
  is_dir_at env (os_fs w') (path_str p) = true /\
  (os_fs w' = os_fs w \/ dir_created (os_fs w) (os_fs w')).
Proof.
  unfold path_mkdir, try_except.
  destruct (os_mkdir env (path_str p) w) as [[[]|e] w1] eqn:Hmk.
  - intros [= <-]. apply os_mkdir_ok in Hmk as [Hd Hc]. split; [exact Hd | by right].
  - apply os_mkdir_raised in Hmk. case_bool_decide; [discriminate|].
    intros Hok. apply mkdir_exist_ok_ok in Hok as [Hd Hsame].
    split; [exact Hd | left; congruence].
Qed.

Lemma path_mkdir_parents_aux_ok env n p w w' :
  path_mkdir_parents_aux env n p w = (Ok tt, w') ->
  is_dir_at env (os_fs w') (path_str p) = true /\
  (os_fs w' = os_fs w \/ dir_created (os_fs w) (os_fs w')).
Proof.
  revert p w w'. induction n as [|n IH]; intros p w w';
    cbn [path_mkdir_parents_aux]; unfold try_except;
    destruct (os_mkdir env (path_str p) w) as [[[]|e] w1] eqn:Hmk;
    try (intros [= <-]; apply os_mkdir_ok in Hmk as [Hd Hc]; split; [exact Hd | by right]);
    apply os_mkdir_raised in Hmk.
  - case_bool_decide; [discriminate|].
    intros Hok. apply mkdir_exist_ok_ok in Hok as [Hd Hsame].
    split; [exact Hd | left; congruence].
  - case_bool_decide.
    + case_bool_decide; [discriminate|]. unfold mbind, M_bind.
      destruct (path_mkdir_parents_aux env n (path_parent p) w1) as [[[]|e'] w2] eqn:Hrec;
        [|discriminate].
      apply IH in Hrec as [_ Hrec]. intros Hlast.
      pose proof (path_mkdir_only env p w2) as [Hadd _]. rewrite Hlast in Hadd.
      cbn [snd] in Hadd.
      apply path_mkdir_ok in Hlast as [Hd Hc]. split; [exact Hd|].
      rewrite <- Hmk. destruct Hrec as [Hsame1|Hc1].
      * rewrite <- Hsame1. exact Hc.
      * right. by apply (dir_created_then_added _ (os_fs w2)).
    + intros Hok. apply mkdir_exist_ok_ok in Hok as [Hd Hsame].
      split; [exact Hd | left; congruence].
Qed.

(** When [Path.mkdir(parents=True, exist_ok=True)] returns, the path is a
    directory; when it was none before, a directory was created. *)
Lemma path_mkdir_parents_ok env p w w' :
  path_mkdir_parents env p w = (Ok tt, w') ->
  is_dir_at env (os_fs w') (path_str p) = true /\
  (is_dir_at env (os_fs w) (path_str p) = false -> dir_created (os_fs w) (os_fs w')).
Proof.
  intros Hok. apply path_mkdir_parents_aux_ok in Hok as [Hd [Hsame|Hc]].
  - split; [exact Hd|]. rewrite <- Hsame. congruence.
  - by split.
Qed.

(** The write branch up to the decoding of base64 content. *)
Lemma write_file_sandboxed_base64_run cfg env now arguments p path content safe_path :
  PyServer.write_file_params arguments = Ok (PyServer.MkWrite path content PyServer.base64) ->
  PyServer.validate_path cfg env (os_fs (PyServer.os p)) path = Ok safe_path ->
  PyServer.write_file_sandboxed cfg env now arguments p =
  match path_mkdir_parents env (path_parent safe_path) (PyServer.os p) with
  | (Raise e, w1) => (Raise e, with_os w1 p)
  | (Ok _, w1) =>
      match Base64.b64decode content with
      | Raise e => (Raise e, with_os w1 p)
      | Ok data =>
          match os_write env (path_str safe_path) data w1 with
          | (Raise e, w2) => (Raise e, with_os w2 p)
          | (Ok _, w2) =>
              (Ok (PyServer.TextResult ("File written successfully: " +:+ path)),
               after_audit now "write_file_sandboxed" PyServer.success
                 (Some {[ "path" := path ]}) (with_os w2 p))
          end
      end
  end.
Proof.
  intros Hparams Hvalid.
  unfold PyServer.write_file_sandboxed, PyServer.validate_path_now, PyServer.lift_result.
  unfold mbind at 1, M_bind at 1. rewrite Hparams.
  unfold mbind at 1, M_bind at 1. unfold mbind at 1, M_bind at 1, get_state.
  simpl PyServer.w_path. rewrite Hvalid.
  unfold mbind at 1, M_bind at 1. unfold PyServer.lift_os at 1.
  destruct (path_mkdir_parents env (path_parent safe_path) (PyServer.os p)) as [[u|e] w1];
    [|reflexivity].
  simpl PyServer.w_encoding. simpl PyServer.w_content.
  unfold mbind at 1, M_bind at 1. unfold mbind at 1, M_bind at 1.
  destruct (Base64.b64decode content) as [data|e]; [|reflexivity].
  unfold PyServer.lift_os. simpl PyServer.os.
  destruct (os_write env (path_str safe_path) data w1) as [[u'|e] w2]; [|reflexivity].
  unfold mbind, M_bind, mret, M_ret. rewrite audit_log_run. reflexivity.
Qed.

(** C10. In the write branch the parents of the validated path are created
    before the content is decoded. When base64 content fails to decode, a
    call that the rate limiter lets through is answered by an error and
    leaves the file system exactly as [mkdir(parents=True, exist_ok=True)]
    on the parent of the validated path left it: no file was created or
    changed and no content was written. The path and the links of the file
    system are within the limits of the kernel on the length of names and
    paths, which the model leaves out. When the creation of the parents
    succeeded the reply is the decoding error, the parent is a directory
    after the call, and when it was none before, a directory that did not
    exist was created and remains; when the creation failed the reply is
    its error. The sample request below leaves two new directories behind. *)
Theorem C10_parents_created_before_decode :
  (forall cfg env now arguments p path content safe_path e,
      PyServer.write_file_params arguments
      = Ok (PyServer.MkWrite path content PyServer.base64) ->
      PyServer.validate_path cfg env (proc_fs p) path = Ok safe_path ->
      within_limits (proc_fs p) (path_str safe_path) = true ->
      Base64.b64decode content = Raise e ->
      Z.of_nat (length (recent_calls now p)) < PyServer.rate_limit cfg ->
      let parent := path_parent safe_path in
      let made := path_mkdir_parents env parent (PyServer.os p) in
      let call := PyServer.handle_call_tool cfg env now "write_file_sandboxed" arguments p in
      PyServer.os (snd call) = snd made /\
      only_mkdir (PyServer.os p) (snd made) /\
      (forall q c, proc_fs (snd call) !! q = Some (File c) <->
                   proc_fs p !! q = Some (File c)) /\
      (forall e', fst made = Raise e' ->
                  fst call = Ok (PyServer.TextResult (error_text e'))) /\
      (fst made = Ok tt ->
       fst call = Ok (PyServer.TextResult (error_text e)) /\
       is_dir_at env (proc_fs (snd call)) (path_str parent) = true /\
       (is_dir_at env (proc_fs p) (path_str parent) = false ->
        dir_created (proc_fs p) (proc_fs (snd call))))) /\
  (let call := PyServer.handle_call_tool (sample_cfg 6) sample_env 0 "write_file_sandboxed"
                 (write_args "/allowed/a/b/c.txt" "A" "base64") sample_proc in
   fst call = Ok (PyServer.TextResult
                    "Error: Invalid base64-encoded string: number of data characters (1) cannot be 1 more than a multiple of 4") /\
   sample_fs !! ["allowed"; "a"] = None /\
   sample_fs !! ["allowed"; "a"; "b"] = None /\
   proc_fs (snd call) !! ["allowed"; "a"] = Some Dir /\
   proc_fs (snd call) !! ["allowed"; "a"; "b"] = Some Dir /\
   proc_fs (snd call) !! ["allowed"; "a"; "b"; "c.txt"] = None).
Proof.
  split.
  - intros cfg env now arguments p path content safe_path e Hparams Hvalid _ Hdec Hfree
      parent made call.
    pose proof (path_mkdir_parents_only env parent (PyServer.os p)) as Honly.
    pose proof (path_mkdir_parents_ok env parent (PyServer.os p)) as Hok.
    assert (Hbody : PyServer.tool_body cfg env now "write_file_sandboxed" arguments p =
                    (Raise (match fst made with Ok _ => e | Raise e' => e' end),
                     with_os (snd made) (after_admission now p))).
    { rewrite tool_body_after_admission; [|lia|unfold path_tools; right; left].
      rewrite (bool_decide_eq_false_2 ("write_file_sandboxed" = "read_file_sandboxed"))
        by discriminate.
      rewrite bool_decide_eq_true_2 by reflexivity.
      rewrite (write_file_sandboxed_base64_run cfg env now arguments (after_admission now p)
                 path content safe_path Hparams Hvalid), Hdec.
      change (PyServer.os (after_admission now p)) with (PyServer.os p).
      fold parent. fold made. by destruct made as [[[]|e'] w1]. }
    subst call. rewrite (handle_call_tool_raised _ _ _ _ _ _ _ _ Hbody).
    fold made in Honly, Hok. destruct made as [[[]|e'] w1]; cbn [fst snd] in *.
    + split; [reflexivity|]. split; [exact Honly|]. split; [|split; [discriminate|]].
      * intros q c. destruct Honly as [Hd _]. unfold proc_fs; cbn.
        destruct (Hd q) as [Heq|[Hnone Hdir]]; [by rewrite Heq|].
        rewrite Hnone, Hdir. split; discriminate.
      * intros _. split; [reflexivity|]. by apply Hok.
    + split; [reflexivity|]. split; [exact Honly|]. split; [|split; [|discriminate]].
      * intros q c. destruct Honly as [Hd _]. unfold proc_fs; cbn.
        destruct (Hd q) as [Heq|[Hnone Hdir]]; [by rewrite Heq|].
        rewrite Hnone, Hdir. split; discriminate.
      * by intros e0 [= <-].
  - vm_compute. repeat split.
Qed.

Lemma C10_parents_created_before_decode_witness :
  let call := PyServer.handle_call_tool (sample_cfg 6) sample_env 0 "write_file_sandboxed"
                (write_args "/allowed/a/b/c.txt" "A" "base64") sample_proc in
  fst call = Ok (PyServer.TextResult
                   "Error: Invalid base64-encoded string: number of data characters (1) cannot be 1 more than a multiple of 4") /\
  is_dir_at sample_env (proc_fs (snd call)) "/allowed/a/b" = true /\
  dir_created (proc_fs sample_proc) (proc_fs (snd call)).
Proof.
  intros call.
  destruct (proj1 C10_parents_created_before_decode (sample_cfg 6) sample_env 0
              (write_args "/allowed/a/b/c.txt" "A" "base64") sample_proc
              "/allowed/a/b/c.txt" "A" (MkPath "/" ["allowed"; "a"; "b"; "c.txt"])
              (Exn "Error"
                 "Invalid base64-encoded string: number of data characters (1) cannot be 1 more than a multiple of 4"))
    as (_ & _ & _ & _ & Hmade).
  - vm_compute. reflexivity.
  - vm_compute. reflexivity.
  - vm_compute. reflexivity.
  - vm_compute. reflexivity.
  - vm_compute. reflexivity.
  - destruct Hmade as (Hreply & Hdir & Hcreated); [vm_compute; reflexivity|].
    split; [exact Hreply|]. split; [exact Hdir|].
    apply Hcreated. vm_compute. reflexivity.
Defined.

(** ** The dispatcher audits every call once *)

Lemma quiet_bind {A B} (m : M PyServer.Proc A) (f : A -> M PyServer.Proc B) :
  quiet m -> (forall a, quiet (f a)) -> quiet (m ≫= f).
Proof.
  intros Hm Hf p. unfold mbind, M_bind. specialize (Hm p).
  destruct (m p) as [[a|e] p1]; simpl in Hm; [|exact Hm].
  specialize (Hf a p1). destruct Hm as [Hm1 Hm2]. by rewrite <- Hm1, <- Hm2.
Qed.

Lemma quiet_ret {A} (a : A) : quiet (mret a : M PyServer.Proc A).
Proof. intros p. by split. Qed.

Lemma quiet_raise {A} e : quiet (raise e : M PyServer.Proc A).
Proof. intros p. by split. Qed.

Lemma quiet_get : quiet (get_state : M PyServer.Proc PyServer.Proc).
Proof. intros p. by split. Qed.

Lemma quiet_lift_result {A} (r : result A) :
  quiet (PyServer.lift_result r : M PyServer.Proc A).
Proof. intros p. by split. Qed.

Lemma quiet_lift_os {A} (m : M OS A) : quiet (PyServer.lift_os m).
Proof. intros p. unfold PyServer.lift_os. by destruct (m (PyServer.os p)). Qed.

Lemma quiet_check_rate_limit cfg now c :
  quiet (PyServer.lift_srv (PyServer.check_rate_limit cfg now c)).
Proof.
  intros p. unfold PyServer.lift_srv. rewrite check_rate_limit_run. simpl.
  case_bool_decide; simpl; (split; [reflexivity|]); [|reflexivity].
  unfold PyServer.touch_window.
  by destruct (PyServer.rate_limit_window (PyServer.srv p) !! c).
Qed.

Lemma quiet_m_map {A B} (f : A -> M PyServer.Proc B) l :
  (forall a, quiet (f a)) -> quiet (PyServer.m_map f l).
Proof.
  intros Hf. induction l as [|x l IH]; simpl; [apply quiet_ret|].
  apply quiet_bind; [apply Hf|]. intros y.
  apply quiet_bind; [exact IH|]. intros ys. apply quiet_ret.
Qed.

Lemma quiet_validate cfg env path : quiet (PyServer.validate_path_now cfg env path).
Proof.
  unfold PyServer.validate_path_now. apply quiet_bind; [apply quiet_get|].
  intros p. apply quiet_lift_result.
Qed.

Lemma audits_bind_quiet {A B} (m : M PyServer.Proc A) (f : A -> M PyServer.Proc B) :
  quiet m -> (forall a, audits_on_return (f a)) -> audits_on_return (m ≫= f).
Proof.
  intros Hm Hf p. unfold mbind, M_bind. specialize (Hm p).
  destruct (m p) as [[a|e] p1]; simpl in Hm; [|exact Hm].
  specialize (Hf a p1). destruct Hm as [Hm1 Hm2].
  destruct (f a p1) as [[b|e] p2]; by rewrite <- Hm1, <- Hm2.
Qed.

Lemma audits_raise {A} e : audits_on_return (raise e : M PyServer.Proc A).
Proof. intros p. by split. Qed.

Lemma audits_log_ret {A} now tool details (a : A) :
  audits_on_return (PyServer.audit_log now tool PyServer.success details ≫= fun _ => mret a).
Proof.
  intros p. unfold mbind, M_bind. rewrite audit_log_run. simpl.
  eexists. split; [reflexivity|]. by repeat split.
Qed.

Lemma audits_read cfg env now arguments :
  audits_on_return (PyServer.read_file_sandboxed cfg env now arguments).
Proof.
  unfold PyServer.read_file_sandboxed.
  apply audits_bind_quiet; [apply quiet_lift_result|]. intros params.
  apply audits_bind_quiet; [apply quiet_validate|]. intros safe_path.
  apply audits_bind_quiet; [apply quiet_lift_os|]. intros st.
  case_bool_decide; [apply audits_raise|].
  apply audits_bind_quiet; [|intros content; apply audits_log_ret].
  destruct (PyServer.r_encoding params).
  - apply quiet_bind; [apply quiet_lift_os|]. intros data. apply quiet_lift_result.
  - apply quiet_bind; [apply quiet_lift_os|]. intros data. apply quiet_ret.
Qed.

Lemma audits_write cfg env now arguments :
  audits_on_return (PyServer.write_file_sandboxed cfg env now arguments).
Proof.
  unfold PyServer.write_file_sandboxed.
  apply audits_bind_quiet; [apply quiet_lift_result|]. intros params.
  apply audits_bind_quiet; [apply quiet_validate|]. intros safe_path.
  apply audits_bind_quiet; [apply quiet_lift_os|]. intros _.
  apply audits_bind_quiet; [|intros u; apply audits_log_ret].
  destruct (PyServer.w_encoding params).
  - apply quiet_lift_os.
  - apply quiet_bind; [apply quiet_lift_result|]. intros data. apply quiet_lift_os.
Qed.

Lemma audits_list cfg env now arguments :
  audits_on_return (PyServer.list_directory cfg env now arguments).
Proof.
  unfold PyServer.list_directory.
  apply audits_bind_quiet; [apply quiet_lift_result|]. intros params.
  apply audits_bind_quiet; [apply quiet_validate|]. intros safe_path.
  apply audits_bind_quiet; [apply quiet_lift_os|]. intros d.
  destruct (negb d); [apply audits_raise|].
  apply audits_bind_quiet; [apply quiet_lift_os|]. intros names.
  apply audits_bind_quiet; [|intros items; apply audits_log_ret].
  apply quiet_m_map. intros name.
  apply quiet_bind; [apply quiet_lift_os|]. intros isd. apply quiet_ret.
Qed.

Lemma audits_tool_body cfg env now name arguments :
  audits_on_return (PyServer.tool_body cfg env now name arguments).
Proof.
  unfold PyServer.tool_body.
  apply audits_bind_quiet; [apply quiet_check_rate_limit|]. intros _.
  repeat case_bool_decide.
  - apply audits_bind_quiet; [apply quiet_get|]. intros p. apply audits_log_ret.
  - apply audits_log_ret.
  - apply audits_read.
  - apply audits_write.
  - apply audits_list.
  - apply audits_raise.
Qed.

Lemma logged_error_code cls :
  PyServer.logged_details (Some {[ "error_code" := cls ]})
  = Some ({[ "error_code" := cls ]} : gmap string string).
Proof.
  unfold PyServer.logged_details.
  rewrite bool_decide_eq_false_2 by apply insert_non_empty.
  unfold PyServer.safe_details_of.
  rewrite lookup_singleton_eq, lookup_singleton_ne by done.
  by rewrite insert_empty.
Qed.

Lemma handle_call_tool_once cfg env now name arguments p :
  exists resp entry p',
    PyServer.handle_call_tool cfg env now name arguments p = (Ok resp, p') /\
    PyServer.stderr p' = PyServer.stderr p ++ [entry] /\
    PyServer.request_number entry = PyServer.request_count (PyServer.srv p) + 1 /\
    PyServer.request_count (PyServer.srv p')
    = PyServer.request_count (PyServer.srv p) + 1 /\
    match fst (PyServer.tool_body cfg env now name arguments p) with
    | Ok r => resp = r /\ PyServer.entry_outcome entry = PyServer.success
    | Raise e =>
        resp = PyServer.TextResult (error_text e) /\
        PyServer.entry_outcome entry = PyServer.error /\
        PyServer.tool entry = name /\
        PyServer.details entry = Some {[ "error_code" := exn_class e ]}
    end.
Proof.
  pose proof (audits_tool_body cfg env now name arguments p) as Hbody.
  unfold PyServer.handle_call_tool, try_except.
  destruct (PyServer.tool_body cfg env now name arguments p) as [[r|e] p1]; simpl.
  - destruct Hbody as (entry & Hlog & Hout & Hnum & Hcount).
    exists r, entry, p1. by repeat split.
  - destruct Hbody as [Hlog Hcount].
    unfold PyServer.on_error, mbind, M_bind. rewrite audit_log_run.
    unfold after_audit. rewrite logged_error_code, Hlog, Hcount.
    eexists _, _, _. split; [reflexivity|]. simpl. by repeat split.
Qed.

(** C7. Every call of the dispatcher returns a reply, whatever the tool,
    the arguments and the state: an exception raised inside the pipeline is
    caught and answered by an error text, recorded with the name of its
    class. The audit recorder runs exactly once per call on either path, and
    the entry carries the process-wide sequence number, which grows by
    exactly one with every entry and is never reset. *)
Theorem C7_every_call_answered_and_audited_once :
  (forall cfg env now name arguments p,
      exists resp entry p',
        PyServer.handle_call_tool cfg env now name arguments p = (Ok resp, p') /\
        PyServer.stderr p' = PyServer.stderr p ++ [entry] /\
        PyServer.request_number entry = PyServer.request_count (PyServer.srv p) + 1 /\
        PyServer.request_count (PyServer.srv p')
        = PyServer.request_count (PyServer.srv p) + 1 /\
        match fst (PyServer.tool_body cfg env now name arguments p) with
        | Ok r => resp = r /\ PyServer.entry_outcome entry = PyServer.success
        | Raise e =>
            resp = PyServer.TextResult (error_text e) /\
            PyServer.entry_outcome entry = PyServer.error /\
            PyServer.tool entry = name /\
            PyServer.details entry = Some {[ "error_code" := exn_class e ]}
        end) /\
  (forall cfg env reqs p,
      exists entries,
        PyServer.stderr (serve cfg env reqs p) = PyServer.stderr p ++ entries /\
        map PyServer.request_number entries
        = map (fun i => PyServer.request_count (PyServer.srv p) + Z.of_nat i)
              (seq 1 (length reqs)) /\
        PyServer.request_count (PyServer.srv (serve cfg env reqs p))
        = PyServer.request_count (PyServer.srv p) + Z.of_nat (length reqs)).
Proof.
  split; [exact handle_call_tool_once|].
  intros cfg env reqs. induction reqs as [|r rest IH]; intros p.
  - exists []. simpl. rewrite app_nil_r. split; [reflexivity|]. split; [reflexivity|]. lia.
  - simpl serve.
    destruct (handle_call_tool_once cfg env (req_time r) (req_name r) (req_arguments r) p)
      as (resp & entry & p' & Hrun & Hlog & Hnum & Hcount & _).
    rewrite Hrun. simpl snd.
    destruct (IH p') as (entries & Hlogs & Hnums & Hcounts).
    exists (entry :: entries). rewrite Hlogs, Hlog, <- app_assoc. split; [reflexivity|].
    split.
    + simpl. f_equal; [rewrite Hnum; lia|].
      rewrite Hnums, <- (seq_shift (length rest) 1), map_map.
      apply map_ext. intros i. rewrite Hcount. lia.
    + rewrite Hcounts, Hcount. simpl length. lia.
Qed.

(** ** Paths that begin with the home shorthand *)

Lemma expand_path_tilde env fs rest :
  PyServer.expand_path env fs ("~/" +:+ rest) = Ok (path_join (path_home env) rest).
Proof.
  unfold PyServer.expand_path.
  assert (Hs : startswith ("~/" +:+ rest) "~/" = true) by (apply startswith_spec; by exists rest).
  by rewrite Hs.
Qed.

(** C2, at its failing input. [expand_path] never resolves a path that
    begins with the home shorthand: it joins the rest to the home directory
    and keeps every [..] and every symbolic link. With the AllowList
    [~/Desktop], the request [~/Desktop/../../../etc/passwd] is accepted on
    its unresolved form although it resolves to [/etc/passwd], outside the
    AllowList, and so is a path through a symbolic link inside the allowed
    directory; the dispatcher then returns the content of the outside file.
    The helper of the fs-sandbox extension, which resolves before it
    compares, refuses both requests. *)
Theorem C2_home_shorthand_is_not_resolved :
  (forall env fs rest,
      PyServer.expand_path env fs ("~/" +:+ rest) = Ok (path_join (path_home env) rest)) /\
  (let accepted := MkPath "/" ["home"; "user"; "Desktop"; ".."; ".."; ".."; "etc"; "passwd"] in
   PyServer.validate_path home_cfg sample_env home_fs "~/Desktop/../../../etc/passwd"
   = Ok accepted /\
   path_resolve sample_env home_fs accepted = Ok (MkPath "/" ["etc"; "passwd"]) /\
   is_relative_to (MkPath "/" ["etc"; "passwd"]) (MkPath "/" ["home"; "user"; "Desktop"])
   = false /\
   fst (PyServer.handle_call_tool home_cfg sample_env 0 "read_file_sandboxed"
          (path_args "~/Desktop/../../../etc/passwd") home_proc)
   = Ok (PyServer.TextResult "root:x:0:0")) /\
  (let accepted := MkPath "/" ["home"; "user"; "Desktop"; "link"; "passwd"] in
   PyServer.validate_path home_cfg sample_env home_fs "~/Desktop/link/passwd" = Ok accepted /\
   path_resolve sample_env home_fs accepted = Ok (MkPath "/" ["etc"; "passwd"]) /\
   fst (PyServer.handle_call_tool home_cfg sample_env 0 "read_file_sandboxed"
          (path_args "~/Desktop/link/passwd") home_proc)
   = Ok (PyServer.TextResult "root:x:0:0")) /\
  (FsSandbox.resolve (canonical sample_env home_fs) ["~/Desktop"]
     "~/Desktop/../../../etc/passwd"
   = Raise (SandboxError "Path not within allowed directories") /\
   FsSandbox.resolve (canonical sample_env home_fs) ["~/Desktop"] "~/Desktop/link/passwd"
   = Raise (SandboxError "Path not within allowed directories") /\
   PyServer.validate_path home_cfg sample_env home_fs "/home/user/Desktop/link/passwd"
   = Raise (Exn "PermissionError" "Path outside sandbox: /home/user/Desktop/link/passwd")).
Proof.
  split; [exact expand_path_tilde|].
  split; [|split]; vm_compute; repeat split.
Qed.

(** ** The AllowList parser *)

Lemma comma_split_spec raw x :
  x ∈ comma_split raw <->
  x <> "" /\ exists seg, seg ∈ split_on "," raw /\ x = strip seg.
Proof.
  unfold comma_split. rewrite list_elem_of_omap. split.
  - intros (seg & Hin & Hx). case_bool_decide; [discriminate|].
    injection Hx as <-. split; [done|]. by exists seg.
  - intros (Hne & seg & Hin & ->). exists seg. split; [done|].
    by rewrite bool_decide_eq_false_2.
Qed.

Lemma map_py_str_strings l : map py_str (map JStr l) = l.
Proof. induction l as [|x l IH]; simpl; [reflexivity | by rewrite IH]. Qed.

(** C8, with its failing input. The parser of the fs-sandbox extension is
    the two-branch parser of the claim: absent or empty input gives the
    empty AllowList, a JSON array gives its elements (an array of strings,
    those strings), and every other input, well-formed JSON that is not an
    array included, is split on commas, stripped, and freed of empty
    segments. The parser of the ffprobe-lite extension has no fallback for
    well-formed JSON that is not an array: it answers the empty AllowList,
    as for the configuration [123], where the sibling answers [["123"]]. *)
Theorem C8_two_branch_parser :
  (FsSandboxConfig.parse_allowed None = [] /\
   FsSandboxConfig.parse_allowed (Some "") = [] /\
   FfprobeLiteConfig.parse_allowed None = [] /\
   FfprobeLiteConfig.parse_allowed (Some "") = []) /\
  (forall raw l,
      raw <> "" -> json_loads raw = Some (JArr (map JStr l)) ->
      FsSandboxConfig.parse_allowed (Some raw) = l /\
      FfprobeLiteConfig.parse_allowed (Some raw) = map JStr l) /\
  (forall raw,
      raw <> "" -> (forall arr, json_loads raw <> Some (JArr arr)) ->
      FsSandboxConfig.parse_allowed (Some raw) = comma_split raw) /\
  (forall raw x,
      x ∈ comma_split raw <->
      x <> "" /\ exists seg, seg ∈ split_on "," raw /\ x = strip seg) /\
  (forall raw,
      raw <> "" -> json_loads raw = None ->
      FfprobeLiteConfig.parse_allowed (Some raw) = map JStr (comma_split raw)) /\
  (forall raw v,
      raw <> "" -> json_loads raw = Some v -> is_array v = false ->
      FfprobeLiteConfig.parse_allowed (Some raw) = []) /\
  (json_loads "123" = Some (JInt 123) /\
   FsSandboxConfig.parse_allowed (Some "123") = ["123"] /\
   comma_split "123" = ["123"] /\
   FfprobeLiteConfig.parse_allowed (Some "123") = []).
Proof.
  split; [by repeat split|].
  split; [|split; [|split; [|split; [|split]]]].
  - intros raw l Hne Hj. destruct raw as [|a raw]; [done|].
    unfold FsSandboxConfig.parse_allowed, FfprobeLiteConfig.parse_allowed.
    rewrite Hj. by rewrite map_py_str_strings.
  - intros raw Hne Hj. destruct raw as [|a raw]; [done|].
    unfold FsSandboxConfig.parse_allowed.
    destruct (json_loads (String a raw)) as [[]|]; try reflexivity.
    by edestruct Hj.
  - exact comma_split_spec.
  - intros raw Hne Hj. destruct raw as [|a raw]; [done|].
    unfold FfprobeLiteConfig.parse_allowed. by rewrite Hj.
  - intros raw v Hne Hj Hv. destruct raw as [|a raw]; [done|].
    unfold FfprobeLiteConfig.parse_allowed. rewrite Hj.
    by destruct v.
  - vm_compute. by repeat split.
Qed.

Lemma C8_two_branch_parser_witness :
  FsSandboxConfig.parse_allowed (Some "/srv/media, /tmp/in ,,") = ["/srv/media"; "/tmp/in"] /\
  FsSandboxConfig.parse_allowed (Some "null") = ["null"] /\
  FfprobeLiteConfig.parse_allowed (Some "null") = [] /\
  FfprobeLiteConfig.parse_allowed (Some "/srv/media, /tmp/in ,,")
  = [JStr "/srv/media"; JStr "/tmp/in"].
Proof.
  destruct C8_two_branch_parser as (_ & _ & Hsplit & _ & Hfallback & Hempty & _).
  split; [|split; [|split]].
  - rewrite Hsplit; [vm_compute; reflexivity | done |].
    intros arr. vm_compute. discriminate.
  - rewrite Hsplit; [vm_compute; reflexivity | done |].
    intros arr. vm_compute. discriminate.
  - apply (Hempty "null" JNull); [done | vm_compute; reflexivity | reflexivity].
  - rewrite Hfallback; [vm_compute; reflexivity | done | vm_compute; reflexivity].
Defined.

(** ** Redaction in the audit log *)

Lemma hex8_length x : String.length (SHA256.hex8 x) = 8%nat.
Proof. reflexivity. Qed.

Lemma hexdigest_length s : String.length (SHA256.hexdigest s) = 64%nat.
Proof.
  unfold SHA256.hexdigest, SHA256.hex_of.
  rewrite !length_app_str, !hex8_length. reflexivity.
Qed.

Lemma take_chars_length n s :
  (n <= String.length s)%nat -> String.length (take_chars n s) = n.
Proof.
  revert s. induction n as [|n IH]; intros s Hn; [reflexivity|].
  destruct s as [|a s]; simpl in *; [lia|]. rewrite IH; [reflexivity | lia].
Qed.

Lemma path_hash_length path : String.length (path_hash_of path) = 8%nat.
Proof.
  unfold path_hash_of. apply take_chars_length. rewrite hexdigest_length. lia.
Qed.

Lemma safe_details_spec (d : gmap string string) :
  let sd := PyServer.safe_details_of d in
  dom sd ⊆ ({[ "error_code"; "path_hash" ]} : gset string) /\
  sd !! "error_code" = d !! "error_code" /\
  sd !! "path_hash" = path_hash_of <$> d !! "path" /\
  (forall k, k <> "error_code" -> k <> "path_hash" -> sd !! k = None).
Proof.
  unfold PyServer.safe_details_of, path_hash_of.
  destruct (d !! "error_code") as [c|], (d !! "path") as [p|]; simpl.
  - split; [rewrite !dom_insert_L, dom_empty_L; set_unfold; tauto|].
    split; [by rewrite lookup_insert_ne, lookup_insert_eq|].
    split; [by rewrite lookup_insert_eq|].
    intros k Hk1 Hk2. rewrite !lookup_insert_ne by congruence. apply lookup_empty.
  - split; [rewrite !dom_insert_L, dom_empty_L; set_unfold; tauto|].
    split; [by rewrite lookup_insert_eq|].
    split; [by rewrite lookup_insert_ne, lookup_empty|].
    intros k Hk1 Hk2. rewrite !lookup_insert_ne by congruence. apply lookup_empty.
  - split; [rewrite !dom_insert_L, dom_empty_L; set_unfold; tauto|].
    split; [by rewrite lookup_insert_ne, lookup_empty|].
    split; [by rewrite lookup_insert_eq|].
    intros k Hk1 Hk2. rewrite !lookup_insert_ne by congruence. apply lookup_empty.
  - split; [rewrite dom_empty_L; set_unfold; tauto|].
    split; [by rewrite lookup_empty|].
    split; [by rewrite lookup_empty|].
    intros k Hk1 Hk2. apply lookup_empty.
Qed.

Lemma logged_path path :
  PyServer.logged_details (Some {[ "path" := path ]})
  = Some ({[ "path_hash" := path_hash_of path ]} : gmap string string).
Proof.
  unfold PyServer.logged_details.
  rewrite bool_decide_eq_false_2 by apply insert_non_empty.
  unfold PyServer.safe_details_of.
  rewrite (lookup_singleton_ne "path" "error_code") by done.
  rewrite lookup_singleton_eq. by rewrite insert_empty.
Qed.

(** *** The exceptions of the read branch *)

Lemma raises_bind {S A B} P (m : M S A) (f : A -> M S B) :
  raises_only P m -> (forall a, raises_only P (f a)) -> raises_only P (m ≫= f).
Proof.
  intros Hm Hf s e s'. unfold mbind, M_bind.
  destruct (m s) as [[a|e1] s1] eqn:Hrun.
  - apply Hf.
  - intros [= <- <-]. by eapply Hm.
Qed.

Lemma raises_ret {S A} P (a : A) : raises_only P (mret a : M S A).
Proof. intros s e s'. discriminate. Qed.

Lemma raises_raise {S A} (P : exn -> Prop) e : P e -> raises_only P (raise e : M S A).
Proof. intros He s e' s' [= <- _]. exact He. Qed.

Lemma raises_lift_result {S A} (P : exn -> Prop) (r : result A) :
  (forall e, r = Raise e -> P e) -> raises_only P (PyServer.lift_result r : M S A).
Proof. intros Hr s e s' [= -> _]. by apply Hr. Qed.

Lemma raises_lift_os {A} P (m : M OS A) :
  raises_only P m -> raises_only P (PyServer.lift_os m).
Proof.
  intros Hm p e p'. unfold PyServer.lift_os.
  destruct (m (PyServer.os p)) as [r w] eqn:Hrun. intros [= -> _]. by eapply Hm.
Qed.

Lemma os_error_known err ps : read_error (os_error err ps).
Proof. destruct err; known_class. Qed.

Lemma stat_outcome_known env fs ps e :
  stat_outcome env fs ps = Raise e -> read_error e.
Proof.
  unfold stat_outcome. destruct (lookup_path MustExist env fs ps) as [err|q].
  - intros [= <-]. apply os_error_known.
  - destruct (node_at fs q) as [[c| |t]|]; intros [= <-]; apply (os_error_known ENOENT).
Qed.

Lemma read_outcome_known env fs ps e :
  read_outcome env fs ps = Raise e -> read_error e.
Proof.
  unfold read_outcome. destruct (lookup_path MustExist env fs ps) as [err|q].
  - intros [= <-]. apply os_error_known.
  - destruct (node_at fs q) as [[c| |t]|]; intros [= <-];
      first [apply (os_error_known ENOENT) | known_class].
Qed.

Lemma result_map_raises {A B} (f : A -> result B) l e :
  result_map f l = Raise e -> exists x, f x = Raise e.
Proof.
  induction l as [|x l IH]; simpl; [discriminate|].
  unfold mbind, result_bind. destruct (f x) as [y|e1] eqn:Hx.
  - destruct (result_map f l) as [ys|e2]; [discriminate|].
    intros [= <-]. by apply IH.
  - intros [= <-]. by exists x.
Qed.

Lemma expand_path_known env fs s e :
  PyServer.expand_path env fs s = Raise e -> read_error e.
Proof.
  unfold PyServer.expand_path, path_resolve. destruct (startswith s "~/"); [discriminate|].
  destruct (has_char _ _); [intros [= <-]; known_class|].
  destruct (lookup_path Lexical env fs (path_str (mkpath s))); [|discriminate].
  intros [= <-]. known_class.
Qed.

Lemma validate_path_known cfg env fs s e :
  PyServer.validate_path cfg env fs s = Raise e -> read_error e.
Proof.
  unfold PyServer.validate_path, mbind, result_bind.
  destruct (PyServer.expand_path env fs s) as [resolved|e1] eqn:He.
  - destruct (result_map (PyServer.expand_path env fs) (PyServer.allowed_directories cfg))
      as [allowed_paths|e2] eqn:Hm.
    + destruct (PyServer.first_containing resolved allowed_paths); [discriminate|].
      intros [= <-]. known_class.
    + intros [= <-]. apply result_map_raises in Hm as [x Hx].
      by eapply expand_path_known.
  - intros [= <-]. by eapply expand_path_known.
Qed.

Lemma read_file_params_known arguments e :
  PyServer.read_file_params arguments = Raise e -> read_error e.
Proof.
  unfold PyServer.read_file_params, mbind, result_bind, PyServer.kwargs.
  destruct arguments; try (intros [= <-]; known_class).
  repeat case_match; try discriminate; intros [= <-]; known_class.
Qed.

Lemma decode_text_known data e : Text.decode_text data = Raise e -> read_error e.
Proof.
  unfold Text.decode_text. destruct (Text.utf8_valid _ _); [discriminate|].
  intros [= <-]. known_class.
Qed.

Lemma audit_log_never_raises now tool oc details :
  raises_only read_error (PyServer.audit_log now tool oc details).
Proof. intros p e p'. by rewrite audit_log_run. Qed.

Lemma read_branch_raises cfg env now arguments :
  raises_only read_error (PyServer.read_file_sandboxed cfg env now arguments).
Proof.
  unfold PyServer.read_file_sandboxed.
  apply raises_bind; [apply raises_lift_result, read_file_params_known|]. intros params.
  apply raises_bind.
  { unfold PyServer.validate_path_now. apply raises_bind; [intros s e s'; discriminate|].
    intros p. apply raises_lift_result. apply validate_path_known. }
  intros safe_path. apply raises_bind.
  { apply raises_lift_os. intros [fs tr] e w. rewrite os_stat_run.
    intros [= Hraise _]. by eapply stat_outcome_known. }
  intros st. case_bool_decide; [apply raises_raise; known_class|].
  apply raises_bind.
  - assert (Hread : raises_only read_error
                      (PyServer.lift_os (os_read env (path_str safe_path)))).
    { apply raises_lift_os. intros [fs tr] e w. rewrite os_read_run.
      intros [= Hraise _]. by eapply read_outcome_known. }
    destruct (PyServer.r_encoding params).
    + apply raises_bind; [exact Hread|]. intros data.
      apply raises_lift_result, decode_text_known.
    + apply raises_bind; [exact Hread|]. intros data. apply raises_ret.
  - intros content. apply raises_bind; [apply audit_log_never_raises|].
    intros u. apply raises_ret.
Qed.

Lemma read_tool_raises cfg env now arguments :
  raises_only read_error (PyServer.tool_body cfg env now "read_file_sandboxed" arguments).
Proof.
  unfold PyServer.tool_body. apply raises_bind.
  - intros p e p'. unfold PyServer.lift_srv. rewrite check_rate_limit_run. simpl.
    case_bool_decide; [|discriminate]. intros [= <- _]. known_class.
  - intros u. simpl. apply read_branch_raises.
Qed.

Lemma read_error_clean e :
  read_error e -> contains_str "secret.txt" (exn_class e) = false.
Proof.
  unfold read_error, read_error_classes. intros H.
  each_member H; reflexivity.
Qed.

(** The entry of a read that returned: the hash is that of the path as the
    caller wrote it. *)
Lemma read_success_entry cfg env now arguments p params r p' :
  PyServer.read_file_params arguments = Ok params ->
  PyServer.read_file_sandboxed cfg env now arguments p = (Ok r, p') ->
  exists entry,
    PyServer.stderr p' = PyServer.stderr p ++ [entry] /\
    PyServer.tool entry = "read_file_sandboxed" /\
    PyServer.details entry
    = Some {[ "path_hash" := path_hash_of (PyServer.r_path params) ]}.
Proof.
  intros Hparams.
  destruct (PyServer.validate_path cfg env (os_fs (PyServer.os p)) (PyServer.r_path params))
    as [safe_path|e] eqn:Hvalid.
  - rewrite (read_file_sandboxed_run _ _ _ _ _ _ _ Hparams Hvalid).
    repeat case_match; try discriminate; intros [= <- <-];
      unfold after_audit; rewrite logged_path; eexists; by repeat split.
  - unfold PyServer.read_file_sandboxed, PyServer.validate_path_now, PyServer.lift_result.
    unfold mbind at 1, M_bind at 1. rewrite Hparams.
    unfold mbind at 1, M_bind at 1. unfold mbind at 1, M_bind at 1, get_state.
    rewrite Hvalid. discriminate.
Qed.

(** C6, as the code has it. Every call of the audit recorder appends one
    entry whose details are absent or hold at most the keys [error_code] and
    [path_hash]: the error code is copied, every other supplied field is
    dropped, and a supplied path is replaced by the first eight characters
    of the SHA-256 digest of the path string exactly as it was supplied; the
    dispatcher supplies the path that the caller requested, not its
    canonical form. An entry for a failed read of [/allowed/secret.txt]
    holds the class of the error and no text that contains [secret.txt]. *)
Theorem C6_audit_details_are_redacted :
  (forall now tool oc details p,
      PyServer.audit_log now tool oc details p = (Ok tt, after_audit now tool oc details p) /\
      exists entry,
        PyServer.stderr (after_audit now tool oc details p) = PyServer.stderr p ++ [entry] /\
        PyServer.tool entry = tool /\
        PyServer.details entry = PyServer.logged_details details) /\
  (PyServer.logged_details None = None /\ PyServer.logged_details (Some ∅) = None) /\
  (forall d : gmap string string,
      d <> ∅ ->
      exists sd,
        PyServer.logged_details (Some d) = Some sd /\
        dom sd ⊆ ({[ "error_code"; "path_hash" ]} : gset string) /\
        sd !! "error_code" = d !! "error_code" /\
        sd !! "path_hash" = path_hash_of <$> d !! "path" /\
        (forall k, k <> "error_code" -> k <> "path_hash" -> sd !! k = None)) /\
  (forall path,
      path_hash_of path = take_chars 8 (SHA256.hexdigest path) /\
      String.length (path_hash_of path) = 8%nat) /\
  (forall cfg env now arguments p params r p',
      PyServer.read_file_params arguments = Ok params ->
      PyServer.read_file_sandboxed cfg env now arguments p = (Ok r, p') ->
      exists entry,
        PyServer.stderr p' = PyServer.stderr p ++ [entry] /\
        PyServer.tool entry = "read_file_sandboxed" /\
        PyServer.details entry
        = Some {[ "path_hash" := path_hash_of (PyServer.r_path params) ]}) /\
  (forall cfg env now p e,
      fst (PyServer.tool_body cfg env now "read_file_sandboxed"
             (path_args "/allowed/secret.txt") p) = Raise e ->
      exists entry,
        PyServer.stderr (snd (PyServer.handle_call_tool cfg env now "read_file_sandboxed"
                                (path_args "/allowed/secret.txt") p))
        = PyServer.stderr p ++ [entry] /\
        PyServer.details entry = Some {[ "error_code" := exn_class e ]} /\
        entry_mentions "secret.txt" entry = false).
Proof.
  split; [|split; [|split; [|split; [|split]]]].
  - intros now tool oc details p. split; [apply audit_log_run|].
    eexists. unfold after_audit. simpl. by repeat split.
  - by split.
  - intros d Hd. exists (PyServer.safe_details_of d). split.
    + unfold PyServer.logged_details. by rewrite bool_decide_eq_false_2.
    + apply safe_details_spec.
  - intros path. split; [reflexivity | apply path_hash_length].
  - exact read_success_entry.
  - intros cfg env now p e Hraise.
    destruct (handle_call_tool_once cfg env now "read_file_sandboxed"
                (path_args "/allowed/secret.txt") p)
      as (resp & entry & p' & Hrun & Hlog & _ & _ & Hcase).
    rewrite Hraise in Hcase. destruct Hcase as (_ & _ & Htool & Hdet).
    exists entry. rewrite Hrun. simpl. split; [exact Hlog|]. split; [exact Hdet|].
    unfold entry_mentions. rewrite Htool, Hdet, map_to_list_singleton. simpl.
    rewrite read_error_clean; [reflexivity|].
    destruct (PyServer.tool_body cfg env now "read_file_sandboxed"
                (path_args "/allowed/secret.txt") p) as [r0 p0] eqn:Hbody.
    simpl in Hraise. subst r0. by eapply read_tool_raises.
Qed.

(** The claim that the hash is taken of the canonical path fails: the read
    of [/allowed/./x] is logged with the hash of that text, which differs
    from the hash of the canonical [/allowed/x]. *)
Lemma C6_hash_of_canonical_path_fails :
  ~ (forall cfg env now arguments p params safe_path entry h,
        PyServer.read_file_params arguments = Ok params ->
        PyServer.validate_path cfg env (os_fs (PyServer.os p)) (PyServer.r_path params)
        = Ok safe_path ->
        last (PyServer.stderr (snd (PyServer.read_file_sandboxed cfg env now arguments p)))
        = Some entry ->
        PyServer.details entry ≫= (fun sd => sd !! "path_hash") = Some h ->
        h = path_hash_of (path_str safe_path)).
Proof.
  intros Hclaim.
  specialize (Hclaim (sample_cfg 6) sample_env 0 (path_args "/allowed/./x") sample_proc
                (PyServer.MkRead "/allowed/./x" PyServer.utf8)
                (MkPath "/" ["allowed"; "x"])
                (PyServer.MkEntry 0 "read_file_sandboxed" PyServer.success 0 1
                   (Some {[ "path_hash" := path_hash_of "/allowed/./x" ]}))
                (path_hash_of "/allowed/./x")).
  assert (Hne : path_hash_of "/allowed/./x" <> path_hash_of "/allowed/x")
    by (vm_compute; discriminate).
  apply Hne, Hclaim.
  - vm_compute. reflexivity.
  - vm_compute. reflexivity.
  - vm_compute. reflexivity.
  - vm_compute. reflexivity.
Qed.

Lemma C6_audit_details_are_redacted_witness :
  (exists sd : gmap string string,
      PyServer.logged_details
        (Some (<["path" := "/allowed/secret.txt"]>
                 (<["content" := "s3cret"]> {[ "error_code" := "ValueError" ]})))
      = Some sd /\
      sd !! "error_code" = Some "ValueError" /\
      sd !! "path_hash" = Some "38ea0b3d" /\
      sd !! "content" = None /\ sd !! "path" = None) /\
  exists entry,
    PyServer.stderr (snd (PyServer.handle_call_tool (sample_cfg 6) sample_env 0
                            "read_file_sandboxed" (path_args "/allowed/secret.txt")
                            sample_proc)) = [entry] /\
    PyServer.details entry = Some {[ "error_code" := "FileNotFoundError" ]} /\
    entry_mentions "secret.txt" entry = false.
Proof.
  destruct C6_audit_details_are_redacted as (_ & _ & Hredact & _ & _ & Hfailed).
  split.
  - destruct (Hredact (<["path" := "/allowed/secret.txt"]>
                         (<["content" := "s3cret"]> {[ "error_code" := "ValueError" ]})))
      as (sd & Hsd & _ & Hcode & Hhash & Hother); [apply insert_non_empty|].
    exists sd. split; [exact Hsd|].
    split; [rewrite Hcode; vm_compute; reflexivity|].
    split; [rewrite Hhash; vm_compute; reflexivity|].
    split; apply Hother; discriminate.
  - apply (Hfailed (sample_cfg 6) sample_env 0 sample_proc
             (Exn "FileNotFoundError"
                  "[Errno 2] No such file or directory: '/allowed/secret.txt'")).
    vm_compute. reflexivity.
Defined.

(** * Further properties of the code *)

(** ** [resolve] and the AllowList as a set *)

Lemma fs_resolve_loop_total canon abs_path allowed :
  Forall (canonicalises canon) allowed ->
  FsSandbox.resolve_loop canon abs_path allowed = Ok abs_path \/
  FsSandbox.resolve_loop canon abs_path allowed
  = Raise (SandboxError "Path not within allowed directories").
Proof.
  induction 1 as [|x rest [y Hy] _ IH]; simpl; [by right|].
  rewrite Hy. destruct (_ || _); [by left | exact IH].
Qed.

(** When every base canonicalises, the position of the matching base plays
    no role. *)
Lemma fs_resolve_loop_ok_total canon abs_path allowed :
  Forall (canonicalises canon) allowed ->
  FsSandbox.resolve_loop canon abs_path allowed = Ok abs_path <->
  exists base b, base ∈ allowed /\ canon base = inr b /\ contained_in b abs_path.
Proof.
  intros Hall. rewrite fs_resolve_loop_ok. split.
  - intros [_ (pre & base & post & b & -> & _ & Hb & Hc)].
    exists base, b. split; [|done]. apply elem_of_app. right. by left.
  - intros (base & b & Hin & Hb & Hc). split; [done|].
    apply list_elem_of_split in Hin as (pre & post & ->).
    exists pre, base, post, b. split; [done|]. split; [|done].
    by apply Forall_app in Hall as [Hpre _].
Qed.

(** X1. When every base of the AllowList canonicalises, what [resolve]
    answers depends only on which bases the AllowList holds, not on their
    order or on repetitions, and a longer AllowList never refuses what a
    shorter one accepts. A base whose canonicalisation raises makes the
    order count, because each base is canonicalised only when the loop
    reaches it: placed after the bases of an accepting AllowList it is
    never looked at, placed first its error replaces the answer. *)
Theorem resolve_depends_on_the_set_of_bases (canon : string -> resolve_error + string) :
  (forall allowed allowed' requested,
      Forall (canonicalises canon) allowed ->
      Forall (canonicalises canon) allowed' ->
      (forall b, b ∈ allowed <-> b ∈ allowed') ->
      FsSandbox.resolve canon allowed' requested
      = FsSandbox.resolve canon allowed requested) /\
  (forall allowed allowed' requested p,
      Forall (canonicalises canon) allowed' ->
      (forall b, b ∈ allowed -> b ∈ allowed') ->
      FsSandbox.resolve canon allowed requested = Ok p ->
      FsSandbox.resolve canon allowed' requested = Ok p) /\
  (forall allowed bad e requested p,
      canon bad = inl e ->
      FsSandbox.resolve canon allowed requested = Ok p ->
      FsSandbox.resolve canon (allowed ++ [bad]) requested = Ok p /\
      FsSandbox.resolve canon (bad :: allowed) requested = Raise (resolve_exn e)).
Proof.
  assert (Hmono : forall allowed allowed' requested p,
             Forall (canonicalises canon) allowed' ->
             (forall b, b ∈ allowed -> b ∈ allowed') ->
             FsSandbox.resolve canon allowed requested = Ok p ->
             FsSandbox.resolve canon allowed' requested = Ok p).
  { intros allowed allowed' requested p Hall Hsub Hok.
    apply fs_resolve_ok in Hok as [Hp (pre & base & post & b & -> & _ & Hb & Hc)].
    unfold FsSandbox.resolve. rewrite Hp.
    apply (fs_resolve_loop_ok_total canon p allowed' Hall).
    exists base, b. split; [|done]. apply Hsub, elem_of_app. right. by left. }
  split; [|split; [exact Hmono|]].
  - intros allowed allowed' requested Hall Hall' Hsame.
    unfold FsSandbox.resolve. destruct (canon requested) as [e|p] eqn:Hp; [reflexivity|].
    destruct (fs_resolve_loop_total canon p allowed Hall) as [Hok|Hno];
      destruct (fs_resolve_loop_total canon p allowed' Hall') as [Hok'|Hno'];
      rewrite ?Hok, ?Hno, ?Hok', ?Hno'; try reflexivity; exfalso.
    + assert (Hback : FsSandbox.resolve canon allowed' requested = Ok p).
      { apply (Hmono allowed); [done | intros b; apply Hsame |].
        unfold FsSandbox.resolve. by rewrite Hp. }
      unfold FsSandbox.resolve in Hback. rewrite Hp in Hback. congruence.
    + assert (Hback : FsSandbox.resolve canon allowed requested = Ok p).
      { apply (Hmono allowed'); [done | intros b; apply Hsame |].
        unfold FsSandbox.resolve. by rewrite Hp. }
      unfold FsSandbox.resolve in Hback. rewrite Hp in Hback. congruence.
  - intros allowed bad e requested p Hbad Hok. split.
    + apply fs_resolve_ok in Hok as [Hp (pre & base & post & b & -> & Hpre & Hb & Hc)].
      apply fs_resolve_ok. split; [done|].
      exists pre, base, (post ++ [bad]), b. by rewrite <- app_assoc.
    + apply fs_resolve_ok in Hok as [Hp _]. unfold FsSandbox.resolve. rewrite Hp.
      simpl. by rewrite Hbad.
Qed.

Lemma resolve_depends_on_the_set_of_bases_witness :
  FsSandbox.resolve (canonical sample_env loop_fs) ["/allowed"; "/tmp"; "/allowed"]
    "/allowed/x"
  = FsSandbox.resolve (canonical sample_env loop_fs) ["/tmp"; "/allowed"] "/allowed/x" /\
  FsSandbox.resolve (canonical sample_env loop_fs) ["/allowed"; "/allowed/loop"] "/allowed/x"
  = Ok "/allowed/x" /\
  FsSandbox.resolve (canonical sample_env loop_fs) ["/allowed/loop"; "/allowed"] "/allowed/x"
  = Raise (Exn "RuntimeError" "Symlink loop from '/allowed/loop'").
Proof.
  destruct (resolve_depends_on_the_set_of_bases (canonical sample_env loop_fs))
    as (Hsame & _ & Hlazy).
  split.
  - apply Hsame.
    + repeat (apply Forall_cons; split; [eexists; vm_compute; reflexivity|]).
      apply Forall_nil_2.
    + repeat (apply Forall_cons; split; [eexists; vm_compute; reflexivity|]).
      apply Forall_nil_2.
    + intros b. rewrite !elem_of_cons, elem_of_nil. tauto.
  - apply (Hlazy ["/allowed"] "/allowed/loop" (SymlinkLoop "/allowed/loop")
             "/allowed/x" "/allowed/x"); vm_compute; reflexivity.
Defined.

(** X2. A path that [resolve] accepted is accepted again, with the same
    answer, when it is validated a second time, as soon as canonicalising
    the accepted path gives it back. *)
Theorem resolve_accepts_its_own_answer (canon : string -> resolve_error + string)
    (allowed : list string) (requested p : string) :
  canon p = inr p ->
  FsSandbox.resolve canon allowed requested = Ok p ->
  FsSandbox.resolve canon allowed p = Ok p /\
  FfprobeLite.resolve canon allowed p = Ok p.
Proof.
  intros Hfix Hok.
  assert (Hfs : FsSandbox.resolve canon allowed p = Ok p).
  { apply fs_resolve_ok in Hok as [_ Hbase]. apply fs_resolve_ok. by split. }
  split; [exact Hfs|]. by rewrite ff_resolve_eq.
Qed.

Lemma resolve_accepts_its_own_answer_witness :
  FsSandbox.resolve (canonical sample_env sample_fs) ["/allowed/"] "/allowed/x"
  = Ok "/allowed/x".
Proof.
  refine (proj1 (resolve_accepts_its_own_answer (canonical sample_env sample_fs)
                   ["/allowed/"] "/allowed/./x" "/allowed/x" _ _));
    vm_compute; reflexivity.
Defined.

(** ** The comma split of [parse_allowed] *)

Lemma split_on_plain c x : has_char c x = false -> split_on c x = [x].
Proof.
  induction x as [|a x IH]; simpl; [done|]. intros H.
  apply orb_false_iff in H as [Ha Hx]. apply bool_decide_eq_false in Ha.
  rewrite decide_False by done. by rewrite IH.
Qed.

Lemma split_on_app c x rest :
  has_char c x = false ->
  split_on c (x +:+ String c rest) = x :: split_on c rest.
Proof.
  induction x as [|a x IH]; intros H.
  - rewrite app_nil_str. simpl. by rewrite decide_True.
  - simpl in H. apply orb_false_iff in H as [Ha Hx]. apply bool_decide_eq_false in Ha.
    rewrite app_cons_str. simpl. rewrite decide_False by done. by rewrite IH.
Qed.

Lemma split_on_join c l :
  l <> [] -> Forall (fun x => has_char c x = false) l ->
  split_on c (join (String c "") l) = l.
Proof.
  induction l as [|x l IH]; [done|]. intros _ Hl.
  apply Forall_cons in Hl as [Hx Hl]. destruct l as [|y l].
  - simpl. by apply split_on_plain.
  - change (join (String c "") (x :: y :: l))
      with (x +:+ String c "" +:+ join (String c "") (y :: l)).
    rewrite app_cons_str, app_nil_str, split_on_app by done. by rewrite IH.
Qed.

Lemma has_char_app c u v : has_char c (u +:+ v) = has_char c u || has_char c v.
Proof.
  induction u as [|a u IH]; [reflexivity|].
  rewrite app_cons_str. simpl. by rewrite IH, orb_assoc.
Qed.

Lemma string_len_ind (P : string -> Prop) :
  (forall s, (forall t, (String.length t < String.length s)%nat -> P t) -> P s) ->
  forall s, P s.
Proof.
  intros Hstep s. remember (String.length s) as n eqn:Hn. revert s Hn.
  induction n as [n IH] using lt_wf_ind. intros s ->.
  apply Hstep. intros t Ht. by apply (IH _ Ht).
Qed.

(** What [lstrip] leaves is the end of the text and begins with no white
    space. *)
Lemma lstrip_suffix s : exists u, s = u +:+ lstrip s.
Proof.
  induction s as [s IH] using string_len_ind.
  destruct s as [|a s1]; [by exists ""|]. simpl.
  destruct (is_py_space a).
  { destruct (IH s1) as [u Hu]; [simpl; lia|]. exists (String a u).
    by rewrite app_cons_str, <- Hu. }
  destruct s1 as [|b s2]; [by exists ""|].
  destruct (is_space2 a b).
  { destruct (IH s2) as [u Hu]; [simpl; lia|]. exists (String a (String b u)).
    by rewrite !app_cons_str, <- Hu. }
  destruct s2 as [|c s3]; [by exists ""|].
  destruct (is_space3 a b c); [|by exists ""].
  destruct (IH s3) as [u Hu]; [simpl; lia|]. exists (String a (String b (String c u))).
  by rewrite !app_cons_str, <- Hu.
Qed.

Lemma lstrip_not_space s : starts_space (lstrip s) = false.
Proof.
  induction s as [s IH] using string_len_ind.
  destruct s as [|a s1]; [reflexivity|]. simpl.
  destruct (is_py_space a) eqn:Ha; [apply IH; simpl; lia|].
  destruct s1 as [|b s2]; [simpl; by rewrite Ha|].
  destruct (is_space2 a b) eqn:Hb; [apply IH; simpl; lia|].
  destruct s2 as [|c s3]; [simpl; by rewrite Ha, Hb|].
  destruct (is_space3 a b c) eqn:Hc; [apply IH; simpl; lia|].
  simpl. by rewrite Ha, Hb, Hc.
Qed.

Lemma lstrip_fix s : starts_space s = false -> lstrip s = s.
Proof.
  destruct s as [|a [|b [|c s3]]]; simpl; try done.
  - rewrite orb_false_r. by intros ->.
  - rewrite orb_false_r. intros H. apply orb_false_iff in H as [-> ->]. done.
  - intros H. apply orb_false_iff in H as [-> H].
    apply orb_false_iff in H as [-> ->]. done.
Qed.

Lemma rstrip_cons a s :
  rstrip (String a s)
  = if is_space_char (String a (rstrip s)) then "" else String a (rstrip s).
Proof. reflexivity. Qed.

Lemma rstrip_prefix s : exists u, s = rstrip s +:+ u.
Proof.
  induction s as [|a s [u IH]]; [by exists ""|]. rewrite rstrip_cons.
  destruct (is_space_char (String a (rstrip s))); [by eexists|].
  exists u. by rewrite app_cons_str, <- IH.
Qed.

Lemma rstrip_idem s : rstrip (rstrip s) = rstrip s.
Proof.
  induction s as [|a s IH]; [reflexivity|]. rewrite rstrip_cons.
  destruct (is_space_char (String a (rstrip s))) eqn:Hc; [reflexivity|].
  by rewrite rstrip_cons, IH, Hc.
Qed.

Lemma starts_space_app p u : starts_space p = true -> starts_space (p +:+ u) = true.
Proof.
  destruct p as [|a [|b [|c p3]]]; simpl; try done.
  - rewrite orb_false_r. intros ->. reflexivity.
  - rewrite orb_false_r. intros H. apply orb_true_iff in H as [->| ->]; [done|].
    apply orb_true_r.
Qed.

Lemma strip_not_space s : starts_space (strip s) = false.
Proof.
  unfold strip. destruct (rstrip_prefix (lstrip s)) as [u Hu].
  destruct (starts_space (rstrip (lstrip s))) eqn:Hs; [|done].
  apply (starts_space_app _ u) in Hs. rewrite <- Hu, lstrip_not_space in Hs. done.
Qed.

(** Stripping twice is stripping once. *)
Lemma strip_idem s : strip (strip s) = strip s.
Proof.
  unfold strip at 1. rewrite (lstrip_fix _ (strip_not_space s)).
  unfold strip. apply rstrip_idem.
Qed.

Lemma strip_keeps_chars c s : has_char c s = false -> has_char c (strip s) = false.
Proof.
  intros H. unfold strip.
  destruct (lstrip_suffix s) as [u Hu]. destruct (rstrip_prefix (lstrip s)) as [v Hv].
  rewrite Hu, Hv, !has_char_app in H.
  apply orb_false_iff in H as [_ H]. by apply orb_false_iff in H as [H _].
Qed.

Lemma join_comma_cons x l : exists tl, join "," (x :: l) = x +:+ tl.
Proof. destruct l; [exists ""; by rewrite app_empty_r_str | by eexists]. Qed.

Lemma comma_split_clean raw x : x ∈ comma_split raw -> clean_entry x.
Proof.
  intros Hx. apply comma_split_spec in Hx as (Hne & seg & Hseg & ->).
  split; [done|]. split; [apply strip_idem|].
  apply strip_keeps_chars. by eapply split_on_no_sep.
Qed.

Lemma comma_split_join l : Forall clean_entry l -> comma_split (join "," l) = l.
Proof.
  intros Hl. destruct l as [|x l]; [reflexivity|].
  unfold comma_split. rewrite split_on_join; [|done|].
  - set (f := fun s : string => if bool_decide (strip s = "") then None else Some (strip s)).
    induction Hl as [|y ys (Hne & Hstrip & _) _ IH]; [reflexivity|].
    change (omap f (y :: ys))
      with (match f y with Some z => z :: omap f ys | None => omap f ys end).
    unfold f at 1. rewrite Hstrip, bool_decide_eq_false_2 by done. by rewrite IH.
  - eapply Forall_impl; [exact Hl|]. by intros y (_ & _ & Hy).
Qed.

Lemma parse_number_not_array s l rest : parse_number s <> Some (JArr l, rest).
Proof.
  unfold parse_number. repeat case_match; congruence.
Qed.

Lemma parse_value_array fuel s l rest :
  parse_value fuel s = Some (JArr l, rest) -> exists r, s = String "[" r.
Proof.
  destruct fuel as [|fuel]; [discriminate|]. destruct s as [|a s]; [discriminate|].
  simpl. case_bool_decide as Hq.
  { unfold mbind, option_bind. repeat case_match; congruence. }
  case_bool_decide as Hb; [subst a; by eexists|].
  case_bool_decide as Hc.
  { unfold mbind, option_bind. repeat case_match; congruence. }
  repeat case_match; try congruence.
  intros Hnum. by apply parse_number_not_array in Hnum.
Qed.

(** Well-formed JSON that decodes to a list begins, after white space, with
    an opening bracket. *)
Lemma json_loads_array raw l :
  json_loads raw = Some (JArr l) -> exists r, skip_ws raw = String "[" r.
Proof.
  unfold json_loads, mbind, option_bind.
  destruct (parse_value _ (skip_ws raw)) as [[v rest]|] eqn:Hv; [|discriminate].
  destruct (skip_ws rest); [|discriminate]. intros [= ->].
  by eapply parse_value_array.
Qed.

Lemma clean_entry_head x :
  clean_entry x -> exists a r, x = String a r /\ is_py_space a = false.
Proof.
  intros (Hne & Hstrip & _). pose proof (strip_not_space x) as Hs. rewrite Hstrip in Hs.
  destruct x as [|a r]; [done|]. exists a, r. split; [done|].
  simpl in Hs. by apply orb_false_iff in Hs as [Ha _].
Qed.

Lemma json_ws_is_space a : is_json_ws a = true -> is_py_space a = true.
Proof.
  unfold is_json_ws, is_py_space. intros H.
  repeat (apply orb_true_iff in H as [H|H]); apply N.eqb_eq in H; by rewrite H.
Qed.

(** X3. The comma split never yields an empty entry, an entry with white
    space around it, or an entry that holds a comma; so does [parse_allowed]
    on every input that is not a JSON array. *)
Theorem comma_split_entries_are_clean :
  (forall raw x, x ∈ comma_split raw -> clean_entry x) /\
  (forall raw x,
      (forall arr, json_loads raw <> Some (JArr arr)) ->
      x ∈ FsSandboxConfig.parse_allowed (Some raw) -> clean_entry x) /\
  (forall raw x,
      json_loads raw = None ->
      JStr x ∈ FfprobeLiteConfig.parse_allowed (Some raw) -> clean_entry x).
Proof.
  split; [exact comma_split_clean|]. split.
  - intros raw x Hj. destruct raw as [|a raw]; [intros H; by apply elem_of_nil in H|].
    unfold FsSandboxConfig.parse_allowed.
    destruct (json_loads (String a raw)) as [[]|]; try apply comma_split_clean.
    by edestruct Hj.
  - intros raw x Hj. destruct raw as [|a raw]; [intros H; by apply elem_of_nil in H|].
    unfold FfprobeLiteConfig.parse_allowed. rewrite Hj.
    intros H. apply list_elem_of_fmap in H as (y & [= <-] & Hy).
    by eapply comma_split_clean.
Qed.

Lemma comma_split_entries_are_clean_witness :
  clean_entry "/tmp/in" /\ clean_entry "/srv/media".
Proof.
  destruct comma_split_entries_are_clean as (_ & Hfs & Hff).
  split.
  - apply (Hfs " /srv/media ,, /tmp/in ,").
    + intros arr. vm_compute. discriminate.
    + vm_compute. apply elem_of_cons. right. by left.
  - apply (Hff " /srv/media ,, /tmp/in ,"); [vm_compute; reflexivity|].
    vm_compute. by left.
Defined.

(** X4. Round trip of the comma-separated form: joining clean entries with
    commas and parsing the text gives the entries back, in both extensions,
    provided the text is not read as JSON (the first entry does not open a
    bracket for the fs-sandbox parser; the text is not well-formed JSON for
    the ffprobe-lite parser). *)
Theorem parse_allowed_of_joined_entries (l : list string) :
  Forall clean_entry l ->
  comma_split (join "," l) = l /\
  ((forall x, head l = Some x -> startswith x "[" = false) ->
   FsSandboxConfig.parse_allowed (Some (join "," l)) = l) /\
  (json_loads (join "," l) = None ->
   FfprobeLiteConfig.parse_allowed (Some (join "," l)) = map JStr l).
Proof.
  intros Hl. pose proof (comma_split_join l Hl) as Hsplit.
  split; [exact Hsplit|]. split.
  - intros Hhead. destruct (join "," l) as [|a raw] eqn:Hraw; [by rewrite <- Hsplit|].
    unfold FsSandboxConfig.parse_allowed.
    destruct (json_loads (String a raw)) as [v|] eqn:Hj; [|exact Hsplit].
    destruct v; try exact Hsplit.
    exfalso. apply json_loads_array in Hj as [r Hr].
    destruct l as [|x l']; [discriminate|].
    apply Forall_cons in Hl as [Hx _].
    destruct (clean_entry_head x Hx) as (b & xr & -> & Hb).
    destruct (join_comma_cons (String b xr) l') as [tl Htl].
    rewrite Htl, app_cons_str in Hraw. injection Hraw as <- _.
    assert (Hws : is_json_ws b = false).
    { destruct (is_json_ws b) eqn:Hw; [|done]. apply json_ws_is_space in Hw. congruence. }
    simpl in Hr. rewrite Hws in Hr. injection Hr as -> _.
    specialize (Hhead _ eq_refl).
    assert (Hopen : startswith (String "[" xr) "[" = true)
      by (apply startswith_spec; by exists xr).
    congruence.
  - intros Hj. destruct (join "," l) as [|a raw] eqn:Hraw.
    + rewrite <- Hsplit. reflexivity.
    + unfold FfprobeLiteConfig.parse_allowed. by rewrite Hj, Hsplit.
Qed.

Lemma parse_allowed_of_joined_entries_witness :
  FsSandboxConfig.parse_allowed (Some "/srv/media,/tmp/in") = ["/srv/media"; "/tmp/in"] /\
  FfprobeLiteConfig.parse_allowed (Some "/srv/media,/tmp/in")
  = [JStr "/srv/media"; JStr "/tmp/in"].
Proof.
  assert (Hclean : Forall clean_entry ["/srv/media"; "/tmp/in"]).
  { repeat (apply Forall_cons; split; [by repeat split|]). apply Forall_nil_2. }
  destruct (parse_allowed_of_joined_entries ["/srv/media"; "/tmp/in"] Hclean)
    as (_ & Hfs & Hff).
  split.
  - apply Hfs. intros x [= <-]. reflexivity.
  - apply Hff. vm_compute. reflexivity.
Defined.

(** ** The [read_file] tool of the fs-sandbox extension *)

Lemma os_error_not_sandbox err ps : exn_class (os_error err ps) <> "SandboxError".
Proof. by destruct err. Qed.

Lemma resolve_exn_not_sandbox e : exn_class (resolve_exn e) <> "SandboxError".
Proof. by destruct e. Qed.

(** Every outcome of [read_file]. *)
Lemma read_file_run canon decode env allowed max_mb path fs tr :
  FsSandboxMain.read_file canon decode env allowed max_mb path (MkOS fs tr) =
  match FsSandbox.resolve canon allowed path with
  | Raise e =>
      if bool_decide (exn_class e = "SandboxError")
      then (Ok (ErrorReply (exn_msg e)), MkOS fs tr)
      else (Raise e, MkOS fs tr)
  | Ok abs_path =>
      let sp := path_str (mkpath abs_path) in
      match lookup_path MustExist env fs sp with
      | inl err => (Raise (os_error err sp), MkOS fs (tr ++ [EvStat sp]))
      | inr q =>
          match node_at fs q with
          | Some (File c) =>
              if bool_decide (strlen c > FsSandbox.cap max_mb)
              then (Ok (ErrorReply ("File exceeds limit: " +:+ pretty (strlen c) +:+
                                    " > " +:+ pretty (FsSandbox.cap max_mb))),
                    MkOS fs (tr ++ [EvStat sp]))
              else (Ok (FileReply abs_path (strlen c) (decode c)),
                    MkOS fs (tr ++ [EvStat sp; EvRead sp]))
          | Some Dir =>
              if bool_decide (dir_st_size > FsSandbox.cap max_mb)
              then (Ok (ErrorReply ("File exceeds limit: " +:+ pretty dir_st_size +:+
                                    " > " +:+ pretty (FsSandbox.cap max_mb))),
                    MkOS fs (tr ++ [EvStat sp]))
              else (Raise (Exn "IsADirectoryError"
                             ("[Errno 21] Is a directory: '" +:+ sp +:+ "'")),
                    MkOS fs (tr ++ [EvStat sp; EvRead sp]))
          | _ => (Raise (os_error ENOENT sp), MkOS fs (tr ++ [EvStat sp]))
          end
      end
  end.
Proof.
  unfold FsSandboxMain.read_file, FsSandboxMain.read_file_body, try_except.
  unfold mbind at 1, M_bind at 1.
  destruct (FsSandbox.resolve canon allowed path) as [abs_path|e];
    [|by case_bool_decide].
  unfold mbind, M_bind.
  pose proof (read_capped_run env abs_path max_mb fs tr) as Hrun. simpl in Hrun.
  rewrite Hrun. simpl.
  destruct (lookup_path MustExist env fs (path_str (mkpath abs_path))) as [err|q].
  - rewrite bool_decide_eq_false_2 by apply os_error_not_sandbox. reflexivity.
  - destruct (node_at fs q) as [[c| |t]|]; try case_bool_decide; try reflexivity.
    all: by destruct ENOENT.
Qed.

(** When [resolve] raises, the sandbox error becomes an error reply and the
    error of a canonicalisation leaves the tool. *)
Lemma read_file_refused canon decode env allowed max_mb path fs tr e :
  FsSandbox.resolve canon allowed path = Raise e ->
  (e = SandboxError "Path not within allowed directories" /\
   FsSandboxMain.read_file canon decode env allowed max_mb path (MkOS fs tr)
   = (Ok (ErrorReply "Path not within allowed directories"), MkOS fs tr)) \/
  (exists err, e = resolve_exn err /\
   FsSandboxMain.read_file canon decode env allowed max_mb path (MkOS fs tr)
   = (Raise e, MkOS fs tr)).
Proof.
  intros Hres. rewrite read_file_run, Hres.
  destruct (fs_resolve_cases canon allowed path) as [(p & _ & Hok)|[Hno|[err Herr]]].
  - congruence.
  - left. assert (e = SandboxError "Path not within allowed directories") as -> by congruence.
    by split.
  - right. exists err. assert (e = resolve_exn err) as -> by congruence.
    split; [done|]. by rewrite bool_decide_eq_false_2 by apply resolve_exn_not_sandbox.
Qed.

(** X5. A file reply of [read_file] is always about the canonical form of
    the requested path, that form lies under a base of the AllowList, a
    regular file exists there, the reported size is the number of its bytes
    and does not exceed the cap, the content is the decoding of exactly
    these bytes, and after the canonicalisation the call made two system
    calls, the stat and then the read of that path, without changing the
    file system. *)
Theorem read_file_reply_is_sound (canon : string -> resolve_error + string)
    (decode : string -> string) (env : os_env)
    (allowed : list string) (max_mb : Z) (path : string) (fs : fsmap)
    (tr : list io_event) (p : string) (size : Z) (content : string) (w' : OS) :
  FsSandboxMain.read_file canon decode env allowed max_mb path (MkOS fs tr)
  = (Ok (FileReply p size content), w') ->
  canon path = inr p /\
  (exists base b, base ∈ allowed /\ canon base = inr b /\ contained_in b p) /\
  (exists c, file_at env fs (path_str (mkpath p)) c /\
             size = strlen c /\ content = decode c) /\
  size <= FsSandbox.cap max_mb /\
  w' = MkOS fs (tr ++ [EvStat (path_str (mkpath p)); EvRead (path_str (mkpath p))]).
Proof.
  rewrite read_file_run.
  destruct (FsSandbox.resolve canon allowed path) as [abs_path|e] eqn:Hres.
  2:{ case_bool_decide; discriminate. }
  apply fs_resolve_ok in Hres as [Hp (pre & base & post & b & -> & _ & Hb & Hc)]. cbv zeta.
  destruct (lookup_path MustExist env fs (path_str (mkpath abs_path))) as [err|q] eqn:Hl;
    [discriminate|].
  destruct (node_at fs q) as [[c| |t]|] eqn:Hn; try case_bool_decide; try discriminate.
  intros [= <- <- <- <-]. split; [exact Hp|]. split.
  { exists base, b. split; [|done]. apply elem_of_app. right. by left. }
  split; [|split; [lia | reflexivity]].
  exists c. split; [|by split]. exists q. by split.
Qed.

Lemma read_file_reply_is_sound_witness :
  canonical sample_env sample_fs "/allowed/./x" = inr "/allowed/x" /\
  (exists c, file_at sample_env sample_fs (path_str (mkpath "/allowed/x")) c /\
             6 = strlen c /\ "inside" = c) /\
  6 <= FsSandbox.cap 8.
Proof.
  assert (Hrun : FsSandboxMain.read_file (canonical sample_env sample_fs) (fun s => s)
                   sample_env ["/allowed"] 8 "/allowed/./x" (MkOS sample_fs [])
                 = (Ok (FileReply "/allowed/x" 6 "inside"),
                    MkOS sample_fs [EvStat "/allowed/x"; EvRead "/allowed/x"]))
    by (vm_compute; reflexivity).
  destruct (read_file_reply_is_sound _ _ _ _ _ _ _ _ _ _ _ _ Hrun)
    as (Hp & _ & Hfile & Hcap & _).
  split; [exact Hp|]. split; [exact Hfile | exact Hcap].
Defined.

(** X6. [read_file] answers with an error reply in two cases only, and in
    neither was any content read: the path was refused by [resolve], and
    then, once the path was canonicalised, nothing was statted or read; or
    the size found by the stat exceeds the cap, and then the stat is the
    only system call that follows the canonicalisation. The file system is
    the same after the call. *)
Theorem read_file_error_reply_reads_nothing (canon : string -> resolve_error + string)
    (decode : string -> string)
    (env : os_env) (allowed : list string) (max_mb : Z) (path : string) (fs : fsmap)
    (tr : list io_event) (msg : string) (w' : OS) :
  FsSandboxMain.read_file canon decode env allowed max_mb path (MkOS fs tr)
  = (Ok (ErrorReply msg), w') ->
  (msg = "Path not within allowed directories" /\
   FsSandbox.resolve canon allowed path
   = Raise (SandboxError "Path not within allowed directories") /\
   w' = MkOS fs tr) \/
  (exists size abs_path,
      msg = "File exceeds limit: " +:+ pretty size +:+ " > " +:+ pretty (FsSandbox.cap max_mb) /\
      size > FsSandbox.cap max_mb /\
      canon path = inr abs_path /\
      FsSandbox.resolve canon allowed path = Ok abs_path /\
      w' = MkOS fs (tr ++ [EvStat (path_str (mkpath abs_path))])).
Proof.
  destruct (FsSandbox.resolve canon allowed path) as [abs_path|e] eqn:Hres.
  - rewrite read_file_run, Hres. cbv zeta.
    pose proof Hres as Hres'. apply fs_resolve_ok in Hres' as [Hp _].
    destruct (lookup_path MustExist env fs (path_str (mkpath abs_path))) as [err|q];
      [discriminate|].
    destruct (node_at fs q) as [[c| |t]|]; try case_bool_decide; try discriminate.
    + intros [= <- <-]. right. exists (strlen c), abs_path. by repeat split.
    + intros [= <- <-]. right. exists dir_st_size, abs_path. by repeat split.
  - destruct (read_file_refused canon decode env allowed max_mb path fs tr e Hres)
      as [[-> Hrun]|(err & -> & Hrun)]; rewrite Hrun; [|discriminate].
    intros [= <- <-]. left. by repeat split.
Qed.

Lemma read_file_error_reply_reads_nothing_witness :
  ("Path not within allowed directories" = "Path not within allowed directories" /\
   FsSandbox.resolve (canonical sample_env sample_fs) ["/allowed"]
     "/allowed/../allowed-evil/x"
   = Raise (SandboxError "Path not within allowed directories") /\
   MkOS sample_fs [] = MkOS sample_fs []) \/
  (exists size abs_path,
      "Path not within allowed directories"
      = "File exceeds limit: " +:+ pretty size +:+ " > " +:+ pretty (FsSandbox.cap 8) /\
      size > FsSandbox.cap 8 /\
      canonical sample_env sample_fs "/allowed/../allowed-evil/x" = inr abs_path /\
      FsSandbox.resolve (canonical sample_env sample_fs) ["/allowed"]
        "/allowed/../allowed-evil/x" = Ok abs_path /\
      MkOS sample_fs [] = MkOS sample_fs ([] ++ [EvStat (path_str (mkpath abs_path))])).
Proof.
  apply (read_file_error_reply_reads_nothing (canonical sample_env sample_fs) (fun s => s)
           sample_env ["/allowed"] 8 "/allowed/../allowed-evil/x" sample_fs []).
  vm_compute. reflexivity.
Defined.



(** ** What a tool call leaves untouched *)

Lemma preserves_bind {X A B} (part : PyServer.Proc -> X)
    (m : M PyServer.Proc A) (f : A -> M PyServer.Proc B) :
  preserves part m -> (forall a, preserves part (f a)) -> preserves part (m ≫= f).
Proof.
  intros Hm Hf p. unfold mbind, M_bind. specialize (Hm p).
  destruct (m p) as [[a|e] p1]; simpl in Hm; [|exact Hm].
  rewrite <- Hm. apply Hf.
Qed.

Lemma preserves_ret {X A} (part : PyServer.Proc -> X) (a : A) :
  preserves part (mret a : M PyServer.Proc A).
Proof. intros p. reflexivity. Qed.

Lemma preserves_raise {X A} (part : PyServer.Proc -> X) e :
  preserves part (raise e : M PyServer.Proc A).
Proof. intros p. reflexivity. Qed.

Lemma preserves_get {X} (part : PyServer.Proc -> X) :
  preserves part (get_state : M PyServer.Proc PyServer.Proc).
Proof. intros p. reflexivity. Qed.

Lemma preserves_lift_result {X A} (part : PyServer.Proc -> X) (r : result A) :
  preserves part (PyServer.lift_result r : M PyServer.Proc A).
Proof. intros p. reflexivity. Qed.

Lemma preserves_try {X A} (part : PyServer.Proc -> X)
    (body : M PyServer.Proc A) (handler : exn -> M PyServer.Proc A) :
  preserves part body -> (forall e, preserves part (handler e)) ->
  preserves part (try_except body handler).
Proof.
  intros Hb Hh p. unfold try_except. specialize (Hb p).
  destruct (body p) as [[a|e] p1]; simpl in Hb; [exact Hb|].
  rewrite <- Hb. apply Hh.
Qed.

Lemma preserves_m_map {X A B} (part : PyServer.Proc -> X)
    (f : A -> M PyServer.Proc B) l :
  (forall a, preserves part (f a)) -> preserves part (PyServer.m_map f l).
Proof.
  intros Hf. induction l as [|x l IH]; simpl; [apply preserves_ret|].
  apply preserves_bind; [apply Hf|]. intros y.
  apply preserves_bind; [exact IH|]. intros ys. apply preserves_ret.
Qed.

Lemma preserves_validate {X} (part : PyServer.Proc -> X) cfg env path :
  preserves part (PyServer.validate_path_now cfg env path).
Proof.
  unfold PyServer.validate_path_now. apply preserves_bind; [apply preserves_get|].
  intros p. apply preserves_lift_result.
Qed.

Lemma audit_keeps_os now tool oc details :
  preserves PyServer.os (PyServer.audit_log now tool oc details).
Proof. intros p. by rewrite audit_log_run. Qed.

Lemma audit_keeps_windows now tool oc details :
  preserves proc_windows (PyServer.audit_log now tool oc details).
Proof. intros p. by rewrite audit_log_run. Qed.

Lemma lift_srv_keeps_os {A} (m : M PyServer.ServerState A) :
  preserves PyServer.os (PyServer.lift_srv m).
Proof. intros p. unfold PyServer.lift_srv. by destruct (m (PyServer.srv p)). Qed.

Lemma lift_os_keeps_windows {A} (m : M OS A) :
  preserves proc_windows (PyServer.lift_os m).
Proof. intros p. unfold PyServer.lift_os. by destruct (m (PyServer.os p)). Qed.

Lemma lift_os_keeps_fs {A} (m : M OS A) :
  (forall w, os_fs (snd (m w)) = os_fs w) -> preserves proc_fs (PyServer.lift_os m).
Proof.
  intros Hm p. unfold PyServer.lift_os, proc_fs. specialize (Hm (PyServer.os p)).
  by destruct (m (PyServer.os p)).
Qed.

Lemma os_kept_fs_kept {A} (m : M PyServer.Proc A) :
  preserves PyServer.os m -> preserves proc_fs m.
Proof. intros Hm p. unfold proc_fs. by rewrite Hm. Qed.

Lemma os_stat_keeps_fs env sp w : os_fs (snd (os_stat env sp w)) = os_fs w.
Proof. destruct w as [fs tr]. by rewrite os_stat_run. Qed.

Lemma os_read_keeps_fs env sp w : os_fs (snd (os_read env sp w)) = os_fs w.
Proof. destruct w as [fs tr]. by rewrite os_read_run. Qed.

Lemma path_is_dir_keeps_fs env q w : os_fs (snd (path_is_dir env q w)) = os_fs w.
Proof. destruct w as [fs tr]. reflexivity. Qed.

Lemma os_listdir_keeps_fs env sp w : os_fs (snd (os_listdir env sp w)) = os_fs w.
Proof.
  destruct w as [fs tr]. unfold os_listdir. run_m.
  destruct (lookup_path MustExist env fs sp) as [err|q]; [reflexivity|].
  destruct (node_at fs q) as [[c| |t]|]; reflexivity.
Qed.

(** X8. A call that the rate limiter rejects is answered by the rate-limit
    error whatever the tool and its arguments; it makes no system call, it
    leaves the timestamps of every client as they were, and it is still
    audited, once, as an error of class [Exception]. With a rate limit of
    zero or less every call is rejected in this way. *)
Theorem rate_limited_call_makes_no_system_call (cfg : PyServer.Config) (env : os_env)
    (now : Z) (name : string) (arguments : jvalue) (p : PyServer.Proc) :
  let call := PyServer.handle_call_tool cfg env now name arguments p in
  (Z.of_nat (length (recent_calls now p)) >= PyServer.rate_limit cfg ->
   fst call = Ok rate_limit_reply /\
   PyServer.os (snd call) = PyServer.os p /\
   (forall c, PyServer.window_of (PyServer.srv (snd call)) c
              = PyServer.window_of (PyServer.srv p) c) /\
   exists entry,
     PyServer.stderr (snd call) = PyServer.stderr p ++ [entry] /\
     PyServer.entry_outcome entry = PyServer.error /\
     PyServer.tool entry = name /\
     PyServer.details entry = Some {[ "error_code" := "Exception" ]}) /\
  (PyServer.rate_limit cfg <= 0 -> fst call = Ok rate_limit_reply).
Proof.
  intros call. subst call. split.
  - intros Hfull. rewrite (handle_call_tool_limited _ _ _ _ _ _ Hfull).
    split; [reflexivity|]. split; [reflexivity|].
    split; [intros c; apply window_of_touch|].
    unfold after_audit. rewrite logged_error_code. simpl.
    eexists. split; [reflexivity|]. by repeat split.
  - intros Hzero. rewrite handle_call_tool_limited; [reflexivity|]. lia.
Qed.

Lemma rate_limited_call_makes_no_system_call_witness :
  let busy := snd (PyServer.handle_call_tool (PyServer.MkConfig ["/allowed"] 6 1) sample_env 0
                     "health_check" (JObj []) sample_proc) in
  let call := PyServer.handle_call_tool (PyServer.MkConfig ["/allowed"] 6 1) sample_env 30
                "read_file_sandboxed" (path_args "/allowed/x") busy in
  fst call = Ok rate_limit_reply /\ PyServer.os (snd call) = MkOS sample_fs [].
Proof.
  intros busy call.
  destruct (proj1 (rate_limited_call_makes_no_system_call
                     (PyServer.MkConfig ["/allowed"] 6 1) sample_env 30
                     "read_file_sandboxed" (path_args "/allowed/x") busy))
    as (Hreply & Hos & _).
  - vm_compute. discriminate.
  - split; [exact Hreply|]. fold call in Hos. rewrite Hos. vm_compute. reflexivity.
Defined.

Lemma read_rejected cfg env now arguments p e :
  (params ← PyServer.read_file_params arguments;
   PyServer.validate_path cfg env (proc_fs p) (PyServer.r_path params)) = Raise e ->
  PyServer.read_file_sandboxed cfg env now arguments p = (Raise e, p).
Proof.
  unfold PyServer.read_file_sandboxed, PyServer.validate_path_now, PyServer.lift_result.
  unfold mbind at 1, result_bind. unfold mbind at 1, M_bind at 1.
  destruct (PyServer.read_file_params arguments) as [params|e0]; [|by intros [= ->]].
  intros Hv. unfold mbind at 1, M_bind at 1. unfold mbind at 1, M_bind at 1, get_state.
  unfold proc_fs in Hv. by rewrite Hv.
Qed.

Lemma write_rejected cfg env now arguments p e :
  (params ← PyServer.write_file_params arguments;
   PyServer.validate_path cfg env (proc_fs p) (PyServer.w_path params)) = Raise e ->
  PyServer.write_file_sandboxed cfg env now arguments p = (Raise e, p).
Proof.
  unfold PyServer.write_file_sandboxed, PyServer.validate_path_now, PyServer.lift_result.
  unfold mbind at 1, result_bind. unfold mbind at 1, M_bind at 1.
  destruct (PyServer.write_file_params arguments) as [params|e0]; [|by intros [= ->]].
  intros Hv. unfold mbind at 1, M_bind at 1. unfold mbind at 1, M_bind at 1, get_state.
  unfold proc_fs in Hv. by rewrite Hv.
Qed.

Lemma list_rejected cfg env now arguments p e :
  (params ← PyServer.list_directory_params arguments;
   PyServer.validate_path cfg env (proc_fs p) (PyServer.l_path params)) = Raise e ->
  PyServer.list_directory cfg env now arguments p = (Raise e, p).
Proof.
  unfold PyServer.list_directory, PyServer.validate_path_now, PyServer.lift_result.
  unfold mbind at 1, result_bind. unfold mbind at 1, M_bind at 1.
  destruct (PyServer.list_directory_params arguments) as [params|e0]; [|by intros [= ->]].
  intros Hv. unfold mbind at 1, M_bind at 1. unfold mbind at 1, M_bind at 1, get_state.
  unfold proc_fs in Hv. by rewrite Hv.
Qed.

Lemma result_bind_assoc {A B C} (r : result A) (f : A -> result B) (g : B -> result C) :
  (b ← (a ← r; f a); g b) = (a ← r; b ← f a; g b).
Proof. by destruct r. Qed.

Lemma expand_path_raises env fs s e :
  PyServer.expand_path env fs s = Raise e ->
  exn_class e = "RuntimeError" \/ exn_class e = "ValueError".
Proof.
  unfold PyServer.expand_path, path_resolve. destruct (startswith s "~/"); [discriminate|].
  destruct (has_char _ _); [intros [= <-]; by right|].
  destruct (lookup_path Lexical env fs _); [|discriminate]. intros [= <-]. by left.
Qed.

(** [validate_path] raises the error of an expansion or the permission
    error that names the requested path. *)
Lemma validate_path_raises cfg env fs s e :
  PyServer.validate_path cfg env fs s = Raise e ->
  exn_class e = "RuntimeError" \/ exn_class e = "ValueError" \/
  e = Exn "PermissionError" ("Path outside sandbox: " +:+ s).
Proof.
  unfold PyServer.validate_path, mbind, result_bind.
  destruct (PyServer.expand_path env fs s) as [resolved|e1] eqn:He.
  - destruct (result_map (PyServer.expand_path env fs) (PyServer.allowed_directories cfg))
      as [allowed_paths|e2] eqn:Hm.
    + destruct (PyServer.first_containing resolved allowed_paths); [discriminate|].
      intros [= <-]. tauto.
    + intros [= <-]. apply result_map_raises in Hm as [x Hx].
      apply expand_path_raises in Hx. tauto.
  - intros [= <-]. apply expand_path_raises in He. tauto.
Qed.

Lemma str_field_raises model name max_length kw e :
  PyServer.str_field model name max_length kw = Raise e -> e = PyServer.ValidationError model.
Proof.
  unfold PyServer.str_field. destruct (kw !! name) as [[]|]; try (by intros [= <-]).
  case_bool_decide; [by intros [= <-] | discriminate].
Qed.

Lemma requested_path_raises name arguments e :
  requested_path name arguments = Raise e -> exn_class e <> "PermissionError".
Proof.
  unfold requested_path, PyServer.read_file_params, PyServer.write_file_params,
    PyServer.list_directory_params, PyServer.kwargs.
  repeat case_bool_decide; try (intros [= <-]; discriminate);
    (destruct arguments; cbn [mbind result_bind]; try (intros [= <-]; discriminate)).
  - destruct (PyServer.str_field _ _ _ _); [destruct (PyServer.encoding_field _ _)|];
      cbn [mbind result_bind]; try discriminate; intros [= <-]; discriminate.
  - destruct (PyServer.str_field _ "path" _ _); [destruct (PyServer.str_field _ _ _ _);
      [destruct (PyServer.encoding_field _ _)|]|];
      cbn [mbind result_bind]; try discriminate; intros [= <-]; discriminate.
  - destruct (PyServer.str_field _ _ _ _) eqn:Hf; cbn [mbind result_bind]; [discriminate|].
    intros [= <-]. by apply str_field_raises in Hf as ->.
Qed.

(** X9. A call of one of the three path tools whose arguments are not
    accepted, or whose path is not validated, touches nothing beyond the
    resolution of the path: no file or directory is statted, read, listed,
    created or written, and the operating system is exactly as before the
    call. When the rate limiter admits the call it is audited once as an
    error with the class of the exception, and a path outside the sandbox
    is answered by the permission error that names the path as the caller
    wrote it. The symbolic-link loops that the resolution reports are left
    out. *)
Theorem rejected_request_touches_no_file (cfg : PyServer.Config) (env : os_env)
    (now : Z) (name : string) (arguments : jvalue) (p : PyServer.Proc) (e : exn) :
  name ∈ path_tools ->
  accepted_path cfg env (proc_fs p) name arguments = Raise e ->
  exn_class e <> "RuntimeError" ->
  let call := PyServer.handle_call_tool cfg env now name arguments p in
  PyServer.os (snd call) = PyServer.os p /\
  (Z.of_nat (length (recent_calls now p)) < PyServer.rate_limit cfg ->
   (exists entry,
       PyServer.stderr (snd call) = PyServer.stderr p ++ [entry] /\
       PyServer.entry_outcome entry = PyServer.error /\
       PyServer.tool entry = name /\
       PyServer.details entry = Some {[ "error_code" := exn_class e ]}) /\
   (exn_class e = "PermissionError" ->
    exists path,
      requested_path name arguments = Ok path /\
      fst call = Ok (PyServer.TextResult ("Error: Path outside sandbox: " +:+ path)))).
Proof.
  intros Hname Hrej _ call. subst call.
  destruct (decide (Z.of_nat (length (recent_calls now p)) >= PyServer.rate_limit cfg))
    as [Hfull|Hfree].
  { rewrite (handle_call_tool_limited _ _ _ _ _ _ Hfull). split; [reflexivity | lia]. }
  assert (Hbody : PyServer.tool_body cfg env now name arguments p
                  = (Raise e, after_admission now p)).
  { rewrite tool_body_after_admission by done.
    assert (Hrej1 : accepted_path cfg env (proc_fs (after_admission now p)) name arguments
                    = Raise e) by exact Hrej.
    unfold accepted_path, requested_path in Hrej1. unfold path_tools in Hname.
    each_member Hname; pick_tool; simpl in Hrej1; rewrite result_bind_assoc in Hrej1.
    - by apply read_rejected.
    - by apply write_rejected.
    - by apply list_rejected. }
  rewrite (handle_call_tool_raised _ _ _ _ _ _ _ _ Hbody).
  split; [reflexivity|]. intros _. split.
  - unfold after_audit. rewrite logged_error_code. cbn [snd PyServer.stderr].
    eexists. split; [reflexivity|]. by repeat split.
  - intros Hclass. unfold accepted_path, mbind, result_bind in Hrej.
    destruct (requested_path name arguments) as [path|e0] eqn:Hreq.
    2:{ injection Hrej as <-. by apply requested_path_raises in Hreq. }
    exists path. split; [reflexivity|].
    apply validate_path_raises in Hrej as [Hc|[Hc| ->]]; [congruence | congruence |].
    reflexivity.
Qed.

Lemma rejected_request_touches_no_file_witness :
  let call := PyServer.handle_call_tool (sample_cfg 6) sample_env 0 "read_file_sandboxed"
                (path_args "/allowed/../allowed-evil/x") sample_proc in
  PyServer.os (snd call) = MkOS sample_fs [] /\
  fst call = Ok (PyServer.TextResult
                   "Error: Path outside sandbox: /allowed/../allowed-evil/x").
Proof.
  intros call.
  destruct (rejected_request_touches_no_file (sample_cfg 6) sample_env 0
              "read_file_sandboxed" (path_args "/allowed/../allowed-evil/x") sample_proc
              (Exn "PermissionError" "Path outside sandbox: /allowed/../allowed-evil/x"))
    as [Hos Hreply].
  - unfold path_tools. by left.
  - vm_compute. reflexivity.
  - discriminate.
  - split; [exact Hos|].
    destruct Hreply as [_ Hperm]; [vm_compute; reflexivity|].
    destruct (Hperm eq_refl) as (path & Hpath & Hfst).
    assert (path = "/allowed/../allowed-evil/x") as ->
      by (vm_compute in Hpath; congruence).
    exact Hfst.
Defined.

Lemma audit_ret_keeps_os {A} now tool oc details (a : A) :
  preserves PyServer.os (PyServer.audit_log now tool oc details ≫= fun _ => mret a).
Proof. apply preserves_bind; [apply audit_keeps_os | intros; apply preserves_ret]. Qed.

Lemma read_keeps_fs cfg env now arguments :
  preserves proc_fs (PyServer.read_file_sandboxed cfg env now arguments).
Proof.
  unfold PyServer.read_file_sandboxed.
  apply preserves_bind; [apply preserves_lift_result|]. intros params.
  apply preserves_bind; [apply preserves_validate|]. intros safe_path.
  apply preserves_bind; [apply lift_os_keeps_fs, os_stat_keeps_fs|]. intros st.
  case_bool_decide; [apply preserves_raise|].
  apply preserves_bind; [|intros content; apply os_kept_fs_kept, audit_ret_keeps_os].
  destruct (PyServer.r_encoding params).
  - apply preserves_bind; [apply lift_os_keeps_fs, os_read_keeps_fs|].
    intros data. apply preserves_lift_result.
  - apply preserves_bind; [apply lift_os_keeps_fs, os_read_keeps_fs|].
    intros data. apply preserves_ret.
Qed.

Lemma list_keeps_fs cfg env now arguments :
  preserves proc_fs (PyServer.list_directory cfg env now arguments).
Proof.
  unfold PyServer.list_directory.
  apply preserves_bind; [apply preserves_lift_result|]. intros params.
  apply preserves_bind; [apply preserves_validate|]. intros safe_path.
  apply preserves_bind; [apply lift_os_keeps_fs, path_is_dir_keeps_fs|]. intros d.
  destruct (negb d); [apply preserves_raise|].
  apply preserves_bind; [apply lift_os_keeps_fs, os_listdir_keeps_fs|]. intros names.
  apply preserves_bind; [|intros items; apply os_kept_fs_kept, audit_ret_keeps_os].
  apply preserves_m_map. intros name.
  apply preserves_bind; [apply lift_os_keeps_fs, path_is_dir_keeps_fs|].
  intros isd. apply preserves_ret.
Qed.

Lemma on_error_keeps_os now name e : preserves PyServer.os (PyServer.on_error now name e).
Proof. unfold PyServer.on_error. apply audit_ret_keeps_os. Qed.

(** X10. Only the write tool changes the file system: after a call of any
    other tool, whatever its name, its arguments and its outcome, every
    file, directory and link is as it was before the call. *)
Theorem read_only_tools_keep_the_file_system (cfg : PyServer.Config) (env : os_env)
    (now : Z) (name : string) (arguments : jvalue) (p : PyServer.Proc) :
  name <> "write_file_sandboxed" ->
  proc_fs (snd (PyServer.handle_call_tool cfg env now name arguments p)) = proc_fs p.
Proof.
  intros Hname. revert p. change (preserves proc_fs
    (PyServer.handle_call_tool cfg env now name arguments)).
  unfold PyServer.handle_call_tool.
  apply preserves_try; [|intros e; apply os_kept_fs_kept, on_error_keeps_os].
  unfold PyServer.tool_body.
  apply preserves_bind; [apply os_kept_fs_kept, lift_srv_keeps_os|]. intros _.
  repeat case_bool_decide; try done;
    first [ apply read_keeps_fs | apply list_keeps_fs | apply preserves_raise
          | apply os_kept_fs_kept, audit_ret_keeps_os
          | apply preserves_bind; [apply preserves_get|]; intros q;
            apply os_kept_fs_kept, audit_ret_keeps_os ].
Qed.

Lemma read_only_tools_keep_the_file_system_witness :
  proc_fs (snd (PyServer.handle_call_tool (sample_cfg 6) sample_env 0 "list_directory"
                  (path_args "/allowed") sample_proc)) = sample_fs.
Proof.
  apply (read_only_tools_keep_the_file_system (sample_cfg 6) sample_env 0 "list_directory"
           (path_args "/allowed") sample_proc).
  discriminate.
Defined.

(** X11. The tools that take no path make no system call at all, whatever
    arguments they are given: [health_check], [capabilities] and every
    unknown name leave the operating system exactly as it was. An unknown
    name that the rate limiter admits is answered by the unknown-tool
    error. *)
Theorem tools_without_a_path_make_no_system_call (cfg : PyServer.Config) (env : os_env)
    (now : Z) (name : string) (arguments : jvalue) (p : PyServer.Proc) :
  name ∉ path_tools ->
  let call := PyServer.handle_call_tool cfg env now name arguments p in
  PyServer.os (snd call) = PyServer.os p /\
  (name <> "health_check" -> name <> "capabilities" ->
   Z.of_nat (length (recent_calls now p)) < PyServer.rate_limit cfg ->
   fst call = Ok (PyServer.TextResult ("Error: Unknown tool: " +:+ name))).
Proof.
  intros Hname call. subst call.
  assert (Hr : name <> "read_file_sandboxed") by (intros ->; apply Hname; set_unfold; tauto).
  assert (Hw : name <> "write_file_sandboxed") by (intros ->; apply Hname; set_unfold; tauto).
  assert (Hl : name <> "list_directory") by (intros ->; apply Hname; set_unfold; tauto).
  split.
  - revert p. change (preserves PyServer.os
      (PyServer.handle_call_tool cfg env now name arguments)).
    unfold PyServer.handle_call_tool.
    apply preserves_try; [|intros e; apply on_error_keeps_os].
    unfold PyServer.tool_body.
    apply preserves_bind; [apply lift_srv_keeps_os|]. intros _.
    repeat case_bool_decide; try done;
      first [ apply preserves_raise | apply audit_ret_keeps_os
            | apply preserves_bind; [apply preserves_get|]; intros q;
              apply audit_ret_keeps_os ].
  - intros Hh Hc Hfree.
    assert (Hbody : PyServer.tool_body cfg env now name arguments p
                    = (Raise (PyServer.ValueError ("Unknown tool: " +:+ name)),
                       after_admission now p)).
    { unfold PyServer.tool_body. unfold mbind at 1, M_bind at 1. rewrite lift_check_run.
      rewrite bool_decide_eq_false_2 by lia.
      by rewrite !bool_decide_eq_false_2 by done. }
    rewrite (handle_call_tool_raised _ _ _ _ _ _ _ _ Hbody). unfold error_text. simpl.
    destruct name; [|done]. done.
Qed.

Lemma tools_without_a_path_make_no_system_call_witness :
  PyServer.os (snd (PyServer.handle_call_tool (sample_cfg 6) sample_env 0 "capabilities"
                      (path_args "/etc/passwd") sample_proc)) = MkOS sample_fs [] /\
  fst (PyServer.handle_call_tool (sample_cfg 6) sample_env 0 "delete_file"
         (path_args "/allowed/x") sample_proc)
  = Ok (PyServer.TextResult "Error: Unknown tool: delete_file").
Proof.
  split.
  - apply (tools_without_a_path_make_no_system_call (sample_cfg 6) sample_env 0
             "capabilities" (path_args "/etc/passwd") sample_proc).
    unfold path_tools. rewrite !elem_of_cons, elem_of_nil.
    intros [H|[H|[H|[]]]]; discriminate.
  - apply (tools_without_a_path_make_no_system_call (sample_cfg 6) sample_env 0
             "delete_file" (path_args "/allowed/x") sample_proc).
    + unfold path_tools. rewrite !elem_of_cons, elem_of_nil.
      intros [H|[H|[H|[]]]]; discriminate.
    + discriminate.
    + discriminate.
    + vm_compute. reflexivity.
Defined.

(** ** One quota for all tools *)

Lemma write_keeps_windows cfg env now arguments :
  preserves proc_windows (PyServer.write_file_sandboxed cfg env now arguments).
Proof.
  unfold PyServer.write_file_sandboxed.
  apply preserves_bind; [apply preserves_lift_result|]. intros params.
  apply preserves_bind; [apply preserves_validate|]. intros safe_path.
  apply preserves_bind; [apply lift_os_keeps_windows|]. intros _.
  apply preserves_bind; [|intros u; apply preserves_bind;
                           [apply audit_keeps_windows | intros; apply preserves_ret]].
  destruct (PyServer.w_encoding params).
  - apply lift_os_keeps_windows.
  - apply preserves_bind; [apply preserves_lift_result|]. intros data.
    apply lift_os_keeps_windows.
Qed.

Lemma read_keeps_windows cfg env now arguments :
  preserves proc_windows (PyServer.read_file_sandboxed cfg env now arguments).
Proof.
  unfold PyServer.read_file_sandboxed.
  apply preserves_bind; [apply preserves_lift_result|]. intros params.
  apply preserves_bind; [apply preserves_validate|]. intros safe_path.
  apply preserves_bind; [apply lift_os_keeps_windows|]. intros st.
  case_bool_decide; [apply preserves_raise|].
  apply preserves_bind; [|intros u; apply preserves_bind;
                           [apply audit_keeps_windows | intros; apply preserves_ret]].
  destruct (PyServer.r_encoding params).
  - apply preserves_bind; [apply lift_os_keeps_windows|].
    intros data. apply preserves_lift_result.
  - apply preserves_bind; [apply lift_os_keeps_windows|].
    intros data. apply preserves_ret.
Qed.

Lemma list_keeps_windows cfg env now arguments :
  preserves proc_windows (PyServer.list_directory cfg env now arguments).
Proof.
  unfold PyServer.list_directory.
  apply preserves_bind; [apply preserves_lift_result|]. intros params.
  apply preserves_bind; [apply preserves_validate|]. intros safe_path.
  apply preserves_bind; [apply lift_os_keeps_windows|]. intros d.
  destruct (negb d); [apply preserves_raise|].
  apply preserves_bind; [apply lift_os_keeps_windows|]. intros names.
  apply preserves_bind; [|intros u; apply preserves_bind;
                           [apply audit_keeps_windows | intros; apply preserves_ret]].
  apply preserves_m_map. intros name.
  apply preserves_bind; [apply lift_os_keeps_windows|].
  intros isd. apply preserves_ret.
Qed.

(** Whatever the tool does after the admission check, the windows are as
    the check left them. *)
Lemma handle_call_tool_windows cfg env now name arguments p :
  proc_windows (snd (PyServer.handle_call_tool cfg env now name arguments p))
  = PyServer.rate_limit_window
      (snd (PyServer.check_rate_limit cfg now "default" (PyServer.srv p))).
Proof.
  assert (Hcheck : proc_windows (snd (PyServer.lift_srv
                     (PyServer.check_rate_limit cfg now "default") p))
                   = PyServer.rate_limit_window
                       (snd (PyServer.check_rate_limit cfg now "default" (PyServer.srv p)))).
  { unfold PyServer.lift_srv.
    by destruct (PyServer.check_rate_limit cfg now "default" (PyServer.srv p)). }
  rewrite <- Hcheck.
  unfold PyServer.handle_call_tool, try_except, PyServer.tool_body.
  unfold mbind at 1, M_bind at 1.
  destruct (PyServer.lift_srv (PyServer.check_rate_limit cfg now "default") p)
    as [[u|e] p1]; simpl snd at 2.
  - match goal with |- context [?branch p1] =>
      assert (Hb : preserves proc_windows branch) end.
    { repeat case_bool_decide;
        first [ apply read_keeps_windows | apply write_keeps_windows
              | apply list_keeps_windows | apply preserves_raise
              | apply preserves_bind; [apply audit_keeps_windows | intros; apply preserves_ret]
              | apply preserves_bind; [apply preserves_get|]; intros q;
                apply preserves_bind; [apply audit_keeps_windows | intros; apply preserves_ret] ]. }
    specialize (Hb p1).
    match goal with |- context [?branch p1] => destruct (branch p1) as [[r|e] p2] end;
      simpl in Hb; [exact Hb|].
    rewrite <- Hb. unfold PyServer.on_error, mbind, M_bind. by rewrite audit_log_run.
  - unfold PyServer.on_error, mbind, M_bind. by rewrite audit_log_run.
Qed.

(** The admission check reads and writes the windows only. *)
Lemma check_rate_limit_windows_only cfg now c st st' :
  PyServer.rate_limit_window st = PyServer.rate_limit_window st' ->
  is_ok (fst (PyServer.check_rate_limit cfg now c st))
  = is_ok (fst (PyServer.check_rate_limit cfg now c st')) /\
  PyServer.rate_limit_window (snd (PyServer.check_rate_limit cfg now c st))
  = PyServer.rate_limit_window (snd (PyServer.check_rate_limit cfg now c st')).
Proof.
  intros Hw. rewrite !check_rate_limit_run.
  unfold PyServer.window_of, PyServer.touch_window. rewrite Hw.
  case_bool_decide; simpl; (split; [reflexivity|]);
    destruct (PyServer.rate_limit_window st' !! c); simpl; congruence.
Qed.

Lemma handle_call_tool_not_admitted cfg env now name arguments p :
  is_ok (fst (PyServer.check_rate_limit cfg now "default" (PyServer.srv p))) = false ->
  fst (PyServer.handle_call_tool cfg env now name arguments p) = Ok rate_limit_reply.
Proof.
  rewrite check_rate_limit_run. case_bool_decide as Hfull; [|discriminate]. intros _.
  by rewrite handle_call_tool_limited.
Qed.

(** The replies to a sequence of calls, against the admission checks of
    one client at the same times. *)
Lemma serve_replies_flags cfg env reqs p st :
  PyServer.rate_limit_window st = proc_windows p ->
  Forall2 (fun (flag : bool) reply => flag = false -> reply = Ok rate_limit_reply)
    (fst (run_calls cfg "default" (map req_time reqs) st))
    (serve_replies cfg env reqs p).
Proof.
  revert p st. induction reqs as [|r rest IH]; intros p st Hw; [constructor|].
  simpl.
  destruct (check_rate_limit_windows_only cfg (req_time r) "default" st (PyServer.srv p) Hw)
    as [Hflag Hwin].
  pose proof (handle_call_tool_windows cfg env (req_time r) (req_name r)
                (req_arguments r) p) as Hafter.
  pose proof (handle_call_tool_not_admitted cfg env (req_time r) (req_name r)
                (req_arguments r) p) as Hreply.
  destruct (PyServer.check_rate_limit cfg (req_time r) "default" st) as [res st1].
  destruct (PyServer.handle_call_tool cfg env (req_time r) (req_name r)
              (req_arguments r) p) as [reply p1].
  simpl in *. specialize (IH p1 st1).
  destruct (run_calls cfg "default" (map req_time rest) st1) as [flags st2]. simpl in *.
  constructor.
  - intros Hfalse. apply Hreply. congruence.
  - apply IH. congruence.
Qed.

(** X12. The quota is one for all tools. Every call runs the admission
    check of the same client before it looks at the name of the tool, and
    whatever happens afterwards (a reply, a refused path, an unknown tool)
    the windows stay as the check left them: a failed call uses up a slot
    like a successful one. Hence of [N + 1] calls within sixty seconds to a
    fresh server, whatever tools they name, the last is answered by the
    rate-limit error. *)
Theorem quota_is_shared_by_all_tools (cfg : PyServer.Config) (env : os_env) :
  (forall now name arguments p,
      proc_windows (snd (PyServer.handle_call_tool cfg env now name arguments p))
      = PyServer.rate_limit_window
          (snd (PyServer.check_rate_limit cfg now "default" (PyServer.srv p)))) /\
  (forall now name arguments p,
      Z.of_nat (length (recent_calls now p)) < PyServer.rate_limit cfg ->
      PyServer.window_of
        (PyServer.srv (snd (PyServer.handle_call_tool cfg env now name arguments p)))
        "default"
      = recent_calls now p ++ [now]) /\
  (forall reqs p,
      0 <= PyServer.rate_limit cfg ->
      PyServer.window_of (PyServer.srv p) "default" = [] ->
      length reqs = S (Z.to_nat (PyServer.rate_limit cfg)) ->
      (forall r r', r ∈ reqs -> r' ∈ reqs -> req_time r' - req_time r < 60) ->
      last (serve_replies cfg env reqs p) = Some (Ok rate_limit_reply)).
Proof.
  split; [intros; apply handle_call_tool_windows|]. split.
  - intros now name arguments p Hfree.
    unfold PyServer.window_of.
    change (PyServer.rate_limit_window (PyServer.srv ?q)) with (proc_windows q).
    rewrite handle_call_tool_windows, check_rate_limit_run.
    rewrite bool_decide_eq_false_2 by (unfold recent_calls in Hfree; lia).
    simpl. by rewrite lookup_insert_eq.
  - intros reqs p HN Hfresh Hlen Hclose.
    pose proof (serve_replies_flags cfg env reqs p (PyServer.srv p) eq_refl) as Hflags.
    rewrite run_calls_burst in Hflags.
    + rewrite Hfresh in Hflags. simpl in Hflags.
      rewrite (burst_flags_fresh _ 0 (Z.to_nat (PyServer.rate_limit cfg))) in Hflags;
        [|lia | by rewrite length_map].
      apply Forall2_app_inv_l in Hflags as (front & back & _ & Hback & ->).
      apply Forall2_cons_inv_l in Hback as (reply & tl & Hreply & Htl & ->).
      apply Forall2_nil_inv_l in Htl as ->.
      rewrite last_snoc. f_equal. by apply Hreply.
    + rewrite Hfresh. simpl. intros t t' Ht Ht'.
      apply list_elem_of_fmap in Ht as (r & -> & Hr).
      apply list_elem_of_fmap in Ht' as (r' & -> & Hr').
      specialize (Hclose r r' Hr Hr'). lia.
Qed.

Lemma quota_is_shared_by_all_tools_witness :
  last (serve_replies (PyServer.MkConfig ["/allowed"] 6 2) sample_env
          [Request 0 "health_check" (JObj []); Request 5 "no_such_tool" (JObj []);
           Request 9 "read_file_sandboxed" (path_args "/allowed/x")] sample_proc)
  = Some (Ok rate_limit_reply).
Proof.
  apply (proj2 (proj2 (quota_is_shared_by_all_tools
                         (PyServer.MkConfig ["/allowed"] 6 2) sample_env))).
  - simpl. lia.
  - reflexivity.
  - reflexivity.
  - intros r r' Hr Hr'. each_member Hr; each_member Hr'; simpl; lia.
Defined.

(** ** The size of the stored windows *)

Lemma check_rate_limit_bound cfg now c st :
  0 <= PyServer.rate_limit cfg ->
  Z.of_nat (length (PyServer.window_of st c)) <= PyServer.rate_limit cfg ->
  Z.of_nat (length (PyServer.window_of (snd (PyServer.check_rate_limit cfg now c st)) c))
  <= PyServer.rate_limit cfg.
Proof.
  intros HN Hlen. pose proof (check_rate_limit_window cfg now c st) as Hw. simpl in Hw.
  destruct (PyServer.check_rate_limit cfg now c st) as [r st']. simpl.
  destruct Hw as (Hadm & Hok & Hrej & _).
  destruct r as [[]|e].
  - rewrite (Hok eq_refl), length_app. simpl. pose proof (proj1 Hadm eq_refl). lia.
  - by rewrite (Hrej ltac:(discriminate) c).
Qed.

(** X13. The limiter never stores more than [N] timestamps for a client:
    a window that holds at most [N] timestamps holds at most [N] after any
    sequence of checks, and right after an admitted check every stored
    timestamp is less than sixty seconds old. A rejected check stores
    nothing and prunes nothing. *)
Theorem window_never_exceeds_the_limit (cfg : PyServer.Config) (c : string) :
  0 <= PyServer.rate_limit cfg ->
  (forall times st,
      Z.of_nat (length (PyServer.window_of st c)) <= PyServer.rate_limit cfg ->
      Z.of_nat (length (PyServer.window_of (snd (run_calls cfg c times st)) c))
      <= PyServer.rate_limit cfg) /\
  (forall now st t,
      fst (PyServer.check_rate_limit cfg now c st) = Ok tt ->
      t ∈ PyServer.window_of (snd (PyServer.check_rate_limit cfg now c st)) c ->
      now - 60 < t) /\
  (forall now st,
      fst (PyServer.check_rate_limit cfg now c st) <> Ok tt ->
      PyServer.window_of (snd (PyServer.check_rate_limit cfg now c st)) c
      = PyServer.window_of st c).
Proof.
  intros HN. split; [|split].
  - intros times. induction times as [|now rest IH]; intros st Hlen; [exact Hlen|].
    simpl. pose proof (check_rate_limit_bound cfg now c st HN Hlen) as Hb.
    destruct (PyServer.check_rate_limit cfg now c st) as [r st1]. simpl in Hb.
    specialize (IH st1 Hb). by destruct (run_calls cfg c rest st1).
  - intros now st t Hadm Hin.
    pose proof (check_rate_limit_window cfg now c st) as Hw. simpl in Hw.
    destruct (PyServer.check_rate_limit cfg now c st) as [r st']. simpl in *.
    destruct Hw as (_ & Hok & _). rewrite (Hok Hadm) in Hin.
    apply elem_of_app in Hin as [Hin|Hin].
    + apply prune_spec in Hin as [_ Hnew]. lia.
    + apply list_elem_of_singleton in Hin. lia.
  - intros now st Hrej.
    pose proof (check_rate_limit_window cfg now c st) as Hw. simpl in Hw.
    destruct (PyServer.check_rate_limit cfg now c st) as [r st']. simpl in *.
    destruct Hw as (_ & _ & Hkeep & _). by apply Hkeep.
Qed.

Lemma window_never_exceeds_the_limit_witness :
  Z.of_nat (length (PyServer.window_of
                      (snd (run_calls (PyServer.MkConfig ["/allowed"] 6 2) "default"
                              [0; 10; 59; 61; 62; 200] (PyServer.MkState 0 0 ∅)))
                      "default")) <= 2.
Proof.
  apply (proj1 (window_never_exceeds_the_limit (PyServer.MkConfig ["/allowed"] 6 2)
                  "default" ltac:(simpl; lia))).
  vm_compute. discriminate.
Defined.

(** ** Listing a directory *)




Lemma with_events_nil p : with_events [] p = p.
Proof. destruct p as [st log [fs tr]]. unfold with_events. simpl. by rewrite app_nil_r. Qed.

Lemma lift_path_is_dir_run env q p :
  PyServer.lift_os (path_is_dir env q) p
  = (Ok (is_dir_at env (proc_fs p) (path_str q)), with_events [EvStat (path_str q)] p).
Proof. destruct p as [st log [fs tr]]. reflexivity. Qed.

(** The loop of [list_directory] over the names of the entries. *)
Lemma list_items_run env dir names p :
  PyServer.m_map (fun name =>
      isd ← PyServer.lift_os (path_is_dir env (MkPath (root dir) (parts dir ++ [name])));
      mret (name, if isd : bool then "directory" else "file")) names p
  = (Ok (map (fun n => (n, entry_kind env (proc_fs p) dir n)) names),
     with_events (map (fun n => EvStat (path_str (child_path dir n))) names) p).
Proof.
  revert p. induction names as [|n names IH]; intros p.
  - simpl. by rewrite with_events_nil.
  - simpl PyServer.m_map. unfold mbind at 1, M_bind at 1. unfold mbind at 1, M_bind at 1.
    rewrite lift_path_is_dir_run. unfold mret at 1, M_ret at 1.
    unfold mbind, M_bind. rewrite IH. rewrite with_events_app. reflexivity.
Qed.

(** Every outcome of the listing branch once its arguments and its path
    were accepted. *)
Lemma list_directory_run cfg env now arguments p path safe_path :
  PyServer.list_directory_params arguments = Ok (PyServer.MkList path) ->
  PyServer.validate_path cfg env (proc_fs p) path = Ok safe_path ->
  let sp := path_str safe_path in
  PyServer.list_directory cfg env now arguments p =
  match lookup_path MustExist env (proc_fs p) sp with
  | inr q =>
      match node_at (proc_fs p) q with
      | Some Dir =>
          (Ok (PyServer.ItemsResult
                 (map (fun n => (n, entry_kind env (proc_fs p) safe_path n))
                      (children (proc_fs p) q))),
           after_audit now "list_directory" PyServer.success (Some {[ "path" := path ]})
             (with_events
                (EvStat sp :: EvListdir sp ::
                 map (fun n => EvStat (path_str (child_path safe_path n)))
                     (children (proc_fs p) q)) p))
      | _ => (Raise (PyServer.ValueError ("Not a directory: " +:+ path)),
              with_events [EvStat sp] p)
      end
  | inl _ => (Raise (PyServer.ValueError ("Not a directory: " +:+ path)),
              with_events [EvStat sp] p)
  end.
Proof.
  intros Hparams Hvalid sp.
  unfold PyServer.list_directory, PyServer.validate_path_now, PyServer.lift_result.
  unfold mbind at 1, M_bind at 1. rewrite Hparams.
  unfold mbind at 1, M_bind at 1. unfold mbind at 1, M_bind at 1, get_state.
  simpl PyServer.l_path. unfold proc_fs in Hvalid. rewrite Hvalid.
  unfold mbind at 1, M_bind at 1. rewrite lift_path_is_dir_run. fold sp.
  unfold is_dir_at.
  destruct (lookup_path MustExist env (proc_fs p) sp) as [err|q] eqn:Hl; [reflexivity|].
  destruct (node_at (proc_fs p) q) as [[c| |t]|] eqn:Hn; try reflexivity.
  change (negb true) with false. cbv beta iota.
  unfold mbind at 1, M_bind at 1.
  assert (Hls : PyServer.lift_os (os_listdir env sp) (with_events [EvStat sp] p)
                = (Ok (children (proc_fs p) q), with_events [EvStat sp; EvListdir sp] p)).
  { destruct p as [st log [fs tr]]. unfold PyServer.lift_os, os_listdir. run_m.
    unfold proc_fs in Hl, Hn. simpl in Hl, Hn. rewrite Hl, Hn.
    unfold with_events. simpl. by rewrite <- app_assoc. }
  rewrite Hls. unfold mbind at 1, M_bind at 1.
  rewrite list_items_run, with_events_app.
  unfold mbind, M_bind. rewrite audit_log_run. reflexivity.
Qed.

(** X14. [list_directory] on a validated path that does not lead to a
    directory (nothing exists there, or a regular file, or a dangling link)
    raises [ValueError] with the text "Not a directory:" and the path as
    the caller wrote it. A missing path is thus not reported as missing.
    The only system call is the stat of [is_dir()]: nothing is listed, and
    nothing is written to the audit log by the branch. This holds of paths
    and links within the limits of the kernel on the length of names and
    paths; beyond them [is_dir()] raises the error of the stat. Access
    rights are no part of the file system here: every directory may be
    searched. *)
Theorem listing_what_is_no_directory (cfg : PyServer.Config) (env : os_env) (now : Z)
    (arguments : jvalue) (p : PyServer.Proc) (path : string) (safe_path : Path) :
  PyServer.list_directory_params arguments = Ok (PyServer.MkList path) ->
  PyServer.validate_path cfg env (proc_fs p) path = Ok safe_path ->
  within_limits (proc_fs p) (path_str safe_path) = true ->
  is_dir_at env (proc_fs p) (path_str safe_path) = false ->
  PyServer.list_directory cfg env now arguments p
  = (Raise (PyServer.ValueError ("Not a directory: " +:+ path)),
     with_events [EvStat (path_str safe_path)] p).
Proof.
  intros Hparams Hvalid _ Hdir.
  rewrite (list_directory_run _ _ _ _ _ _ _ Hparams Hvalid). cbv zeta.
  unfold is_dir_at in Hdir.
  destruct (lookup_path MustExist env (proc_fs p) (path_str safe_path)) as [err|q];
    [reflexivity|].
  destruct (node_at (proc_fs p) q) as [[c| |t]|]; try reflexivity. discriminate.
Qed.

Lemma listing_what_is_no_directory_witness :
  PyServer.list_directory (sample_cfg 6) sample_env 0 (path_args "/allowed/missing")
    sample_proc
  = (Raise (PyServer.ValueError "Not a directory: /allowed/missing"),
     with_events [EvStat "/allowed/missing"] sample_proc) /\
  PyServer.list_directory (sample_cfg 6) sample_env 0 (path_args "/allowed/./x") sample_proc
  = (Raise (PyServer.ValueError "Not a directory: /allowed/./x"),
     with_events [EvStat "/allowed/x"] sample_proc).
Proof.
  split.
  - apply (listing_what_is_no_directory (sample_cfg 6) sample_env 0
             (path_args "/allowed/missing") sample_proc "/allowed/missing"
             (MkPath "/" ["allowed"; "missing"])); vm_compute; reflexivity.
  - apply (listing_what_is_no_directory (sample_cfg 6) sample_env 0
             (path_args "/allowed/./x") sample_proc "/allowed/./x"
             (MkPath "/" ["allowed"; "x"])); vm_compute; reflexivity.
Defined.



(** ** Looking up a path in a file system that changes *)

(** The non-strict resolution sees the symbolic links only. *)
Lemma walk_lexical_same_links fs fs' fuel path rest :
  same_links fs fs' ->
  walk Lexical fs fuel path rest = walk Lexical fs' fuel path rest.
Proof.
  intros Hsame. revert path rest.
  induction fuel as [|fuel IHf]; intros path rest; revert path;
    (induction rest as [|name rest IHr]; intros path; [by rewrite !walk_nil|]);
    rewrite !walk_cons; destruct (is_skipped name); try apply IHr;
    case_bool_decide; try apply IHr;
    destruct (fs !! (path ++ [name])) as [[c| |t]|] eqn:E;
    destruct (fs' !! (path ++ [name])) as [[c'| |t']|] eqn:E';
    try apply IHr;
    try (apply Hsame in E; congruence); try (apply Hsame in E'; congruence).
  apply Hsame in E. assert (t' = t) by congruence. subst t'. apply IHf.
Qed.

Lemma path_resolve_same_links env fs fs' p :
  same_links fs fs' -> path_resolve env fs p = path_resolve env fs' p.
Proof.
  intros Hsame. unfold path_resolve, lookup_path.
  rewrite (walk_lexical_same_links fs fs' max_symlinks _ _ Hsame).
  reflexivity.
Qed.

Lemma expand_path_same_links env fs fs' s :
  same_links fs fs' -> PyServer.expand_path env fs s = PyServer.expand_path env fs' s.
Proof.
  intros Hsame. unfold PyServer.expand_path.
  destruct (startswith s "~/"); [reflexivity | by apply path_resolve_same_links].
Qed.

(** Validation gives the same answer in two file systems that have the
    same symbolic links. *)
Lemma validate_path_same_links cfg env fs fs' s :
  same_links fs fs' ->
  PyServer.validate_path cfg env fs s = PyServer.validate_path cfg env fs' s.
Proof.
  intros Hsame. unfold PyServer.validate_path.
  rewrite (expand_path_same_links env fs fs' s Hsame).
  assert (Hmap : forall l, result_map (PyServer.expand_path env fs) l
                           = result_map (PyServer.expand_path env fs') l).
  { induction l as [|x l IH]; cbn [result_map]; [reflexivity|].
    rewrite (expand_path_same_links env fs fs' x Hsame), IH. reflexivity. }
  rewrite Hmap. reflexivity.
Qed.

Lemma no_link_above_nil fs : no_link_above fs [].
Proof. intros pre t Hpre. apply prefix_nil_inv in Hpre as ->. discriminate. Qed.

Lemma removelast_prefix (l : list string) : removelast l `prefix_of` l.
Proof.
  destruct (decide (l = [])) as [->|Hne]; [done|].
  exists [List.last l ""]. by apply app_removelast_last.
Qed.

Lemma no_link_above_removelast fs path :
  no_link_above fs path -> no_link_above fs (removelast path).
Proof.
  intros H pre t Hpre. apply H. etrans; [exact Hpre | apply removelast_prefix].
Qed.

Lemma no_link_above_snoc fs path name :
  no_link_above fs path ->
  (forall t, fs !! (path ++ [name]) <> Some (Symlink t)) ->
  no_link_above fs (path ++ [name]).
Proof.
  intros H Hnew pre t Hpre.
  destruct (decide (pre = path ++ [name])) as [->|Hne].
  - destruct path; apply Hnew.
  - apply H. destruct Hpre as [k Hk].
    destruct (decide (k = [])) as [->|Hk'].
    + rewrite app_nil_r in Hk. congruence.
    + assert (Hlast : exists k' x, k = k' ++ [x]).
      { exists (removelast k), (List.last k ""). by apply app_removelast_last. }
      destruct Hlast as (k' & x & ->). rewrite app_assoc in Hk.
      apply app_inj_tail in Hk as [-> _]. by exists k'.
Qed.

(** A strict lookup never ends on a symbolic link, nor below one. *)
Lemma walk_strict_no_link mode fs fuel path rest q :
  mode <> Lexical -> no_link_above fs path ->
  walk mode fs fuel path rest = inr q -> no_link_above fs q.
Proof.
  intros Hmode. revert path rest.
  induction fuel as [|fuel IHf]; intros path rest; revert path;
    (induction rest as [|name rest IHr]; intros path Hpath;
     [rewrite walk_nil; by intros [= <-]|]);
    rewrite walk_cons; destruct (is_skipped name); try (by apply IHr);
    case_bool_decide; try (apply IHr; by apply no_link_above_removelast);
    destruct (fs !! (path ++ [name])) as [[c| |t]|] eqn:E; try discriminate;
    try (apply IHr; apply no_link_above_snoc; [done | congruence]).
  - destruct mode, rest; try done; try discriminate;
      apply IHr; apply no_link_above_snoc; (done || congruence).
  - destruct mode, rest; try done; try discriminate;
      apply IHr; apply no_link_above_snoc; (done || congruence).
  - destruct mode, rest; try done; try discriminate;
      apply IHr; apply no_link_above_snoc; (done || congruence).
  - apply IHf. destruct (is_abs t); [apply no_link_above_nil | exact Hpath].
  - destruct mode, rest; try done; try discriminate;
      apply IHr; apply no_link_above_snoc; (done || congruence).
Qed.

(** A strict lookup that ended on a free name or on a regular file ends on
    the same node once a file was stored there. *)
Lemma walk_after_write mode fs fuel path rest q d :
  mode <> Lexical ->
  (forall t, fs !! q <> Some (Symlink t)) -> fs !! q <> Some Dir ->
  walk mode fs fuel path rest = inr q ->
  walk MustExist (<[q := File d]> fs) fuel path rest = inr q.
Proof.
  intros Hmode Hlink Hdir. revert path rest.
  induction fuel as [|fuel IHf]; intros path rest; revert path;
    (induction rest as [|name rest IHr]; intros path;
     [rewrite !walk_nil; by intros [= <-]|]);
    rewrite !walk_cons; destruct (is_skipped name); try (by apply IHr);
    case_bool_decide; try (by apply IHr);
    (destruct (decide (path ++ [name] = q)) as [Heq|Hne];
     [ rewrite Heq, lookup_insert_eq;
       destruct (fs !! q) as [[c| |t]|] eqn:E;
       [ | congruence | exfalso; by eapply Hlink | ];
       destruct mode, rest; try done; try discriminate;
       rewrite !walk_nil; intros _; reflexivity
     | rewrite lookup_insert_ne by congruence;
       destruct (fs !! (path ++ [name])) as [[c| |t]|] eqn:E; try discriminate;
       try (by apply IHr) ]).
  - destruct mode, rest; try done; try discriminate;
      rewrite !walk_nil; intros [= Hq]; congruence.
  - destruct mode, rest; try done; try discriminate;
      rewrite !walk_nil; intros [= Hq]; congruence.
  - destruct mode, rest; try done; try discriminate;
      rewrite !walk_nil; intros [= Hq]; congruence.
  - apply IHf.
  - destruct mode, rest; try done; try discriminate;
      rewrite !walk_nil; intros [= Hq]; congruence.
Qed.

Lemma dirs_added_same_links fs fs' : dirs_added fs fs' -> same_links fs fs'.
Proof.
  intros Hd k t. destruct (Hd k) as [Heq|[Hnone Hdir]]; [by rewrite Heq|].
  rewrite Hnone, Hdir. split; discriminate.
Qed.

Lemma insert_file_same_links (fs : fsmap) q d :
  (forall t, fs !! q <> Some (Symlink t)) -> same_links fs (<[q := File d]> fs).
Proof.
  intros Hq k t. destruct (decide (q = k)) as [<-|Hne].
  - rewrite lookup_insert_eq. split; [intros H; by apply Hq in H | discriminate].
  - by rewrite lookup_insert_ne.
Qed.

Lemma same_links_trans fs1 fs2 fs3 :
  same_links fs1 fs2 -> same_links fs2 fs3 -> same_links fs1 fs3.
Proof. intros H12 H23 k t. etrans; [apply H12 | apply H23]. Qed.

Lemma os_write_run env sp data fs tr :
  os_write env sp data (MkOS fs tr) =
  match lookup_path MayCreate env fs sp with
  | inl err => (Raise (os_error err sp), MkOS fs (tr ++ [EvWrite sp]))
  | inr q =>
      match node_at fs q with
      | Some Dir =>
          (Raise (Exn "IsADirectoryError" ("[Errno 21] Is a directory: '" +:+ sp +:+ "'")),
           MkOS fs (tr ++ [EvWrite sp]))
      | _ => (Ok tt, MkOS (<[q := File data]> fs) (tr ++ [EvWrite sp]))
      end
  end.
Proof.
  unfold os_write, mbind, M_bind, emit, modify, get_state, put_state, raise.
  cbn [os_fs os_trace].
  destruct (lookup_path MayCreate env fs sp) as [err|q]; [reflexivity|].
  destruct (node_at fs q) as [[c| |t]|]; reflexivity.
Qed.

(** Every outcome of the write branch once its arguments and its path were
    accepted. *)
Lemma write_file_sandboxed_run cfg env now arguments p path content enc safe_path :
  PyServer.write_file_params arguments = Ok (PyServer.MkWrite path content enc) ->
  PyServer.validate_path cfg env (proc_fs p) path = Ok safe_path ->
  PyServer.write_file_sandboxed cfg env now arguments p =
  match path_mkdir_parents env (path_parent safe_path) (PyServer.os p) with
  | (Raise e, w1) => (Raise e, with_os w1 p)
  | (Ok _, w1) =>
      match written_bytes enc content with
      | Raise e => (Raise e, with_os w1 p)
      | Ok data =>
          match os_write env (path_str safe_path) data w1 with
          | (Raise e, w2) => (Raise e, with_os w2 p)
          | (Ok _, w2) =>
              (Ok (PyServer.TextResult ("File written successfully: " +:+ path)),
               after_audit now "write_file_sandboxed" PyServer.success
                 (Some {[ "path" := path ]}) (with_os w2 p))
          end
      end
  end.
Proof.
  intros Hparams Hvalid.
  unfold PyServer.write_file_sandboxed, PyServer.validate_path_now, PyServer.lift_result.
  unfold mbind at 1, M_bind at 1. rewrite Hparams.
  unfold mbind at 1, M_bind at 1. unfold mbind at 1, M_bind at 1, get_state.
  cbn [PyServer.w_path PyServer.w_encoding PyServer.w_content].
  unfold proc_fs in Hvalid. rewrite Hvalid.
  unfold mbind at 1, M_bind at 1. unfold PyServer.lift_os at 1.
  destruct (path_mkdir_parents env (path_parent safe_path) (PyServer.os p)) as [[u|e] w1];
    [|reflexivity].
  unfold mbind at 1, M_bind at 1. destruct enc; unfold written_bytes.
  - unfold PyServer.lift_os. cbn [PyServer.os].
    destruct (os_write env (path_str safe_path) content w1) as [[u'|e] w2]; [|reflexivity].
    unfold mbind, M_bind, mret, M_ret. rewrite audit_log_run. reflexivity.
  - unfold mbind at 1, M_bind at 1.
    destruct (Base64.b64decode content) as [data|e]; [|reflexivity].
    unfold PyServer.lift_os. cbn [PyServer.os].
    destruct (os_write env (path_str safe_path) data w1) as [[u'|e] w2]; [|reflexivity].
    unfold mbind, M_bind, mret, M_ret. rewrite audit_log_run. reflexivity.
Qed.

Lemma parse_root_cases s : parse_root s = "" \/ parse_root s = "/" \/ parse_root s = "//".
Proof.
  unfold parse_root. destruct (_ && _); [tauto|]. destruct (startswith s "/"); tauto.
Qed.

Lemma parse_root_abs s : is_abs s = true -> parse_root s <> "".
Proof.
  unfold parse_root, is_abs. intros ->. by destruct (_ && _).
Qed.

Lemma path_str_abs r ps : r = "/" \/ r = "//" -> is_abs (path_str (MkPath r ps)) = true.
Proof.
  intros [->| ->]; unfold is_abs; apply startswith_spec.
  - by exists (join "/" ps).
  - by exists ("/" +:+ join "/" ps).
Qed.

(** With an absolute home directory every expanded path is absolute. *)
Lemma expand_path_abs env fs s q :
  is_abs (env_home env) = true ->
  PyServer.expand_path env fs s = Ok q -> is_abs (path_str q) = true.
Proof.
  intros Hhome. unfold PyServer.expand_path.
  destruct (startswith s "~/").
  - intros [= <-]. unfold path_join. case_bool_decide as Hroot.
    + apply path_str_abs. unfold path_home. cbn [root mkpath].
      pose proof (parse_root_abs _ Hhome).
      destruct (parse_root_cases (env_home env)) as [?|?]; [done | tauto].
    + destruct (mkpath (drop_chars 2 s)) as [r ps] eqn:Hq. apply path_str_abs.
      assert (r = parse_root (drop_chars 2 s)) as -> by (unfold mkpath in Hq; congruence).
      cbn [root] in Hroot.
      destruct (parse_root_cases (drop_chars 2 s)) as [?|?]; [done | tauto].
  - unfold path_resolve. destruct (has_char _ _); [discriminate|].
    destruct (lookup_path Lexical env fs _); [discriminate|].
    intros [= <-]. apply path_str_abs. by left.
Qed.

(** A strict lookup of an absolute path never ends on a symbolic link. *)
Lemma lookup_strict_no_link mode env fs sp q :
  mode <> Lexical -> is_abs sp = true ->
  lookup_path mode env fs sp = inr q -> forall t, node_at fs q <> Some (Symlink t).
Proof.
  intros Hmode Habs Hl t. unfold lookup_path in Hl. rewrite Habs in Hl.
  eapply (walk_strict_no_link _ _ _ _ _ _ Hmode (no_link_above_nil fs) Hl). done.
Qed.

(** What a successful write leaves behind: the validated path, and the file
    system after the parents were created and the bytes were stored. *)
Lemma write_file_sandboxed_ok cfg env now arguments p path content enc r p1 :
  PyServer.write_file_params arguments = Ok (PyServer.MkWrite path content enc) ->
  PyServer.write_file_sandboxed cfg env now arguments p = (Ok r, p1) ->
  exists safe_path fs1 q data,
    PyServer.validate_path cfg env (proc_fs p) path = Ok safe_path /\
    written_bytes enc content = Ok data /\
    dirs_added (proc_fs p) fs1 /\
    lookup_path MayCreate env fs1 (path_str safe_path) = inr q /\
    q <> [] /\ fs1 !! q <> Some Dir /\
    proc_fs p1 = <[q := File data]> fs1 /\
    r = PyServer.TextResult ("File written successfully: " +:+ path).
Proof.
  intros Hparams Hwrite.
  destruct (PyServer.validate_path cfg env (proc_fs p) path) as [safe_path|e] eqn:Hvalid.
  2:{ rewrite (write_rejected cfg env now arguments p e) in Hwrite; [discriminate|].
      rewrite Hparams. exact Hvalid. }
  rewrite (write_file_sandboxed_run _ _ _ _ _ _ _ _ _ Hparams Hvalid) in Hwrite.
  pose proof (path_mkdir_parents_only env (path_parent safe_path) (PyServer.os p)) as Honly.
  destruct (path_mkdir_parents env (path_parent safe_path) (PyServer.os p)) as [[u|e] [fs1 tr1]];
    [|discriminate].
  destruct Honly as [Hdirs _]. cbn [snd os_fs] in Hdirs.
  destruct (written_bytes enc content) as [data|e]; [|discriminate].
  rewrite os_write_run in Hwrite.
  destruct (lookup_path MayCreate env fs1 (path_str safe_path)) as [err|q] eqn:Hl;
    [discriminate|].
  exists safe_path, fs1, q, data.
  destruct q as [|x q']; [discriminate|].
  cbn [node_at] in Hwrite.
  destruct (fs1 !! (x :: q')) as [[c| |t]|] eqn:Hn; try discriminate;
    injection Hwrite as <- <-; by repeat split.
Qed.

(** X16. A file that the write tool stored is what the read tool returns
    for the same path afterwards, when the home directory is absolute and
    the stored bytes do not exceed the size ceiling: the read validates to
    the same place although directories and a file were created in between,
    finds the stored bytes, and returns them decoded as it was asked. Text
    is therefore returned with universal newlines and not always as it was
    written, and content written as base64 comes back encoded again. Text
    content is taken to be encodable, as the write would fail otherwise. *)
Theorem written_file_is_read_back (cfg : PyServer.Config) (env : os_env) (now now' : Z)
    (arguments arguments' : jvalue) (p p1 : PyServer.Proc) (path content : string)
    (enc enc' : PyServer.encoding) (r : PyServer.tool_result) (data : string) :
  is_abs (env_home env) = true ->
  PyServer.write_file_params arguments = Ok (PyServer.MkWrite path content enc) ->
  PyServer.write_file_sandboxed cfg env now arguments p = (Ok r, p1) ->
  written_bytes enc content = Ok data ->
  (enc = PyServer.utf8 -> is_ok (Text.decode_text content) = true) ->
  strlen data <= PyServer.max_file_size cfg ->
  PyServer.read_file_params arguments' = Ok (PyServer.MkRead path enc') ->
  fst (PyServer.read_file_sandboxed cfg env now' arguments' p1)
  = (text ← returned_text enc' data; Ok (PyServer.TextResult text)).
Proof.
  intros Hhome Hparams Hwrite Hdata _ Hsize Hparams'.
  destruct (write_file_sandboxed_ok _ _ _ _ _ _ _ _ _ _ Hparams Hwrite)
    as (safe_path & fs1 & q & data' & Hvalid & Hdata' & Hdirs & Hl & Hq & Hnodir & Hfs & _).
  assert (data' = data) as -> by congruence.
  assert (Habs : is_abs (path_str safe_path) = true).
  { eapply expand_path_abs; [exact Hhome|]. eapply validate_path_expand, Hvalid. }
  assert (Hnolink : forall t, fs1 !! q <> Some (Symlink t)).
  { intros t. pose proof (lookup_strict_no_link MayCreate env fs1 _ q
                            ltac:(discriminate) Habs Hl t) as Hn.
    by destruct q. }
  assert (Hsame : same_links (proc_fs p) (proc_fs p1)).
  { rewrite Hfs. eapply same_links_trans; [by apply dirs_added_same_links|].
    by apply insert_file_same_links. }
  assert (Hvalid1 : PyServer.validate_path cfg env (os_fs (PyServer.os p1))
                      (PyServer.r_path (PyServer.MkRead path enc')) = Ok safe_path).
  { cbn [PyServer.r_path]. change (os_fs (PyServer.os p1)) with (proc_fs p1).
    by rewrite <- (validate_path_same_links cfg env _ _ path Hsame). }
  assert (Hfile : file_at env (os_fs (PyServer.os p1)) (path_str safe_path) data).
  { change (os_fs (PyServer.os p1)) with (proc_fs p1). rewrite Hfs. exists q. split.
    - unfold lookup_path in Hl |- *.
      by apply (walk_after_write MayCreate); [discriminate | | |].
    - destruct q; [done|]. cbn [node_at]. by rewrite lookup_insert_eq. }
  pose proof (read_file_sandboxed_run cfg env now' arguments' p1 _ safe_path
                Hparams' Hvalid1) as Hrun.
  cbv zeta in Hrun.
  rewrite (file_at_stat _ _ _ _ Hfile), (file_at_read _ _ _ _ Hfile) in Hrun.
  cbn [st_size PyServer.r_encoding] in Hrun.
  rewrite bool_decide_eq_false_2 in Hrun by lia.
  rewrite Hrun. unfold returned_text.
  destruct enc'; [destruct (Text.decode_text data)|]; reflexivity.
Qed.

Lemma written_file_is_read_back_witness :
  let written := snd (PyServer.write_file_sandboxed (sample_cfg 100) sample_env 0
                        (write_args "/allowed/new/note.txt" "one" "utf8") sample_proc) in
  fst (PyServer.read_file_sandboxed (sample_cfg 100) sample_env 1
         (path_args "/allowed/new/note.txt") written)
  = Ok (PyServer.TextResult "one") /\
  fst (PyServer.read_file_sandboxed (sample_cfg 100) sample_env 1
         (JObj [("path", JStr "/allowed/new/note.txt"); ("encoding", JStr "base64")]) written)
  = Ok (PyServer.TextResult "b25l").
Proof.
  intros written. split.
  - apply (written_file_is_read_back (sample_cfg 100) sample_env 0 1
             (write_args "/allowed/new/note.txt" "one" "utf8")
             (path_args "/allowed/new/note.txt")
             sample_proc written "/allowed/new/note.txt" "one" PyServer.utf8 PyServer.utf8
             (PyServer.TextResult "File written successfully: /allowed/new/note.txt") "one");
      [reflexivity | vm_compute; reflexivity | vm_compute; reflexivity | reflexivity
      | intros _; vm_compute; reflexivity | vm_compute; discriminate
      | vm_compute; reflexivity].
  - apply (written_file_is_read_back (sample_cfg 100) sample_env 0 1
             (write_args "/allowed/new/note.txt" "one" "utf8")
             (JObj [("path", JStr "/allowed/new/note.txt"); ("encoding", JStr "base64")])
             sample_proc written "/allowed/new/note.txt" "one" PyServer.utf8 PyServer.base64
             (PyServer.TextResult "File written successfully: /allowed/new/note.txt") "one");
      [reflexivity | vm_compute; reflexivity | vm_compute; reflexivity | reflexivity
      | intros _; vm_compute; reflexivity | vm_compute; discriminate
      | vm_compute; reflexivity].
Defined.

(** ** The AllowList of the example server *)

Lemma expand_path_empty env fs :
  PyServer.expand_path env fs "" = Ok (MkPath "/" (env_cwd env)).
Proof.
  unfold PyServer.expand_path. cbn [startswith String.prefix].
  unfold path_resolve, lookup_path.
  change (path_str (mkpath "")) with ".".
  change (is_abs ".") with false. change (components ".") with (@nil string).
  cbv iota. by rewrite walk_nil.
Qed.

(** X17. The AllowList of the example server is the value of
    [ALLOWED_DIRS] cut at every comma and nothing more: it is never empty,
    its entries are neither trimmed nor dropped when they are empty, and
    while the variable is unset it is the one entry [~/Desktop]. An empty
    entry (an empty value, a trailing comma, two commas in a row) expands
    to the working directory of the server, so that with such an entry
    every path below the working directory is accepted. *)
Theorem empty_entry_allows_the_working_directory :
  (forall v, config_allowed_directories v <> []) /\
  config_allowed_directories None = ["~/Desktop"] /\
  (forall l, l <> [] -> Forall (fun x => has_char "," x = false) l ->
             config_allowed_directories (Some (join "," l)) = l) /\
  (forall env fs, PyServer.expand_path env fs "" = Ok (MkPath "/" (env_cwd env))) /\
  (forall cfg env fs requested rest,
      "" ∈ PyServer.allowed_directories cfg ->
      is_ok (result_map (PyServer.expand_path env fs) (PyServer.allowed_directories cfg))
      = true ->
      PyServer.expand_path env fs requested = Ok (MkPath "/" (env_cwd env ++ rest)) ->
      PyServer.validate_path cfg env fs requested = Ok (MkPath "/" (env_cwd env ++ rest))).
Proof.
  split; [intros v; apply split_on_nonempty|]. split; [reflexivity|].
  split; [intros l Hne Hl; by apply split_on_join|].
  split; [exact expand_path_empty|].
  intros cfg env fs requested rest Hin Hmap Hexp.
  unfold PyServer.validate_path, mbind, result_bind. rewrite Hexp.
  destruct (result_map (PyServer.expand_path env fs) (PyServer.allowed_directories cfg))
    as [aps|e] eqn:Haps; [|discriminate].
  destruct (result_map_elem _ _ _ _ Haps Hin) as (a & Ha & Hina).
  rewrite expand_path_empty in Ha. injection Ha as <-.
  destruct (PyServer.first_containing _ aps) as [r|] eqn:Hf.
  - apply first_containing_spec in Hf as [-> _]. reflexivity.
  - exfalso.
    assert (Hsome : PyServer.first_containing (MkPath "/" (env_cwd env ++ rest)) aps
                    = Some (MkPath "/" (env_cwd env ++ rest))).
    { apply first_containing_spec. split; [done|].
      exists (MkPath "/" (env_cwd env)). split; [done|].
      change (is_prefix_of ("/" :: env_cwd env) ("/" :: env_cwd env ++ rest) = true).
      apply is_prefix_of_spec. by exists rest. }
    congruence.
Qed.

Lemma empty_entry_allows_the_working_directory_witness :
  config_allowed_directories (Some "/allowed,") = ["/allowed"; ""] /\
  PyServer.validate_path (PyServer.MkConfig ["/allowed"; ""] 6 60)
    (OsEnv ["srv"; "app"] "/home/user") sample_fs "data/../secrets.txt"
  = Ok (MkPath "/" (["srv"; "app"] ++ ["secrets.txt"])).
Proof.
  destruct empty_entry_allows_the_working_directory as (_ & _ & Hsplit & _ & Hcwd).
  split.
  - apply (Hsplit ["/allowed"; ""]); [discriminate|].
    repeat (apply Forall_cons; split; [reflexivity|]). apply Forall_nil_2.
  - apply (Hcwd (PyServer.MkConfig ["/allowed"; ""] 6 60) (OsEnv ["srv"; "app"] "/home/user")
             sample_fs "data/../secrets.txt" ["secrets.txt"]).
    + cbn [PyServer.allowed_directories]. apply elem_of_cons. right. by left.
    + vm_compute. reflexivity.
    + vm_compute. reflexivity.
Defined.

(** ** The shape of a validated path *)

(** The non-strict resolution leaves no empty component, no [.] and no
    [..] in its answer. *)
Lemma walk_lexical_plain fs fuel path rest q :
  Forall plain_part path ->
  walk Lexical fs fuel path rest = inr q -> Forall plain_part q.
Proof.
  revert path rest.
  induction fuel as [|fuel IHf]; intros path rest; revert path;
    (induction rest as [|name rest IHr]; intros path Hpath;
     [rewrite walk_nil; by intros [= <-]|]);
    rewrite walk_cons; destruct (is_skipped name) eqn:Hskip; try (by apply IHr);
    case_bool_decide as Hup; try (apply IHr; by apply Forall_removelast);
    (assert (Hnew : Forall plain_part (path ++ [name]))
       by (apply Forall_app; split; [done|]; by apply Forall_singleton));
    destruct (fs !! (path ++ [name])) as [[c| |t]|]; try discriminate;
    try (by apply IHr).
  apply IHf. by destruct (is_abs t).
Qed.

(** X18. A path that [validate_path] returns for a request that does not
    begin with the home shorthand is absolute and normalised: its root is
    the single slash and none of its components is empty, [.] or [..]; and
    it lies, component by component, under the expansion of an entry of the
    AllowList. What the tools then stat, read, list or write can therefore
    not climb out of that entry by [..]. *)
Theorem validated_path_is_normalised (cfg : PyServer.Config) (env : os_env) (fs : fsmap)
    (requested : string) (p : Path) :
  startswith requested "~/" = false ->
  Forall plain_part (env_cwd env) ->
  PyServer.validate_path cfg env fs requested = Ok p ->
  root p = "/" /\
  Forall plain_part (parts p) /\
  exists d a, d ∈ PyServer.allowed_directories cfg /\
              PyServer.expand_path env fs d = Ok a /\
              is_relative_to p a = true.
Proof.
  intros Htilde Hcwd Hvalid.
  pose proof (validate_path_expand _ _ _ _ _ Hvalid) as Hexp.
  assert (Hshape : root p = "/" /\ Forall plain_part (parts p)).
  { unfold PyServer.expand_path in Hexp. rewrite Htilde in Hexp.
    unfold path_resolve, lookup_path in Hexp.
    destruct (has_char _ _); [discriminate|].
    destruct (walk Lexical fs max_symlinks _ _) as [err|q] eqn:Hwalk; [discriminate|].
    injection Hexp as <-. split; [reflexivity|]. cbn [parts].
    eapply walk_lexical_plain; [|exact Hwalk].
    destruct (is_abs _); [constructor | exact Hcwd]. }
  destruct Hshape as [Hroot Hparts]. split; [exact Hroot|]. split; [exact Hparts|].
  unfold PyServer.validate_path, mbind, result_bind in Hvalid. rewrite Hexp in Hvalid.
  destruct (result_map (PyServer.expand_path env fs) (PyServer.allowed_directories cfg))
    as [aps|e] eqn:Haps; [|discriminate].
  destruct (PyServer.first_containing p aps) as [r|] eqn:Hf; [|discriminate].
  apply first_containing_spec in Hf as [_ (a & Hin & Hrel)].
  destruct (result_map_elem_inv _ _ _ _ Haps Hin) as (d & Hd & Hda).
  by exists d, a.
Qed.

Lemma validated_path_is_normalised_witness :
  exists p,
    PyServer.validate_path (sample_cfg 6) sample_env sample_fs "/allowed/./sub/../x" = Ok p /\
    root p = "/" /\ Forall plain_part (parts p).
Proof.
  exists (MkPath "/" ["allowed"; "x"]).
  assert (Hvalid : PyServer.validate_path (sample_cfg 6) sample_env sample_fs
                     "/allowed/./sub/../x" = Ok (MkPath "/" ["allowed"; "x"]))
    by (vm_compute; reflexivity).
  split; [exact Hvalid|].
  destruct (validated_path_is_normalised (sample_cfg 6) sample_env sample_fs
              "/allowed/./sub/../x" (MkPath "/" ["allowed"; "x"]))
    as (Hroot & Hparts & _); [reflexivity | constructor | exact Hvalid |].
  split; [exact Hroot | exact Hparts].
Defined.
